(** * Verification of the request-tracing, JSON-extraction and agent-loop
      core of robertomaluco-v2.

    Shallow embedding of [src/logger.py], [src/json_utils.py],
    [src/agent/modes.py], [src/agent/gemini.py] and the access check of
    [src/agent/tools.py].  Python [str] values are modelled as Rocq
    [string]s over ASCII characters. *)

From Stdlib Require Import String Ascii List ZArith NArith QArith Qround Lia Bool SpecFloat.
Import ListNotations.
Set Warnings "-register-all".
Close Scope Q_scope.
Open Scope string_scope.

(* ------------------------------------------------------------------ *)
(** ** Python string primitives used by the code *)
Module PyStr.

(** [str.lower] restricted to ASCII. *)
Definition lower_char (c : ascii) : ascii :=
  let n := nat_of_ascii c in
  if (Nat.leb 65 n && Nat.leb n 90)%bool then ascii_of_nat (n + 32) else c.

Fixpoint lower (s : string) : string :=
  match s with
  | EmptyString => EmptyString
  | String c s' => String (lower_char c) (lower s')
  end.

(** [str.isspace] on ASCII: tab, newline, vertical tab, form feed,
    carriage return, the four separators 0x1c..0x1f and space. *)
Definition isspace (c : ascii) : bool :=
  let n := nat_of_ascii c in
  ((Nat.leb 9 n && Nat.leb n 13) || (Nat.leb 28 n && Nat.leb n 32))%bool.

Fixpoint lstrip (s : string) : string :=
  match s with
  | EmptyString => EmptyString
  | String c s' => if isspace c then lstrip s' else s
  end.

(** [str.rstrip()]: a character survives when something that is not
    whitespace follows it. *)
Fixpoint rstrip (s : string) : string :=
  match s with
  | EmptyString => EmptyString
  | String c s' =>
      match rstrip s' with
      | EmptyString => if isspace c then EmptyString else String c EmptyString
      | r => String c r
      end
  end.

(** [str.strip()] with no argument. *)
Definition strip (s : string) : string := lstrip (rstrip s).

(** [s.startswith(p)]. *)
Fixpoint startswith (s p : string) : bool :=
  match p, s with
  | EmptyString, _ => true
  | String a p', String b s' => (Ascii.eqb a b && startswith s' p')%bool
  | String _ _, EmptyString => false
  end.

(** [sub in s]. *)
Fixpoint contains (s sub : string) : bool :=
  (startswith s sub ||
   match s with
   | EmptyString => false
   | String _ s' => contains s' sub
   end)%bool.

(** [s.find(ch)] for a one-character needle; [None] stands for [-1]. *)
Fixpoint find_char (s : string) (ch : ascii) : option nat :=
  match s with
  | EmptyString => None
  | String c s' =>
      if Ascii.eqb c ch then Some 0
      else option_map S (find_char s' ch)
  end.

(** Slicing: [s[n:]] and [s[:n]]. *)
Fixpoint drop (n : nat) (s : string) : string :=
  match n, s with
  | O, _ => s
  | S _, EmptyString => EmptyString
  | S n', String _ s' => drop n' s'
  end.

Fixpoint take (n : nat) (s : string) : string :=
  match n, s with
  | O, _ => EmptyString
  | S _, EmptyString => EmptyString
  | S n', String c s' => String c (take n' s')
  end.

(** [str.splitlines()] on ASCII: the line boundaries are LF, CR, CR LF,
    VT, FF and the separators 0x1c, 0x1d, 0x1e. *)
Definition is_linebreak (c : ascii) : bool :=
  let n := nat_of_ascii c in
  (Nat.eqb n 10 || Nat.eqb n 13 || Nat.eqb n 11 || Nat.eqb n 12 ||
   Nat.eqb n 28 || Nat.eqb n 29 || Nat.eqb n 30)%bool.

(** [lines_go s] is the first line of [s] and the lines that follow it. *)
Fixpoint lines_go (s : string) : string * list string :=
  match s with
  | EmptyString => (EmptyString, [])
  | String c s' =>
      if is_linebreak c then
        let after :=
          if Nat.eqb (nat_of_ascii c) 13
          then match s' with
               | String d t => if Nat.eqb (nat_of_ascii d) 10 then t else s'
               | EmptyString => s'
               end
          else s' in
        let '(l, ls) := lines_go after in
        (EmptyString,
         match after with EmptyString => [] | _ => l :: ls end)
      else let '(l, ls) := lines_go s' in (String c l, ls)
  end.

Definition splitlines (s : string) : list string :=
  match s with
  | EmptyString => []
  | _ => let '(l, ls) := lines_go s in l :: ls
  end.

End PyStr.

(* ------------------------------------------------------------------ *)
(** ** [src/logger.py]: trace values, redaction and spans *)
Module Logger.
Import PyStr.

(** The Python values that reach a trace's [data] mappings. *)
Inductive pyval : Type :=
| PNone
| PBool (b : bool)
| PInt (z : Z)
| PStr (s : string)
| PList (xs : list pyval)
| PTuple (xs : list pyval)
| PDict (kvs : list (string * pyval)).

Definition SENSITIVE : list string :=
  ["token"; "authorization"; "api_key"; "secret"].

Definition sensitive (s : string) : bool :=
  existsb (fun t => contains (lower s) t) SENSITIVE.

Definition REDACTED : string := "[REDACTED]".
Definition TRUNCATED : string := "...[truncated]".

(** [_safe_value]. *)
Fixpoint safe_value (v : pyval) : pyval :=
  match v with
  | PStr s =>
      if sensitive s then PStr REDACTED
      else if Nat.ltb 2000 (String.length s)
           then PStr (substring 0 2000 s ++ TRUNCATED)
           else PStr s
  | PDict kvs => PDict (map (fun kv => (fst kv, safe_value (snd kv))) kvs)
  | PList xs => PList (map safe_value xs)
  | _ => v
  end.

Record TraceEvent := {
  ev_name : string;
  ev_status : string;
  ev_timestamp : string;
  ev_data : list (string * pyval)
}.

Definition event_as_dict (e : TraceEvent) : pyval :=
  PDict [("name", PStr (ev_name e));
         ("status", PStr (ev_status e));
         ("timestamp", PStr (ev_timestamp e));
         ("data", safe_value (PDict (ev_data e)))].

(** [TraceSpan]; the monotonic clock reading is a rational number of
    seconds. *)
Inductive TraceSpan : Type :=
| MkSpan (name status started_at : string) (started_at_monotonic : Q)
         (finished_at : option string) (duration_ms : option Z)
         (data : list (string * pyval))
         (events : list TraceEvent) (children : list TraceSpan).

Definition sp_status (s : TraceSpan) :=
  let '(MkSpan _ st _ _ _ _ _ _ _) := s in st.
Definition sp_finished_at (s : TraceSpan) :=
  let '(MkSpan _ _ _ _ f _ _ _ _) := s in f.
Definition sp_duration_ms (s : TraceSpan) :=
  let '(MkSpan _ _ _ _ _ d _ _ _) := s in d.
Definition sp_data (s : TraceSpan) :=
  let '(MkSpan _ _ _ _ _ _ d _ _) := s in d.

Definition opt_str (o : option string) : pyval :=
  match o with Some s => PStr s | None => PNone end.
Definition opt_int (o : option Z) : pyval :=
  match o with Some z => PInt z | None => PNone end.

Fixpoint span_as_dict (s : TraceSpan) : pyval :=
  let '(MkSpan name status started _ fin dur data evs ch) := s in
  PDict [("name", PStr name);
         ("status", PStr status);
         ("started_at", PStr started);
         ("finished_at", opt_str fin);
         ("duration_ms", opt_int dur);
         ("data", safe_value (PDict data));
         ("events", PList (map event_as_dict evs));
         ("children", PList (map span_as_dict ch))].

Record RequestTrace := {
  rt_request_id : string;
  rt_metadata : list (string * pyval);
  rt_started_at : string;
  rt_root : TraceSpan
}.

Definition request_as_dict (t : RequestTrace) : pyval :=
  PDict [("request_id", PStr (rt_request_id t));
         ("started_at", PStr (rt_started_at t));
         ("metadata", safe_value (PDict (rt_metadata t)));
         ("trace", span_as_dict (rt_root t))].

(** Positions inside a serialized document. *)
Inductive step := SKey (k : string) | SIdx (i : nat).

Fixpoint dict_get {A} (kvs : list (string * A)) (k : string) : option A :=
  match kvs with
  | [] => None
  | (k', v) :: rest => if String.eqb k k' then Some v else dict_get rest k
  end.

Fixpoint path_get (p : list step) (v : pyval) : option pyval :=
  match p with
  | [] => Some v
  | SKey k :: p' =>
      match v with
      | PDict kvs => match dict_get kvs k with
                     | Some v' => path_get p' v'
                     | None => None
                     end
      | _ => None
      end
  | SIdx i :: p' =>
      match v with
      | PList xs => match nth_error xs i with
                    | Some v' => path_get p' v'
                    | None => None
                    end
      | _ => None
      end
  end.

(** [dict.update] on an association list: existing keys keep their place. *)
Fixpoint dict_set {A} (kvs : list (string * A)) (k : string) (v : A)
  : list (string * A) :=
  match kvs with
  | [] => [(k, v)]
  | (k', v') :: rest =>
      if String.eqb k k' then (k', v) :: rest else (k', v') :: dict_set rest k v
  end.

Definition dict_update {A} (d upd : list (string * A)) : list (string * A) :=
  fold_left (fun acc kv => dict_set acc (fst kv) (snd kv)) upd d.

(** [int(x)] for a rational: truncation toward zero. *)
Definition py_int (q : Q) : Z :=
  if Qle_bool 0 q then Qfloor q else (- Qfloor (- q))%Z.

(** [TraceSpan.finish(status, **data)]: [now_iso] and [now_mono] are the
    readings of the wall clock and of [time.monotonic()] at the call. *)
Definition finish (s : TraceSpan) (status : string) (extra : list (string * pyval))
  (now_iso : string) (now_mono : Q) : TraceSpan :=
  let '(MkSpan name st started mono fin dur data evs ch) := s in
  match fin with
  | Some _ => s
  | None =>
      let dur' := py_int ((now_mono - mono) * 1000) in
      let data' := match extra with [] => data | _ => dict_update data extra end in
      MkSpan name status started mono (Some now_iso) (Some dur') data' evs ch
  end.

End Logger.

(* ------------------------------------------------------------------ *)
(** ** [json.dumps] and [json.loads] on the values the code exchanges *)
Module Json.
Import PyStr.

(** JSON values; a [float] is an IEEE 754 binary64 value, given by
    Rocq's [spec_float] (with [prec = 53] and [emax = 1024]). *)
Inductive json : Type :=
| JNull
| JBool (b : bool)
| JInt (z : Z)
| JFloat (f : spec_float)
| JStr (s : string)
| JArr (xs : list json)
| JObj (kvs : list (string * json)).

Definition chr (n : nat) : ascii := ascii_of_nat n.
Definition ord (c : ascii) : nat := nat_of_ascii c.
Definition str1 (c : ascii) : string := String c EmptyString.

(** *** Encoder: [json.dumps(v)] with the default separators [", "] and
    [": "] and [ensure_ascii=True]. *)
Definition hex_digit (n : nat) : ascii :=
  if Nat.ltb n 10 then chr (48 + n) else chr (87 + n).

Definition escape_char (c : ascii) : string :=
  let n := ord c in
  if Nat.eqb n 34 then "\" ++ str1 (chr 34)
  else if Nat.eqb n 92 then "\\"
  else if Nat.eqb n 10 then "\n"
  else if Nat.eqb n 13 then "\r"
  else if Nat.eqb n 9 then "\t"
  else if Nat.eqb n 8 then "\b"
  else if Nat.eqb n 12 then "\f"
  else if Nat.ltb n 32 then "\u00" ++ str1 (hex_digit (n / 16)) ++ str1 (hex_digit (n mod 16))
  else str1 c.

Fixpoint escape (s : string) : string :=
  match s with
  | EmptyString => EmptyString
  | String c s' => escape_char c ++ escape s'
  end.

Definition dump_str (s : string) : string := str1 (chr 34) ++ escape s ++ str1 (chr 34).

(** Decimal digits of [n], most significant first; [fuel] bounds the
    number of digits. *)
Fixpoint digits_rev (fuel : nat) (n : N) : string :=
  match fuel with
  | O => EmptyString
  | S f =>
      let d := str1 (chr (48 + N.to_nat (n mod 10))) in
      if (n <? 10)%N then d else digits_rev f (n / 10)%N ++ d
  end.

Definition dump_nat (n : N) : string := digits_rev (S (N.to_nat n)) n.

Definition dump_int (z : Z) : string :=
  if (z <? 0)%Z then "-" ++ dump_nat (Z.to_N (- z)) else dump_nat (Z.to_N z).

(** Python [float] is IEEE 754 binary64: 53 bits of precision, exponents
    up to 1024. *)
Definition prec : Z := 53.
Definition emax : Z := 1024.

(** [float(text)] for a decimal text of value [m * 10^e] (with sign
    [neg]): the binary64 value nearest to it, ties to even, overflowing
    to an infinity; computed as the correctly rounded quotient of two
    exact integers. *)
Definition float_of_decimal (neg : bool) (m : N) (e : Z) : spec_float :=
  let num := (Z.of_N m * 10 ^ Z.max e 0)%Z in
  let den := (10 ^ Z.max (- e) 0)%Z in
  match num with
  | Z0 => S754_zero neg
  | _ => let '(mz, ez, lz) := SFdiv_core_binary prec emax num 0 den 0 in
         binary_round_aux prec emax neg mz ez lz
  end.

(** *** [float.__repr__]: the shortest decimal that reads back as the
    same float, the closest one to it among those (ties to an even last
    digit), in fixed notation when its decimal point position [dp]
    satisfies [-4 < dp <= 16], in exponent notation otherwise. *)

Definition sf_eqb (x y : spec_float) : bool :=
  match x, y with
  | S754_zero a, S754_zero b => Bool.eqb a b
  | S754_infinity a, S754_infinity b => Bool.eqb a b
  | S754_nan, S754_nan => true
  | S754_finite a m e, S754_finite b m' e' =>
      (Bool.eqb a b && Pos.eqb m m' && Z.eqb e e')%bool
  | _, _ => false
  end.

(** Decimal digits of [n]; the fuel, the number of bits of [n], bounds
    the number of digits. *)
Definition dec_digits (n : Z) : string :=
  digits_rev (S (Z.to_nat (Z.log2 n))) (Z.to_N n).

(** Number of decimal digits of a positive integer. *)
Definition ndigits (n : Z) : Z := Z.of_nat (String.length (dec_digits n)).

(** The [t] with [10^(t-1) <= num/den < 10^t]. *)
Definition decimal_point (num den : Z) : Z :=
  let t := (ndigits num - ndigits den)%Z in
  if (num * 10 ^ Z.max (- t) 0 <? den * 10 ^ Z.max t 0)%Z then t else (t + 1)%Z.

(** For [n = 1, 2, ...] significant digits: the [n]-digit decimals
    [c * 10^p] just below and just above [num/den]; the first [n] for
    which one of them reads back as [x]. *)
Fixpoint shortest (fuel : nat) (n : Z) (x : spec_float) (num den t : Z) : Z * Z :=
  match fuel with
  | O => (0%Z, 0%Z)
  | S f =>
      let p := (t - n)%Z in
      let nn := (num * 10 ^ Z.max (- p) 0)%Z in
      let dd := (den * 10 ^ Z.max p 0)%Z in
      let lo := (nn / dd)%Z in
      let r := (nn mod dd)%Z in
      let ok_lo := sf_eqb (float_of_decimal false (Z.to_N lo) p) x in
      let ok_hi := (negb (r =? 0)%Z &&
                    sf_eqb (float_of_decimal false (Z.to_N (lo + 1)) p) x)%bool in
      if (ok_lo && ok_hi)%bool then
        (if (2 * r <? dd)%Z then lo
         else if (dd <? 2 * r)%Z then (lo + 1)%Z
         else if Z.even lo then lo else (lo + 1)%Z, p)
      else if ok_lo then (lo, p)
      else if ok_hi then ((lo + 1)%Z, p)
      else shortest f (n + 1)%Z x num den t
  end.

Fixpoint strip_zeros (fuel : nat) (c p : Z) : Z * Z :=
  match fuel with
  | O => (c, p)
  | S f => if (c mod 10 =? 0)%Z then strip_zeros f (c / 10) (p + 1) else (c, p)
  end.

Fixpoint zeros (k : nat) : string :=
  match k with O => EmptyString | S k' => String "0" (zeros k') end.

(** Python's [format_float_short] for the [repr] style, with [.0] added
    to integral values: digits [ds], decimal point at [dp]. *)
Definition format_short (ds : string) (dp : Z) : string :=
  let L := Z.of_nat (String.length ds) in
  if ((dp <=? -4) || (16 <? dp))%Z then
    let x := (dp - 1)%Z in
    substring 0 1 ds ++
    (if (1 <? L)%Z then "." ++ substring 1 (Z.to_nat L - 1) ds else EmptyString) ++
    "e" ++ (if (x <? 0)%Z then "-" else "+") ++
    (if (Z.abs x <? 10)%Z then "0" else EmptyString) ++ dec_digits (Z.abs x)
  else if (dp <=? 0)%Z then "0." ++ zeros (Z.to_nat (- dp)) ++ ds
  else if (L <=? dp)%Z then ds ++ zeros (Z.to_nat (dp - L)) ++ ".0"
  else substring 0 (Z.to_nat dp) ds ++ "." ++ substring (Z.to_nat dp) (Z.to_nat (L - dp)) ds.

(** [json.dumps] of a float: [float.__repr__], with [NaN], [Infinity]
    and [-Infinity] for the special values. *)
Definition float_repr (f : spec_float) : string :=
  match f with
  | S754_zero s => if s then "-0.0" else "0.0"
  | S754_infinity s => if s then "-Infinity" else "Infinity"
  | S754_nan => "NaN"
  | S754_finite s m e =>
      let num := (Z.pos m * 2 ^ Z.max e 0)%Z in
      let den := (2 ^ Z.max (- e) 0)%Z in
      let t := decimal_point num den in
      let '(c, p) := shortest 17 1 (S754_finite false m e) num den t in
      let '(c', p') := strip_zeros 20 c p in
      let ds := dec_digits c' in
      (if s then "-" else EmptyString) ++ format_short ds (ndigits c' + p')
  end.

Fixpoint dumps (v : json) : string :=
  match v with
  | JNull => "null"
  | JBool true => "true"
  | JBool false => "false"
  | JInt z => dump_int z
  | JFloat f => float_repr f
  | JStr s => dump_str s
  | JArr xs => "[" ++ String.concat ", " (map dumps xs) ++ "]"
  | JObj kvs =>
      "{" ++ String.concat ", " (map (fun kv => dump_str (fst kv) ++ ": " ++ dumps (snd kv)) kvs)
          ++ "}"
  end.

(** *** Decoder: the scanner of [json.loads] (strict mode). *)

(** JSON whitespace: space, tab, newline, carriage return. *)
Definition is_ws (c : ascii) : bool :=
  let n := ord c in (Nat.eqb n 32 || Nat.eqb n 9 || Nat.eqb n 10 || Nat.eqb n 13)%bool.

Fixpoint skip_ws (s : string) : string :=
  match s with
  | String c s' => if is_ws c then skip_ws s' else s
  | EmptyString => EmptyString
  end.

Definition is_digit (c : ascii) : bool := (Nat.leb 48 (ord c) && Nat.leb (ord c) 57)%bool.

Definition hex_val (c : ascii) : option nat :=
  let n := ord c in
  if (Nat.leb 48 n && Nat.leb n 57)%bool then Some (n - 48)
  else if (Nat.leb 97 n && Nat.leb n 102)%bool then Some (n - 87)
  else if (Nat.leb 65 n && Nat.leb n 70)%bool then Some (n - 55)
  else None.

(** [\uXXXX]: code points beyond ASCII are outside the model. *)
Definition decode_u (a b c d : ascii) : option ascii :=
  match hex_val a, hex_val b, hex_val c, hex_val d with
  | Some x1, Some x2, Some x3, Some x4 =>
      let code := ((x1 * 16 + x2) * 16 + x3) * 16 + x4 in
      if Nat.ltb code 128 then Some (chr code) else None
  | _, _, _, _ => None
  end.

Definition simple_escape (e : ascii) : option ascii :=
  let n := ord e in
  if Nat.eqb n 34 then Some e
  else if Nat.eqb n 92 then Some e
  else if Nat.eqb n 47 then Some e
  else if Nat.eqb n 98 then Some (chr 8)
  else if Nat.eqb n 102 then Some (chr 12)
  else if Nat.eqb n 110 then Some (chr 10)
  else if Nat.eqb n 114 then Some (chr 13)
  else if Nat.eqb n 116 then Some (chr 9)
  else None.

(** [scanstring]: [s] starts right after the opening quote. *)
Fixpoint pstring (s : string) : option (string * string) :=
  match s with
  | EmptyString => None
  | String c s' =>
      if Nat.eqb (ord c) 34 then Some (EmptyString, s')
      else if Nat.eqb (ord c) 92 then
        match s' with
        | EmptyString => None
        | String e s'' =>
            if Nat.eqb (ord e) 117 then
              match s'' with
              | String h1 (String h2 (String h3 (String h4 t))) =>
                  match decode_u h1 h2 h3 h4, pstring t with
                  | Some ch, Some (r, rest) => Some (String ch r, rest)
                  | _, _ => None
                  end
              | _ => None
              end
            else
              match simple_escape e, pstring s'' with
              | Some ch, Some (r, rest) => Some (String ch r, rest)
              | _, _ => None
              end
        end
      else if Nat.ltb (ord c) 32 then None
      else match pstring s' with
           | Some (r, rest) => Some (String c r, rest)
           | None => None
           end
  end.

(** Digits of an integer part: accumulate while digits follow. *)
Fixpoint pdigits (s : string) (acc : N) : N * string :=
  match s with
  | String c s' =>
      if is_digit c then pdigits s' (acc * 10 + N.of_nat (ord c - 48))%N else (acc, s)
  | EmptyString => (acc, s)
  end.

(** The integer part: a single [0], or a non-zero digit and all digits after it. *)
Definition pnat (s : string) : option (N * string) :=
  match s with
  | String c s' =>
      if Nat.eqb (ord c) 48 then Some (0%N, s')
      else if is_digit c then Some (pdigits s (0%N))
      else None
  | EmptyString => None
  end.

(** Digits, with their value and their count. *)
Fixpoint pdigits_k (s : string) (acc : N) (k : nat) : N * nat * string :=
  match s with
  | String c s' =>
      if is_digit c then pdigits_k s' (acc * 10 + N.of_nat (ord c - 48))%N (S k)
      else (acc, k, s)
  | EmptyString => (acc, k, s)
  end.

(** A fraction: [.] and at least one digit. *)
Definition pfrac (s : string) : option (N * nat) * string :=
  match s with
  | String c (String d _ as s') =>
      if (Nat.eqb (ord c) 46 && is_digit d)%bool then
        let '(f, k, r) := pdigits_k s' 0%N O in (Some (f, k), r)
      else (None, s)
  | _ => (None, s)
  end.

(** An exponent: [e] or [E], an optional sign, at least one digit;
    without a digit nothing is consumed. *)
Definition pexp (s : string) : option Z * string :=
  match s with
  | String c r =>
      if (Nat.eqb (ord c) 101 || Nat.eqb (ord c) 69)%bool then
        let '(neg, r1) :=
          match r with
          | String d r' =>
              if Nat.eqb (ord d) 45 then (true, r')
              else if Nat.eqb (ord d) 43 then (false, r')
              else (false, r)
          | EmptyString => (false, r)
          end in
        match r1 with
        | String d _ =>
            if is_digit d then
              let '(x, r2) := pdigits r1 0%N in
              (Some (if neg then (- Z.of_N x)%Z else Z.of_N x), r2)
            else (None, s)
        | EmptyString => (None, s)
        end
      else (None, s)
  | EmptyString => (None, s)
  end.

(** A number: an optional [-], the integer part, then a fraction and an
    exponent, each optional; with either of them the number is a [float]. *)
Definition pnumber (s : string) : option (json * string) :=
  let '(neg, body) :=
    match s with
    | String c s' => if Nat.eqb (ord c) 45 then (true, s') else (false, s)
    | EmptyString => (false, s)
    end in
  match pnat body with
  | Some (n, rest) =>
      let '(fr, rest1) := pfrac rest in
      let '(ex, rest2) := pexp rest1 in
      match fr, ex with
      | None, None => Some (JInt (if neg then (- Z.of_N n)%Z else Z.of_N n), rest)
      | _, _ =>
          let '(f, k) := match fr with Some fk => fk | None => (0%N, O) end in
          let x := match ex with Some x => x | None => 0%Z end in
          Some (JFloat (float_of_decimal neg (n * 10 ^ N.of_nat k + f)%N (x - Z.of_nat k)),
                rest2)
      end
  | None => None
  end.

Fixpoint pvalue (fuel : nat) (s : string) : option (json * string) :=
  match fuel with
  | O => None
  | S f =>
      match s with
      | String c r =>
          let n := ord c in
          if Nat.eqb n 123 then
            match skip_ws r with
            | String d r' =>
                if Nat.eqb (ord d) 125 then Some (JObj [], r')
                else if Nat.eqb (ord d) 34 then pmembers f r' []
                else None
            | EmptyString => None
            end
          else if Nat.eqb n 91 then
            match skip_ws r with
            | String d r' as r2 =>
                if Nat.eqb (ord d) 93 then Some (JArr [], r') else pelements f r2 []
            | EmptyString => None
            end
          else if Nat.eqb n 34 then
            match pstring r with
            | Some (st, r') => Some (JStr st, r')
            | None => None
            end
          else if startswith s "null" then Some (JNull, drop 4 s)
          else if startswith s "true" then Some (JBool true, drop 4 s)
          else if startswith s "false" then Some (JBool false, drop 5 s)
          else if startswith s "NaN" then Some (JFloat S754_nan, drop 3 s)
          else if startswith s "Infinity" then Some (JFloat (S754_infinity false), drop 8 s)
          else if startswith s "-Infinity" then Some (JFloat (S754_infinity true), drop 9 s)
          else pnumber s
      | EmptyString => None
      end
  end
(** Object members: [s] starts right after the opening quote of a key. *)
with pmembers (fuel : nat) (s : string) (acc : list (string * json))
  : option (json * string) :=
  match fuel with
  | O => None
  | S f =>
      match pstring s with
      | Some (key, s1) =>
          match skip_ws s1 with
          | String col s2 =>
              if Nat.eqb (ord col) 58 then
                match pvalue f (skip_ws s2) with
                | Some (v, s3) =>
                    let acc' := Logger.dict_set acc key v in
                    match skip_ws s3 with
                    | String d s4 =>
                        if Nat.eqb (ord d) 125 then Some (JObj acc', s4)
                        else if Nat.eqb (ord d) 44 then
                          match skip_ws s4 with
                          | String q s5 =>
                              if Nat.eqb (ord q) 34 then pmembers f s5 acc' else None
                          | EmptyString => None
                          end
                        else None
                    | EmptyString => None
                    end
                | None => None
                end
              else None
          | EmptyString => None
          end
      | None => None
      end
  end
(** Array elements: [s] starts at an element. *)
with pelements (fuel : nat) (s : string) (acc : list json)
  : option (json * string) :=
  match fuel with
  | O => None
  | S f =>
      match pvalue f s with
      | Some (v, s1) =>
          match skip_ws s1 with
          | String d s2 =>
              if Nat.eqb (ord d) 93 then Some (JArr (acc ++ [v]), s2)
              else if Nat.eqb (ord d) 44 then pelements f (skip_ws s2) (acc ++ [v])
              else None
          | EmptyString => None
          end
      | None => None
      end
  end.

(** [json.loads(s)]: one value, surrounded by whitespace only.  The fuel
    exceeds the number of characters, and every step consumes one. *)
Definition loads (s : string) : option json :=
  match pvalue (S (String.length s)) (skip_ws s) with
  | Some (v, rest) =>
      match skip_ws rest with EmptyString => Some v | _ => None end
  | None => None
  end.

End Json.

(* ------------------------------------------------------------------ *)
(** ** [src/json_utils.py] *)
Module JsonUtils.
Import PyStr Json.

Definition FENCE : string := "```".

Definition strip_code_fences (text : string) : string :=
  let stripped := strip text in
  if negb (startswith stripped FENCE) then stripped
  else
    let lines := splitlines stripped in
    let lines := match lines with
                 | l :: rest => if startswith l FENCE then rest else lines
                 | [] => lines
                 end in
    let lines := match rev lines with
                 | l :: _ => if String.eqb (strip l) FENCE then removelast lines else lines
                 | [] => lines
                 end in
    strip (String.concat (str1 (chr 10)) lines).

(** The depth-tracking loop of [extract_first_json_object]: [s] is the
    text from [index] on; the result is the index of the matching [}]. *)
Fixpoint scan (s : string) (index : nat) (depth : Z) (in_string escaped : bool)
  : option nat :=
  match s with
  | EmptyString => None
  | String c s' =>
      if in_string then
        if escaped then scan s' (S index) depth true false
        else if Nat.eqb (ord c) 92 then scan s' (S index) depth true true
        else if Nat.eqb (ord c) 34 then scan s' (S index) depth false escaped
        else scan s' (S index) depth true escaped
      else if Nat.eqb (ord c) 34 then scan s' (S index) depth true escaped
      else if Nat.eqb (ord c) 123 then scan s' (S index) (depth + 1) false escaped
      else if Nat.eqb (ord c) 125 then
        if (depth - 1 =? 0)%Z then Some index
        else scan s' (S index) (depth - 1) false escaped
      else scan s' (S index) depth false escaped
  end.

(** The three [ValueError]s raised by the function; [json.loads]'s
    [JSONDecodeError] is a [ValueError] too. *)
Inductive extract_error :=
| NoObjectFound
| UnterminatedObject
| DecodeError
| NotAnObject.

Definition extract_first_json_object (text : string)
  : (list (string * json) * string) + extract_error :=
  let candidate := strip_code_fences text in
  match find_char candidate "{"%char with
  | None => inr NoObjectFound
  | Some start =>
      match scan (drop start candidate) start 0 false false with
      | None => inr UnterminatedObject
      | Some end_ =>
          let raw := take (S end_ - start) (drop start candidate) in
          let trailing := strip (drop (S end_) candidate) in
          match loads raw with
          | None => inr DecodeError
          | Some (JObj payload) => inl (payload, trailing)
          | Some _ => inr NotAnObject
          end
      end
  end.

End JsonUtils.

(* ------------------------------------------------------------------ *)
(** ** [src/agent/modes.py] *)
Module Modes.
Import PyStr.

Record ModeDecision := { dm_mode : string; dm_reason : string }.

Definition PLAN_HINTS : list string :=
  ["plan mode"; "make a plan"; "create a plan"; "before you code";
   "implementation plan"; "review before coding"].

Definition CODE_HINTS : list string :=
  ["feature"; "implement"; "ship"; "build"; "code"; "refactor"; "bug"; "fix";
   "repository"; "repo"; "pull request"; "pr"].

(** The first hint of [hints] that occurs in [s]. *)
Fixpoint first_hint (hints : list string) (s : string) : option string :=
  match hints with
  | [] => None
  | h :: hs => if contains s h then Some h else first_hint hs s
  end.

Definition detect_mode (prompt : string) : ModeDecision :=
  let normalized := lower (strip prompt) in
  match first_hint PLAN_HINTS normalized with
  | Some h => {| dm_mode := "plan"; dm_reason := "matched_hint:" ++ h |}
  | None =>
      match first_hint CODE_HINTS normalized with
      | Some h => {| dm_mode := "plan"; dm_reason := "matched_code_hint:" ++ h |}
      | None => {| dm_mode := "chat"; dm_reason := "default" |}
      end
  end.

End Modes.

(* ------------------------------------------------------------------ *)
(** ** A state and error monad for the provider code *)
Module StateErr.

Definition M (E S A : Type) : Type := S -> (A + E) * S.

Definition ret {E S A} (a : A) : M E S A := fun s => (inl a, s).

Definition bind {E S A B} (m : M E S A) (k : A -> M E S B) : M E S B :=
  fun s => match m s with
           | (inl a, s') => k a s'
           | (inr e, s') => (inr e, s')
           end.

Definition raise {E S A} (e : E) : M E S A := fun s => (inr e, s).

Notation "x <- m ;; k" := (bind m (fun x => k))
  (at level 61, m at next level, right associativity).
Notation "m ;;; k" := (bind m (fun _ => k))
  (at level 61, right associativity).

End StateErr.

(* ------------------------------------------------------------------ *)
(** ** [src/agent/gemini.py] and the access check of [src/agent/tools.py] *)
Module Gemini.
Import PyStr Json JsonUtils StateErr.

(** The exceptions the provider code raises or lets through. *)
Inductive err :=
| ProviderError (code : Z) (detail : string)  (* "Gemini API error (code): ..." *)
| GenTimeout (attempt : nat)                  (* "Gemini request timed out ..." *)
| GenNetwork (reason : string)                (* "Gemini network error: ..." *)
| Uncaught (what : string)                    (* an exception no clause catches *)
| BadBody                                     (* decoding or shape error on the reply body *)
| MissingText                                 (* "Gemini response missing text content" *)
| NotJson (text : string)                     (* "Gemini response is not JSON: ..." *)
| InvalidToolCall
| InvalidFinal
| UnsupportedAction
| KeyErr (k : string)
| TypeErr
| AttrErr
| ValidationErr                               (* a pydantic [ValidationError] *)
| UnknownTool (name : json)                   (* "Unknown tool requested by Gemini: ..." *)
| GithubErr (msg : string)                    (* an error raised by [GithubTools] *)
| NoPushAccess.                               (* "GITHUB_TOKEN has no push access ..." *)

(** What one [urlopen] attempt to the generation endpoint yields. *)
Inductive http_outcome :=
| HttpOk (status : Z) (raw : string)
| HttpError (code : Z) (detail : string)
| TimeoutExc
| UrlErr (reason : string)
| OtherExc (what : string).

(** What the code records in the trace while it runs: the [llm.step]
    child spans, the [gemini.http.*] events (with the attempt number) and
    the back-off sleeps. *)
Inductive obs :=
| OStep (index : nat)
| OEvent (name : string) (attempt : nat)
| OSleep (seconds : Q).

Record RepoAccess := { owner : string; repo : string; branch : string }.

Record WriteFileInput := {
  wf_path : string; wf_content : string; wf_commit_message : string;
  wf_branch : option string }.

Record PullRequestInput := {
  pr_title : string; pr_body : string; pr_head_branch : string;
  pr_base_branch : string }.

Inductive action := ToolCall (tool args : json) | Final (message : json).

Inductive iter_result := ITool (entry : json) | IFinal (message : json).

Inductive loop_exit := Broke (raw : string) | Exhausted (last_error : option err).

Definition MAX_RETRIES : nat := 2.

Definition STEP_LIMIT_MSG : string :=
  "I couldn't complete the workflow within the step limit.".

Definition TOOL_NAMES : list string :=
  ["get_default_branch"; "create_branch"; "list_files"; "read_file";
   "write_file"; "create_pull_request"].

Definition QT : string := str1 (chr 34).
Definition NL : string := str1 (chr 10).
Definition q (s : string) : string := QT ++ s ++ QT.

(** Python truthiness of a decoded JSON value. *)
Definition truthy (v : json) : bool :=
  match v with
  | JNull => false
  | JBool b => b
  | JInt z => negb (z =? 0)%Z
  | JFloat f => match f with S754_zero _ => false | _ => true end
  | JStr s => negb (String.eqb s EmptyString)
  | JArr xs => match xs with [] => false | _ => true end
  | JObj kvs => match kvs with [] => false | _ => true end
  end.

(** [d.get(k)] and [d[k]] on a decoded value. *)
Definition py_get (d : json) (k : string) : option json + err :=
  match d with
  | JObj kvs => inl (Logger.dict_get kvs k)
  | _ => inr AttrErr
  end.

Definition py_getitem (d : json) (k : string) : json + err :=
  match d with
  | JObj kvs => match Logger.dict_get kvs k with
                | Some v => inl v
                | None => inr (KeyErr k)
                end
  | _ => inr TypeErr
  end.

(** [for x in v]. *)
Fixpoint str_items (s : string) : list json :=
  match s with
  | EmptyString => []
  | String c s' => JStr (str1 c) :: str_items s'
  end.

Definition py_iter (v : json) : option (list json) :=
  match v with
  | JArr xs => Some xs
  | JObj kvs => Some (map (fun kv => JStr (fst kv)) kvs)
  | JStr s => Some (str_items s)
  | _ => None
  end.

Definition get_or (kvs : list (string * json)) (k : string) (dflt : json) : json :=
  match Logger.dict_get kvs k with Some v => v | None => dflt end.

(** The text parts collected from a [generateContent] reply; [None] is an
    [AttributeError] or [TypeError] on an unexpected shape. *)
Definition part_texts (parts : list json) : option (list string) :=
  fold_right
    (fun p acc =>
       match p, acc with
       | JObj pk, Some ts =>
           match Logger.dict_get pk "text" with
           | Some t => if truthy t then
                         match t with JStr s => Some (s :: ts) | _ => None end
                       else Some ts
           | None => Some ts
           end
       | _, _ => None
       end) (Some []) parts.

Definition candidate_texts (c : json) : option (list string) :=
  match c with
  | JObj ck =>
      match get_or ck "content" (JObj []) with
      | JObj content =>
          match py_iter (get_or content "parts" (JArr [])) with
          | Some parts => part_texts parts
          | None => None
          end
      | _ => None
      end
  | _ => None
  end.

Definition gemini_texts (body : json) : option (list string) :=
  match body with
  | JObj kvs =>
      match py_iter (get_or kvs "candidates" (JArr [])) with
      | Some cs =>
          fold_right (fun c acc =>
                        match candidate_texts c, acc with
                        | Some ts, Some rest => Some (ts ++ rest)%list
                        | _, _ => None
                        end) (Some []) cs
      | None => None
      end
  | _ => None
  end.

(** [_parse_action]. *)
Definition parse_action (model_text : string) : action + err :=
  match extract_first_json_object model_text with
  | inr _ => inr (NotJson model_text)
  | inl (payload, _trailing) =>
      match Logger.dict_get payload "type" with
      | Some (JStr t) =>
          if String.eqb t "tool_call" then
            match Logger.dict_get payload "tool" with
            | None => inr InvalidToolCall
            | Some tool => inl (ToolCall tool (get_or payload "arguments" (JObj [])))
            end
          else if String.eqb t "final" then
            match Logger.dict_get payload "message" with
            | Some m => if truthy m then inl (Final m) else inr InvalidFinal
            | None => inr InvalidFinal
            end
          else inr UnsupportedAction
      | _ => inr UnsupportedAction
      end
  end.

(** [WriteFileInput.model_validate]: [extra="forbid"], [min_length=1] on
    [path] and [commit_message], [branch] a string or [None]. *)
Definition nonempty_str (v : option json) : option string :=
  match v with
  | Some (JStr s) => if Nat.ltb 0 (String.length s) then Some s else None
  | _ => None
  end.

Definition only_keys (allowed : list string) (kvs : list (string * json)) : bool :=
  forallb (fun kv => existsb (String.eqb (fst kv)) allowed) kvs.

Definition validate_write_file (a : json) : option WriteFileInput :=
  match a with
  | JObj kvs =>
      if only_keys ["path"; "content"; "commit_message"; "branch"] kvs then
        match nonempty_str (Logger.dict_get kvs "path"),
              Logger.dict_get kvs "content",
              nonempty_str (Logger.dict_get kvs "commit_message"),
              Logger.dict_get kvs "branch" with
        | Some p, Some (JStr c), Some m, None =>
            Some {| wf_path := p; wf_content := c; wf_commit_message := m; wf_branch := None |}
        | Some p, Some (JStr c), Some m, Some JNull =>
            Some {| wf_path := p; wf_content := c; wf_commit_message := m; wf_branch := None |}
        | Some p, Some (JStr c), Some m, Some (JStr b) =>
            Some {| wf_path := p; wf_content := c; wf_commit_message := m; wf_branch := Some b |}
        | _, _, _, _ => None
        end
      else None
  | _ => None
  end.

(** [PullRequestInput.model_validate]: [body] defaults to [""] and
    [base_branch] to ["main"]. *)
Definition validate_pull_request (a : json) : option PullRequestInput :=
  match a with
  | JObj kvs =>
      if only_keys ["title"; "body"; "head_branch"; "base_branch"] kvs then
        let body := match Logger.dict_get kvs "body" with
                    | None => Some ""
                    | Some (JStr b) => Some b
                    | Some _ => None
                    end in
        let base := match Logger.dict_get kvs "base_branch" with
                    | None => Some "main"
                    | v => nonempty_str v
                    end in
        match nonempty_str (Logger.dict_get kvs "title"), body,
              nonempty_str (Logger.dict_get kvs "head_branch"), base with
        | Some t, Some b, Some h, Some bb =>
            Some {| pr_title := t; pr_body := b; pr_head_branch := h; pr_base_branch := bb |}
        | _, _, _, _ => None
        end
      else None
  | _ => None
  end.

Definition lift {S A} (r : A + err) : M err S A :=
  fun s => match r with inl a => (inl a, s) | inr e => (inr e, s) end.

Definition lift_opt {S A} (r : option A) (e : err) : M err S A :=
  fun s => match r with Some a => (inl a, s) | None => (inr e, s) end.

(** *** String helpers of [_extract_repo_access] and [RepoAccess] *)

(** [s.replace("<", " ").replace(">", " ")]. *)
Fixpoint blank_angles (s : string) : string :=
  match s with
  | EmptyString => EmptyString
  | String c s' =>
      let c' := if (Nat.eqb (ord c) 60 || Nat.eqb (ord c) 62)%bool then " "%char else c in
      String c' (blank_angles s')
  end.

Fixpoint lstrip_chars (cs : list ascii) (s : string) : string :=
  match s with
  | EmptyString => EmptyString
  | String c s' => if existsb (Ascii.eqb c) cs then lstrip_chars cs s' else s
  end.

Fixpoint rstrip_chars (cs : list ascii) (s : string) : string :=
  match s with
  | EmptyString => EmptyString
  | String c s' =>
      match rstrip_chars cs s' with
      | EmptyString => if existsb (Ascii.eqb c) cs then EmptyString else str1 c
      | r => String c r
      end
  end.

(** [s.strip(chars)]. *)
Definition strip_chars (cs : list ascii) (s : string) : string :=
  lstrip_chars cs (rstrip_chars cs s).

(** [s.split(sep, 1)[0]] for a one-character separator. *)
Fixpoint before_char (sep : ascii) (s : string) : string :=
  match s with
  | EmptyString => EmptyString
  | String c s' => if Ascii.eqb c sep then EmptyString else String c (before_char sep s')
  end.

(** [s.split(sep)] for a one-character separator. *)
Fixpoint split_char (sep : ascii) (s : string) : list string :=
  match s with
  | EmptyString => [EmptyString]
  | String c s' =>
      if Ascii.eqb c sep then EmptyString :: split_char sep s'
      else match split_char sep s' with
           | p :: ps => String c p :: ps
           | [] => [str1 c]
           end
  end.

(** [s.split(needle, 1)[1]] when [needle in s]. *)
Fixpoint after_sub (needle s : string) : option string :=
  if startswith s needle then Some (drop (String.length needle) s)
  else match s with
       | EmptyString => None
       | String _ s' => after_sub needle s'
       end.

(** [s.removesuffix(suffix)]. *)
Definition removesuffix (suffix s : string) : string :=
  let n := String.length s in
  let m := String.length suffix in
  if (Nat.ltb 0 m && Nat.leb m n && String.eqb (drop (n - m) s) suffix)%bool
  then take (n - m) s else s.

(** The character class [[A-Za-z0-9_.-]]. *)
Definition slug_char (c : ascii) : bool :=
  let n := ord c in
  (Nat.leb 65 n && Nat.leb n 90 || Nat.leb 97 n && Nat.leb n 122 ||
   Nat.leb 48 n && Nat.leb n 57 || Nat.eqb n 95 || Nat.eqb n 46 || Nat.eqb n 45)%bool.

(** The longest prefix of slug characters, and the rest. *)
Fixpoint slug_run (s : string) : string * string :=
  match s with
  | String c s' => if slug_char c then let '(a, r) := slug_run s' in (String c a, r)
                   else (EmptyString, s)
  | EmptyString => (EmptyString, EmptyString)
  end.

Definition GITHUB_PREFIX : string := "https://github.com/".

(** The pattern [https://github\.com/([A-Za-z0-9_.-]+)/([A-Za-z0-9_.-]+)]
    matched at the start of [s]: both groups are greedy and ['/'] is not in
    the class, so the match is determined without backtracking. *)
Definition match_at (s : string) : option (string * string) :=
  if startswith s GITHUB_PREFIX then
    let '(g1, r1) := slug_run (drop (String.length GITHUB_PREFIX) s) in
    match g1, r1 with
    | String _ _, String sl r2 =>
        if Nat.eqb (ord sl) 47 then
          match fst (slug_run r2) with
          | EmptyString => None
          | g2 => Some (g1, g2)
          end
        else None
    | _, _ => None
    end
  else None.

(** [re.search]: the leftmost position where the pattern matches. *)
Fixpoint re_search (s : string) : option (string * string) :=
  match match_at s with
  | Some m => Some m
  | None => match s with
            | EmptyString => None
            | String _ s' => re_search s'
            end
  end.

(** The [mode="before"] validator [RepoAccess.sanitize_slug]. *)
Definition sanitize_slug (is_owner : bool) (value : string) : string :=
  let cleaned := strip (strip_chars ["<"%char; ">"%char] (strip value)) in
  let cleaned := before_char "|"%char cleaned in
  let cleaned :=
    match after_sub "github.com/" cleaned with
    | Some tail =>
        let tail := strip_chars ["/"%char]
                      (before_char "#"%char (before_char "?"%char tail)) in
        let parts := filter (fun p => negb (String.eqb p EmptyString)) (split_char "/"%char tail) in
        match parts with
        | [] => cleaned
        | p0 :: rest =>
            if is_owner then p0
            else match rest with p1 :: _ => p1 | [] => p0 end
        end
    | None => cleaned
    end in
  removesuffix ".git" cleaned.

(** [RepoAccess(owner=..., repo=..., branch="main")] with its validators
    and [min_length=1] checks. *)
Definition make_access (o r : string) : option RepoAccess :=
  let o' := sanitize_slug true o in
  let r' := sanitize_slug false r in
  if (Nat.ltb 0 (String.length o') && Nat.ltb 0 (String.length r'))%bool
  then Some {| owner := o'; repo := r'; branch := "main" |}
  else None.

(** [_extract_repo_access]. *)
Definition extract_repo_access (prompt : string) : option RepoAccess + err :=
  match re_search (blank_angles prompt) with
  | None => inl None
  | Some (g1, g2) =>
      match make_access g1 (removesuffix ".git" g2) with
      | Some a => inl (Some a)
      | None => inr ValidationErr
      end
  end.

(** The prompts. *)
Definition SYSTEM_PROMPT : string :=
  "You are an autonomous software agent. " ++
  "You must output only valid JSON with one of these shapes:" ++ NL ++
  "1) {" ++ q "type" ++ ":" ++ q "tool_call" ++ "," ++ q "tool" ++ ":" ++ q "<name>" ++ "," ++
     q "arguments" ++ ":{...}}" ++ NL ++
  "2) {" ++ q "type" ++ ":" ++ q "final" ++ "," ++ q "message" ++ ":" ++
     q "<final summary for user>" ++ "}" ++ NL ++ NL ++
  "Available tools:" ++ NL ++
  "- get_default_branch: {}" ++ NL ++
  "- create_branch: {new_branch: string, from_branch?: string}" ++ NL ++
  "- list_files: {branch?: string}" ++ NL ++
  "- read_file: {path: string, branch?: string}" ++ NL ++
  "- write_file: {path: string, content: string, commit_message: string, branch?: string}" ++ NL ++
  "- create_pull_request: {title: string, body: string, head_branch: string, base_branch?: string}" ++ NL ++ NL ++
  "Workflow guidance:" ++ NL ++
  "1) Discover files" ++ NL ++
  "2) Read relevant files" ++ NL ++
  "3) Create a branch if needed" ++ NL ++
  "4) Write updated file contents" ++ NL ++
  "5) Open PR" ++ NL ++
  "When done, return a final summary including PR URL." ++ NL ++
  "Never include markdown code fences.".

Definition access_dump (a : RepoAccess) : json :=
  JObj [("owner", JStr (owner a)); ("repo", JStr (repo a)); ("branch", JStr (branch a))].

(** [_build_tool_prompt]; [ts] is [int(time.time())]. *)
Definition build_tool_prompt (user_prompt : string) (access : RepoAccess)
  (history : list json) (ts : Z) : string :=
  dumps (JObj [("system", JStr SYSTEM_PROMPT); ("repo", access_dump access);
               ("request", JStr user_prompt); ("history", JArr history);
               ("timestamp", JInt ts)]).

Definition history_entry (model_text : string) (tool_result : json) : json :=
  JObj [("assistant", JStr model_text); ("tool_result", tool_result)].

(** [AgentResponse(text=...)]: the [text] field accepts a [str] only. *)
Definition response_text (m : json) : string + err :=
  match m with JStr s => inl s | _ => inr ValidationErr end.

(** [v == s] for a decoded value and a string literal. *)
Definition is_str (v : json) (s : string) : bool :=
  match v with JStr t => String.eqb t s | _ => false end.

(** *** The provider, over the world it talks to *)
Section Provider.

(** The world outside the code: the generation endpoint, the clock and
    the GitHub repository behind [GithubTools].  Each GitHub operation is
    the [GithubTools] method of the same name (an HTTP exchange whose
    outcome depends on the remote state); [gh_repo] is the
    [GET /repos/{owner}/{repo}] request of [ensure_repo_write_access]. *)
Variable W : Type.
Variable urlopen : string -> W -> http_outcome * W.
Variable sleep : Q -> W -> W.
Variable clock : W -> Z.
(** [str(PlanSchema.model_json_schema())], generated by pydantic. *)
Variable plan_schema : string.
Variable gh_repo : RepoAccess -> W -> (json + err) * W.
Variable gh_get_default_branch : RepoAccess -> W -> (json + err) * W.
Variable gh_create_branch : RepoAccess -> json -> option json -> W -> (json + err) * W.
Variable gh_list_files : RepoAccess -> option json -> W -> (list json + err) * W.
Variable gh_read_file : RepoAccess -> json -> option json -> W -> (json + err) * W.
Variable gh_write_file : RepoAccess -> WriteFileInput -> W -> (json + err) * W.
Variable gh_create_pull_request : RepoAccess -> PullRequestInput -> W -> (json + err) * W.

Definition St : Type := (W * list obs)%type.
Definition P (A : Type) : Type := M err St A.

Definition world {A} (f : W -> (A + err) * W) : P A :=
  fun s => let '(r, w') := f (fst s) in (r, (w', snd s)).

Definition emit (o : obs) : P unit :=
  fun s => (inl tt, (fst s, (snd s ++ [o])%list)).

Definition now : P Z := fun s => (inl (clock (fst s)), s).

Definition open_url (prompt : string) : P http_outcome :=
  world (fun w => let '(o, w') := urlopen prompt w in (inl o, w')).

(** [1.5 * (attempt + 1)] seconds. *)
Definition backoff_secs (attempt : nat) : Q := (Qmake 3 2 * inject_Z (Z.of_nat (S attempt)))%Q.

Definition backoff (attempt : nat) : P unit :=
  if Nat.ltb attempt MAX_RETRIES then
    let secs := backoff_secs attempt in
    (fun s => (inl tt, (sleep secs (fst s), snd s))) ;;; emit (OSleep secs)
  else ret tt.

(** The retry loop of [_generate_text]: [remaining] attempts are left,
    [attempt] is the 0-based index of the next one. *)
Fixpoint attempt_loop (prompt : string) (remaining attempt : nat) (last : option err)
  : P loop_exit :=
  match remaining with
  | O => ret (Exhausted last)
  | S r =>
      emit (OEvent "gemini.http.start" (S attempt)) ;;;
      o <- open_url prompt ;;
      match o with
      | HttpOk _ raw =>
          emit (OEvent "gemini.http.success" (S attempt)) ;;; ret (Broke raw)
      | HttpError code detail =>
          emit (OEvent "gemini.http.error" (S attempt)) ;;; raise (ProviderError code detail)
      | TimeoutExc =>
          emit (OEvent "gemini.http.error" (S attempt)) ;;;
          backoff attempt ;;;
          attempt_loop prompt r (S attempt) (Some (GenTimeout (S attempt)))
      | UrlErr reason =>
          emit (OEvent "gemini.http.error" (S attempt)) ;;;
          backoff attempt ;;;
          attempt_loop prompt r (S attempt) (Some (GenNetwork reason))
      | OtherExc what => raise (Uncaught what)
      end
  end.

(** Reading the reply body after the loop. *)
Definition parse_body (raw : string) : P string :=
  match loads raw with
  | None => raise BadBody
  | Some body =>
      match gemini_texts body with
      | None => raise BadBody
      | Some texts =>
          let combined := strip (String.concat NL texts) in
          match combined with
          | EmptyString => emit (OEvent "gemini.parse.error" 0) ;;; raise MissingText
          | _ => ret combined
          end
      end
  end.

(** [_generate_text]. *)
Definition generate_text (prompt : string) : P string :=
  x <- attempt_loop prompt (S MAX_RETRIES) 0 None ;;
  match x with
  | Broke raw => parse_body raw
  | Exhausted (Some e) => raise e
  | Exhausted None => parse_body EmptyString
  end.

(** [_execute_tool_inner]. *)
Definition execute_tool_inner (access : RepoAccess) (tool_name args : json) : P json :=
  if is_str tool_name "get_default_branch" then
    b <- world (gh_get_default_branch access) ;;
    ret (JObj [("default_branch", b)])
  else if is_str tool_name "create_branch" then
    new_branch <- lift (py_getitem args "new_branch") ;;
    from_branch <- lift (py_get args "from_branch") ;;
    created <- world (gh_create_branch access new_branch from_branch) ;;
    ret (JObj [("branch", created)])
  else if is_str tool_name "list_files" then
    br <- lift (py_get args "branch") ;;
    files <- world (gh_list_files access br) ;;
    ret (JObj [("files", JArr (firstn 500 files));
               ("total_files", JInt (Z.of_nat (length files)))])
  else if is_str tool_name "read_file" then
    path <- lift (py_getitem args "path") ;;
    br <- lift (py_get args "branch") ;;
    content <- world (gh_read_file access path br) ;;
    path' <- lift (py_getitem args "path") ;;
    ret (JObj [("path", path'); ("content", content)])
  else if is_str tool_name "write_file" then
    payload <- lift_opt (validate_write_file args) ValidationErr ;;
    sha <- world (gh_write_file access payload) ;;
    ret (JObj [("path", JStr (wf_path payload)); ("commit_sha", sha)])
  else if is_str tool_name "create_pull_request" then
    payload <- lift_opt (validate_pull_request args) ValidationErr ;;
    url <- world (gh_create_pull_request access payload) ;;
    ret (JObj [("pull_request_url", url)])
  else raise (UnknownTool tool_name).

(** One pass of the [for step_index in range(12)] body. *)
Definition iteration (user_prompt : string) (access : RepoAccess)
  (step_index : nat) (history : list json) : P iter_result :=
  ts <- now ;;
  let prompt := build_tool_prompt user_prompt access history ts in
  emit (OStep (S step_index)) ;;;
  model_text <- generate_text prompt ;;
  act <- lift (parse_action model_text) ;;
  match act with
  | Final m => ret (IFinal m)
  | ToolCall tool args =>
      tool_result <- execute_tool_inner access tool args ;;
      ret (ITool (history_entry model_text tool_result))
  end.

(** The loop, with [fuel] iterations left. *)
Fixpoint tool_loop (user_prompt : string) (access : RepoAccess)
  (fuel step_index : nat) (history : list json) : P string :=
  match fuel with
  | O => ret STEP_LIMIT_MSG
  | S f =>
      r <- iteration user_prompt access step_index history ;;
      match r with
      | IFinal m => lift (response_text m)
      | ITool entry => tool_loop user_prompt access f (S step_index) (history ++ [entry])%list
      end
  end.

(** [GithubTools.ensure_repo_write_access]. *)
Definition ensure_repo_write_access (access : RepoAccess) : P unit :=
  r <- world (gh_repo access) ;;
  permissions <- lift (py_get r "permissions") ;;
  match permissions with
  | Some (JObj pk) =>
      if truthy (get_or pk "push" (JBool false)) then ret tt else raise NoPushAccess
  | _ => ret tt
  end.

(** [build_plan_prompt]. *)
Definition build_plan_prompt (user_prompt : string) : string :=
  "You are in plan mode. Analyze the request and return only JSON matching this schema. " ++
  "Do not include markdown fences or commentary." ++ NL ++ NL ++
  "Schema:" ++ NL ++ plan_schema ++ NL ++ NL ++
  "User request:" ++ NL ++ user_prompt.

(** [GeminiProvider.respond]. *)
Definition respond (mode prompt : string) : P string :=
  if String.eqb mode "plan" then generate_text (build_plan_prompt prompt)
  else
    access <- lift (extract_repo_access prompt) ;;
    match access with
    | None => generate_text prompt
    | Some a =>
        ensure_repo_write_access a ;;;
        tool_loop prompt a 12 0 []
    end.

(** The request path of [handle_event] in [src/app.py]: the mode comes
    from [detect_mode], and [AgentRequest] needs a non-empty prompt. *)
Definition handle_request (text : string) : P string :=
  match text with
  | EmptyString => raise ValidationErr
  | _ => respond (Modes.dm_mode (Modes.detect_mode text)) text
  end.

End Provider.

End Gemini.

(* ------------------------------------------------------------------ *)
(** ** Specification-side definitions used by the statements below *)
Module Specs.
Import Json Gemini.

(** The retry rule of the specification, over the outcomes [net n] of
    successive attempts: a reply is delivered; a status-code error is
    surfaced at once; a timeout or connection error is retried while
    retries are left and surfaced otherwise.  The attempt count is kept. *)
Inductive retry_verdict :=
| Delivered (raw : string) (attempts : nat)
| Surfaced (e : err) (attempts : nat).

Fixpoint retry_policy (net : nat -> http_outcome) (retries_left n : nat) : retry_verdict :=
  match net n with
  | HttpOk _ raw => Delivered raw (S n)
  | HttpError c d => Surfaced (ProviderError c d) (S n)
  | TimeoutExc =>
      match retries_left with
      | O => Surfaced (GenTimeout (S n)) (S n)
      | S k => retry_policy net k (S n)
      end
  | UrlErr r =>
      match retries_left with
      | O => Surfaced (GenNetwork r) (S n)
      | S k => retry_policy net k (S n)
      end
  | OtherExc w => Surfaced (Uncaught w) (S n)
  end.

(** A network that answers the [n]-th attempt with [net n]; the world is
    the number of attempts made so far. *)
Definition net_open (net : nat -> http_outcome) (_ : string) (n : nat) : http_outcome * nat :=
  (net n, S n).
Definition no_sleep (_ : Q) (n : nat) : nat := n.

(** The loop iterations reported in a trace log. *)
Definition steps_of (l : list obs) : list nat :=
  flat_map (fun o => match o with OStep n => [n] | _ => [] end) l.

(** A computation is quiet when it only appends to the log, and appends
    no loop iteration. *)
Definition quiet {W A} (m : P W A) : Prop :=
  forall w l r w' l', m (w, l) = (r, (w', l')) ->
  exists extra, l' = (l ++ extra)%list /\ steps_of extra = [].

(** A run of tool steps: [es] lists, for each iteration, the history entry
    it appended and the state after it; [state_at s0 es i] is the state
    before iteration [i]. *)
Definition state_at {S} (s0 : S) (es : list (json * S)) (i : nat) : S :=
  match i with
  | O => s0
  | S i' => match nth_error es i' with Some (_, s) => s | None => s0 end
  end.

Definition tool_steps {S} (step : nat -> list json -> S -> (iter_result + err) * S)
  (s0 : S) (es : list (json * S)) : Prop :=
  forall i e s', nth_error es i = Some (e, s') ->
  step i (map fst (firstn i es)) (state_at s0 es i) = (inl (ITool e), s').

End Specs.

(** Helpers for the extractor's round trip. *)
Module JsonSpecs.
Import PyStr Json JsonUtils.

(** Keys of a mapping, pairwise distinct: a Python [dict] has no
    repeated key. *)
Fixpoint keys_distinct (ks : list string) : bool :=
  match ks with
  | [] => true
  | k :: ks' => negb (existsb (String.eqb k) ks') && keys_distinct ks'
  end.

(** A JSON value a Python [dict]/[list] tree serializes from, with
    every mapping at every depth having distinct keys, and with no float
    (the read-back of a float's [repr] is not covered here). *)
Fixpoint json_wf (v : json) : bool :=
  match v with
  | JArr xs => forallb json_wf xs
  | JObj kvs => keys_distinct (map fst kvs) && forallb (fun kv => json_wf (snd kv)) kvs
  | JFloat _ => false
  | _ => true
  end.

Fixpoint all_chars (p : ascii -> bool) (s : string) : bool :=
  match s with
  | EmptyString => true
  | String c s' => p c && all_chars p s'
  end.

(** Characters the brace scanner reacts to outside a string. *)
Definition scan_special (c : ascii) : bool :=
  (Nat.eqb (ord c) 34 || Nat.eqb (ord c) 123 || Nat.eqb (ord c) 125)%bool.

(** [u] is crossed by the scanner at depth [d] without effect. *)
Definition scan_transparent (d : Z) (u : string) : Prop :=
  forall t i, scan (u ++ t) i d false false = scan t (String.length u + i) d false false.

(** [u] is the rest of a string literal, its closing quote included:
    the scanner, inside the string at depth [d], crosses it and leaves
    the string at the same depth. *)
Definition string_tail (d : Z) (u : string) : Prop :=
  forall t i, scan (u ++ t) i d true false = scan t (String.length u + i) d false false.

(** What may follow a value inside the serialization of a container. *)
Definition value_end (t : string) : bool :=
  match t with
  | EmptyString => true
  | String c _ => (Nat.eqb (ord c) 44 || Nat.eqb (ord c) 93 || Nat.eqb (ord c) 125)%bool
  end.

Definition member (kv : string * json) : string :=
  dump_str (fst kv) ++ ": " ++ dumps (snd kv).

(** The decoding property of one value: the [json.loads] scanner reads
    back its serialization, followed by anything that may follow a value
    inside a container. *)
Definition decodes (v : json) : Prop :=
  json_wf v = true -> forall f t, String.length (dumps v) < f -> value_end t = true ->
  pvalue f (dumps v ++ t) = Some (v, t).

End JsonSpecs.

(* ------------------------------------------------------------------ *)
(** ** A concrete deployment: a scripted model and a fixed repository *)
Module Demo.
Import Json Gemini.

(** A [generateContent] reply carrying the model text [t]. *)
Definition reply (t : string) : string :=
  dumps (JObj [("candidates", JArr [JObj [("content",
    JObj [("parts", JArr [JObj [("text", JStr t)]])])]])]).

Definition tool_call_text (tool : string) : string :=
  dumps (JObj [("type", JStr "tool_call"); ("tool", JStr tool); ("arguments", JObj [])]).

Definition final_text (m : string) : string :=
  dumps (JObj [("type", JStr "final"); ("message", JStr m)]).

(** The world counts the model calls; the model asks for [tool] on its
    first [n_tools] calls and then answers. *)
Definition model (n_tools : nat) (tool : string) (_ : string) (w : nat) : http_outcome * nat :=
  (HttpOk 200 (reply (if Nat.ltb w n_tools then tool_call_text tool else final_text "done")), S w).

(** A model that always answers with the text [t]. *)
Definition fixed_model (t : string) (_ : string) (w : nat) : http_outcome * nat :=
  (HttpOk 200 (reply t), S w).

Definition demo_sleep (_ : Q) (w : nat) : nat := w.
Definition demo_clock (w : nat) : Z := Z.of_nat w.

Definition demo_repo (kvs : list (string * json)) (_ : RepoAccess) (w : nat) : (json + err) * nat :=
  (inl (JObj kvs), w).
Definition demo_branch (_ : RepoAccess) (w : nat) : (json + err) * nat := (inl (JStr "main"), w).
Definition demo_create_branch (_ : RepoAccess) (b : json) (_ : option json) (w : nat)
  : (json + err) * nat := (inl b, w).
Definition demo_list_files (_ : RepoAccess) (_ : option json) (w : nat) : (list json + err) * nat :=
  (inl [JStr "README.md"], w).
Definition demo_read_file (_ : RepoAccess) (_ : json) (_ : option json) (w : nat)
  : (json + err) * nat := (inl (JStr ""), w).
Definition demo_write_file (_ : RepoAccess) (_ : WriteFileInput) (w : nat) : (json + err) * nat :=
  (inl (JStr "abc123"), w).
Definition demo_pull_request (_ : RepoAccess) (_ : PullRequestInput) (w : nat) : (json + err) * nat :=
  (inl (JStr "https://github.com/acme/widgets/pull/1"), w).

Definition demo_access : RepoAccess := {| owner := "acme"; repo := "widgets"; branch := "main" |}.
Definition demo_user : string := "Add a README badge to https://github.com/acme/widgets".

Definition demo_iteration (n_tools : nat) : nat -> list json -> P nat iter_result :=
  iteration nat (model n_tools "get_default_branch") demo_sleep demo_clock demo_branch
    demo_create_branch demo_list_files demo_read_file demo_write_file demo_pull_request
    demo_user demo_access.

(** The tool steps of a run, for as long as the iterations call tools. *)
Fixpoint run_steps {T} (step : nat -> list json -> T -> (iter_result + err) * T)
  (n i : nat) (hist : list json) (s : T) : list (json * T) :=
  match n with
  | O => []
  | S n' =>
      match step i hist s with
      | (inl (ITool e), s') => (e, s') :: run_steps step n' (S i) (hist ++ [e]) s'
      | _ => []
      end
  end.

Definition demo_s0 : St nat := (0%nat, []).

Definition demo_steps (n_tools : nat) : list (json * St nat) :=
  run_steps (demo_iteration n_tools) n_tools 0 [] demo_s0.

(** The state after the answering iteration of a run with two tool steps. *)
Definition demo_final_state : St nat :=
  snd (demo_iteration 2 2 (map fst (demo_steps 2)) (Specs.state_at demo_s0 (demo_steps 2) 2)).

(** The state after the first model call of a run whose model asks for
    the tool ["delete_repo"]. *)
Definition bad_tool_state : St nat :=
  snd (generate_text nat (model 12 "delete_repo") demo_sleep
         (build_tool_prompt demo_user demo_access [] (demo_clock 0)) (0%nat, [OStep 1])).


(** An object whose string value holds braces and quotes. *)
Definition demo_obj : list (string * json) :=
  [("title", JStr ("a {b} " ++ QT ++ "c" ++ QT)); ("n", JInt (-42));
   ("xs", JArr [JNull; JBool true; JObj [("k", JInt 0)]])].

(** A compact object text, as a model may write it rather than
    [json.dumps]: [{"a":"}","x":1.5}], and the members it decodes to
    (1.5 is 3 * 2^51 * 2^-52). *)
Definition compact_obj_body : string :=
  QT ++ "a" ++ QT ++ ":" ++ QT ++ "}" ++ QT ++ "," ++ QT ++ "x" ++ QT ++ ":1.5".

Definition compact_obj_text : string := String "{" (compact_obj_body ++ "}").

Definition compact_obj : list (string * json) :=
  [("a", JStr "}"); ("x", JFloat (S754_finite false 6755399441055744 (-52)))].

End Demo.

(* ------------------------------------------------------------------ *)

(** ** [src/agent/plan_schema.py] and [format_plan_for_slack] of [src/app.py] *)
Module Plan.
Import PyStr Json JsonUtils Gemini.

Record PlanStep := { ps_title : string; ps_details : string }.

Record PlanSchema := {
  objective : string;
  assumptions : list string;
  files_to_touch : list string;
  implementation_steps : list PlanStep;
  risks : list string;
  test_plan : list string;
  rollback_plan : list string }.

(** [list[str]]: a list whose items are all strings. *)
Fixpoint str_list (xs : list json) : option (list string) :=
  match xs with
  | [] => Some []
  | JStr s :: rest => option_map (cons s) (str_list rest)
  | _ => None
  end.

(** A [list[str]] field with [default_factory=list]. *)
Definition validate_str_list (v : option json) : option (list string) :=
  match v with
  | None => Some []
  | Some (JArr xs) => str_list xs
  | Some _ => None
  end.

(** [PlanStep.model_validate]: [extra="forbid"], [min_length=1] on both
    fields. *)
Definition validate_step (v : json) : option PlanStep :=
  match v with
  | JObj kvs =>
      if only_keys ["title"; "details"] kvs then
        match nonempty_str (Logger.dict_get kvs "title"),
              nonempty_str (Logger.dict_get kvs "details") with
        | Some t, Some d => Some {| ps_title := t; ps_details := d |}
        | _, _ => None
        end
      else None
  | _ => None
  end.

Fixpoint step_list (xs : list json) : option (list PlanStep) :=
  match xs with
  | [] => Some []
  | x :: rest =>
      match validate_step x, step_list rest with
      | Some s, Some ss => Some (s :: ss)
      | _, _ => None
      end
  end.

Definition PLAN_KEYS : list string :=
  ["objective"; "assumptions"; "files_to_touch"; "implementation_steps";
   "risks"; "test_plan"; "rollback_plan"].

(** [PlanSchema.model_validate] on a decoded mapping: [None] is a
    [ValidationError]. *)
Definition validate_plan (payload : list (string * json)) : option PlanSchema :=
  if only_keys PLAN_KEYS payload then
    let steps := match Logger.dict_get payload "implementation_steps" with
                 | Some (JArr xs) =>
                     match step_list xs with
                     | Some (s :: ss) => Some (s :: ss)
                     | _ => None
                     end
                 | _ => None
                 end in
    match nonempty_str (Logger.dict_get payload "objective"),
          validate_str_list (Logger.dict_get payload "assumptions"),
          validate_str_list (Logger.dict_get payload "files_to_touch"),
          steps,
          validate_str_list (Logger.dict_get payload "risks"),
          validate_str_list (Logger.dict_get payload "test_plan"),
          validate_str_list (Logger.dict_get payload "rollback_plan") with
    | Some o, Some a, Some f, Some st, Some r, Some tp, Some rb =>
        Some {| objective := o; assumptions := a; files_to_touch := f;
                implementation_steps := st; risks := r; test_plan := tp;
                rollback_plan := rb |}
    | _, _, _, _, _, _, _ => None
    end
  else None.

(** [parse_plan_response]: [None] is the [ValueError] of the extractor or
    the [ValidationError] of the schema. *)
Definition parse_plan_response (text : string) : option PlanSchema :=
  match extract_first_json_object text with
  | inr _ => None
  | inl (payload, _trailing) => validate_plan payload
  end.

(** [str(n)] of a non-negative [int]: its decimal digits. *)
Definition str_nat (n : nat) : string := dump_nat (N.of_nat n).

Definition bullet (item : string) : string := "- " ++ item.

(** The [for index, step in enumerate(..., start=1)] lines. *)
Fixpoint step_lines (index : nat) (steps : list PlanStep) : list string :=
  match steps with
  | [] => []
  | st :: rest =>
      (str_nat index ++ ". " ++ ps_title st ++ ": " ++ ps_details st)
        :: step_lines (S index) rest
  end.

(** The [lines] list of [format_plan_for_slack]. *)
Definition plan_lines (plan : PlanSchema) : list string :=
  (["*Plan Mode Output*"; ("*Objective*: " ++ objective plan)%string; ""] ++
   match assumptions plan with
   | [] => []
   | xs => ["*Assumptions*"] ++ map bullet xs ++ [""]
   end ++
   match files_to_touch plan with
   | [] => []
   | xs => ["*Files To Touch*"] ++ map (fun item => ("- `" ++ item ++ "`")%string) xs ++ [""]
   end ++
   ["*Implementation Steps*"] ++ step_lines 1 (implementation_steps plan) ++
   match risks plan with
   | [] => []
   | xs => [""; "*Risks*"] ++ map bullet xs
   end ++
   match test_plan plan with
   | [] => []
   | xs => [""; "*Test Plan*"] ++ map bullet xs
   end ++
   match rollback_plan plan with
   | [] => []
   | xs => [""; "*Rollback Plan*"] ++ map bullet xs
   end)%list.

Definition format_plan_for_slack (plan : PlanSchema) : string :=
  String.concat NL (plan_lines plan).

(** [PlanSchema.model_dump()]: the mapping a valid plan serializes from. *)
Definition step_dump (st : PlanStep) : json :=
  JObj [("title", JStr (ps_title st)); ("details", JStr (ps_details st))].

Definition plan_dump (plan : PlanSchema) : list (string * json) :=
  [("objective", JStr (objective plan));
   ("assumptions", JArr (map JStr (assumptions plan)));
   ("files_to_touch", JArr (map JStr (files_to_touch plan)));
   ("implementation_steps", JArr (map step_dump (implementation_steps plan)));
   ("risks", JArr (map JStr (risks plan)));
   ("test_plan", JArr (map JStr (test_plan plan)));
   ("rollback_plan", JArr (map JStr (rollback_plan plan)))].

(** The constraints of the schema on a plan value. *)
Definition plan_valid (plan : PlanSchema) : bool :=
  (Nat.ltb 0 (String.length (objective plan)) &&
   match implementation_steps plan with [] => false | _ => true end &&
   forallb (fun st => Nat.ltb 0 (String.length (ps_title st)) &&
                      Nat.ltb 0 (String.length (ps_details st)))
           (implementation_steps plan))%bool.

End Plan.

(** ** The Slack event filters of [src/app.py] *)
Module App.
Import Logger.

(** Python truthiness of an event value. *)
Definition py_truthy (v : pyval) : bool :=
  match v with
  | PNone => false
  | PBool b => b
  | PInt z => negb (z =? 0)%Z
  | PStr s => negb (String.eqb s EmptyString)
  | PList xs | PTuple xs => match xs with [] => false | _ => true end
  | PDict kvs => match kvs with [] => false | _ => true end
  end.

(** [event.get(k)]. *)
Definition event_get (event : list (string * pyval)) (k : string) : pyval :=
  match dict_get event k with Some v => v | None => PNone end.

Definition should_ignore_event (event : list (string * pyval)) : bool :=
  (py_truthy (event_get event "bot_id") || py_truthy (event_get event "subtype"))%bool.

(** The handlers: [true] when they go on to call [handle_event]. *)
Definition on_app_mention (event : list (string * pyval)) : bool :=
  negb (should_ignore_event event).

Definition on_message (event : list (string * pyval)) : bool :=
  if should_ignore_event event then false
  else match event_get event "channel_type" with
       | PStr s => String.eqb s "im"
       | _ => false
       end.

End App.

(** ** [TraceStore.persist] of [src/logger.py] *)
Module Store.
Import Logger.

(** The trace after the call, and the document printed between
    [TRACE_START] and [TRACE_END] (as [json.dumps] of it). *)
Definition persist (trace : RequestTrace) (now_iso : string) (now_mono : Q)
  : RequestTrace * pyval :=
  let root := rt_root trace in
  let root' := match sp_finished_at root with
               | None => finish root (sp_status root) [] now_iso now_mono
               | Some _ => root
               end in
  let trace' := {| rt_request_id := rt_request_id trace; rt_metadata := rt_metadata trace;
                   rt_started_at := rt_started_at trace; rt_root := root' |} in
  (trace', request_as_dict trace').

End Store.



(** ** [GithubTools] of [src/agent/tools.py] *)
Module GitHub.
Import PyStr Logger Json StateErr.

(** The exceptions the tools raise or let through. *)
Inductive gerr :=
| RuntimeErr (msg : string)   (* [RuntimeError(msg)] *)
| GKeyErr (k : string)
| GTypeErr
| GAttrErr
| JSONDecodeErr               (* [json.loads] on a body that is not JSON *)
| ValueErr.                   (* [binascii.Error], [UnicodeDecodeError] and the
                                 non-ASCII check of [b64decode] *)

(** What [urlopen] yields: a response (status and body bytes), an
    [HTTPError] (code and its body, decoded with [errors="replace"]) or a
    [URLError] (its reason). *)
Inductive http_resp :=
| HOk (status : Z) (raw : string)
| HTTPErr (code : Z) (detail : string)
| URLErr (reason : string).

(** An event recorded on the active trace span (its timestamp left out). *)
Record gevent := { ge_name : string; ge_status : string; ge_data : list (string * pyval) }.

(** *** Byte strings: a Python [str] is represented by its UTF-8 bytes, so
    [.encode("utf-8")] is the identity and [.decode("utf-8")] checks them. *)

(** The strict UTF-8 decoder: shortest forms only, no surrogates, nothing
    above U+10FFFF. *)
Definition cont (c : ascii) : bool := (Nat.leb 128 (ord c) && Nat.leb (ord c) 191)%bool.

Definition in_range (lo hi : nat) (c : ascii) : bool := (Nat.leb lo (ord c) && Nat.leb (ord c) hi)%bool.

Fixpoint utf8_valid (s : string) : bool :=
  match s with
  | EmptyString => true
  | String a s1 =>
      let n := ord a in
      if Nat.ltb n 128 then utf8_valid s1
      else if (Nat.leb 194 n && Nat.leb n 223)%bool then
        match s1 with
        | String b s2 => (cont b && utf8_valid s2)%bool
        | EmptyString => false
        end
      else if (Nat.leb 224 n && Nat.leb n 239)%bool then
        match s1 with
        | String b (String c s3) =>
            ((if Nat.eqb n 224 then in_range 160 191 b
              else if Nat.eqb n 237 then in_range 128 159 b
              else cont b) && cont c && utf8_valid s3)%bool
        | _ => false
        end
      else if (Nat.leb 240 n && Nat.leb n 244)%bool then
        match s1 with
        | String b (String c (String d s4)) =>
            ((if Nat.eqb n 240 then in_range 144 191 b
              else if Nat.eqb n 244 then in_range 128 143 b
              else cont b) && cont c && cont d && utf8_valid s4)%bool
        | _ => false
        end
      else false
  end.

(** [urllib.parse.quote(s, safe)]: letters, digits, [_.-~] and the [safe]
    characters stay, every other byte becomes [%XX]. *)
Definition always_safe (c : ascii) : bool :=
  let n := ord c in
  (Nat.leb 65 n && Nat.leb n 90 || Nat.leb 97 n && Nat.leb n 122 ||
   Nat.leb 48 n && Nat.leb n 57 || Nat.eqb n 95 || Nat.eqb n 46 || Nat.eqb n 45 ||
   Nat.eqb n 126)%bool.

Definition hex_upper (n : nat) : ascii :=
  if Nat.ltb n 10 then chr (48 + n) else chr (55 + n).

Definition quote_char (safe : list ascii) (c : ascii) : string :=
  if (always_safe c || existsb (Ascii.eqb c) safe)%bool then str1 c
  else String "%" (String (hex_upper (ord c / 16)) (str1 (hex_upper (ord c mod 16)))).

Fixpoint quote (safe : list ascii) (s : string) : string :=
  match s with
  | EmptyString => EmptyString
  | String c s' => quote_char safe c ++ quote safe s'
  end.

(** [s.replace("\n", "")]. *)
Fixpoint remove_newlines (s : string) : string :=
  match s with
  | EmptyString => EmptyString
  | String c s' =>
      if Nat.eqb (ord c) 10 then remove_newlines s' else String c (remove_newlines s')
  end.

(** *** [base64.b64encode] and [base64.b64decode] *)
Definition b64_char (v : nat) : ascii :=
  if Nat.ltb v 26 then chr (65 + v)
  else if Nat.ltb v 52 then chr (71 + v)
  else if Nat.ltb v 62 then chr (v - 4)
  else if Nat.eqb v 62 then "+"%char else "/"%char.

Definition b64_index (c : ascii) : option nat :=
  let n := ord c in
  if (Nat.leb 65 n && Nat.leb n 90)%bool then Some (n - 65)
  else if (Nat.leb 97 n && Nat.leb n 122)%bool then Some (n - 71)
  else if (Nat.leb 48 n && Nat.leb n 57)%bool then Some (n + 4)
  else if Nat.eqb n 43 then Some 62
  else if Nat.eqb n 47 then Some 63
  else None.

Fixpoint b64encode (s : string) : string :=
  match s with
  | String a (String b (String c rest)) =>
      let x := ord a in let y := ord b in let z := ord c in
      String (b64_char (x / 4)) (String (b64_char ((x mod 4) * 16 + y / 16))
        (String (b64_char ((y mod 16) * 4 + z / 64)) (String (b64_char (z mod 64))
          (b64encode rest))))
  | String a (String b EmptyString) =>
      let x := ord a in let y := ord b in
      String (b64_char (x / 4)) (String (b64_char ((x mod 4) * 16 + y / 16))
        (String (b64_char ((y mod 16) * 4)) "="))
  | String a EmptyString =>
      let x := ord a in
      String (b64_char (x / 4)) (String (b64_char ((x mod 4) * 16)) "==")
  | EmptyString => EmptyString
  end.

(** The loop of [binascii.a2b_base64] with [strict_mode=False]: characters
    outside the alphabet are skipped, a pad sequence after two or three
    data characters of a quad ends the input, and [None] is the
    [binascii.Error] of a quad left incomplete. *)
Fixpoint a2b (s : string) (quad left pads : nat) : option string :=
  match s with
  | EmptyString => if Nat.eqb quad 0 then Some EmptyString else None
  | String c s' =>
      if Nat.eqb (ord c) 61 then
        if Nat.leb 2 quad then
          if Nat.leb 4 (quad + S pads) then Some EmptyString else a2b s' quad left (S pads)
        else a2b s' quad left pads
      else
        match b64_index c with
        | None => a2b s' quad left pads
        | Some v =>
            match quad with
            | 0 => a2b s' 1 v 0
            | 1 => option_map (String (chr (left * 4 + v / 16))) (a2b s' 2 (v mod 16) 0)
            | 2 => option_map (String (chr (left * 16 + v / 4))) (a2b s' 3 (v mod 4) 0)
            | _ => option_map (String (chr (left * 64 + v))) (a2b s' 0 0 0)
            end
        end
  end.

Definition b64decode (s : string) : string + gerr :=
  if JsonSpecs.all_chars (fun c => Nat.ltb (ord c) 128) s then
    match a2b s 0 0 0 with Some r => inl r | None => inr ValueErr end
  else inr ValueErr.

(** The end of [read_file]: the ["content"] field, without its line
    breaks, base64-decoded and read as UTF-8. *)
Definition read_content (data : json) : string + gerr :=
  match data with
  | JObj kvs =>
      match dict_get kvs "content" with
      | None => inl EmptyString
      | Some (JStr s) =>
          match remove_newlines s with
          | EmptyString => inl EmptyString
          | content =>
              match b64decode content with
              | inl bytes => if utf8_valid bytes then inl bytes else inr ValueErr
              | inr e => inr e
              end
          end
      | Some _ => inr GAttrErr
      end
  | _ => inr GAttrErr
  end.

(** *** Values of decoded responses *)
Definition gget (d : json) (k : string) : option json + gerr :=
  match d with
  | JObj kvs => inl (dict_get kvs k)
  | _ => inr GAttrErr
  end.

Definition ggetitem (d : json) (k : string) : json + gerr :=
  match d with
  | JObj kvs => match dict_get kvs k with Some v => inl v | None => inr (GKeyErr k) end
  | _ => inr GTypeErr
  end.

Definition gtruthy (v : json) : bool := Gemini.truthy v.

(** [for entry in v]. *)
Definition giter (v : json) : list json + gerr :=
  match Gemini.py_iter v with Some xs => inl xs | None => inr GTypeErr end.

Definition MISSING_TOKEN_MSG : string := "Missing GITHUB_TOKEN for GitHub tools".

Definition NO_PUSH_MSG : string :=
  "GITHUB_TOKEN has no push access to this repo. " ++
  "Use a token with repo write permissions (Contents + Pull requests).".

Definition is_write_method (m : string) : bool :=
  existsb (String.eqb m) ["POST"; "PUT"; "PATCH"; "DELETE"].

(** The message of the [RuntimeError] raised for an [HTTPError]. *)
Definition http_error_msg (method path : string) (code : Z) (detail : string) : string :=
  if ((code =? 404)%Z && startswith path "/repos/")%bool then
    "GitHub API error (404) on " ++ method ++ " " ++ path ++ ": " ++ detail ++ ". " ++
    "For private repos, verify GITHUB_TOKEN can access this repo " ++
    "(repo selected for fine-grained token, Contents/Pull requests permissions, " ++
    "and SSO authorization if required)."
  else if ((code =? 403)%Z && startswith path "/repos/" && is_write_method method)%bool then
    "GitHub API error (403) on " ++ method ++ " " ++ path ++ ": " ++ detail ++ ". " ++
    "This token can likely read the repo but cannot write. " ++
    "For this workflow, grant write permissions to Contents and Pull requests " ++
    "(and SSO authorize the token if your org requires it)."
  else
    "GitHub API error (" ++ dump_int code ++ ") on " ++ method ++ " " ++ path ++ ": " ++ detail.

Definition repo_path (a : Gemini.RepoAccess) : string :=
  "/repos/" ++ Gemini.owner a ++ "/" ++ Gemini.repo a.

Definition tree_path (a : Gemini.RepoAccess) (ref : string) : string :=
  repo_path a ++ "/git/trees/" ++ quote [] ref ++ "?recursive=1".

Definition contents_path (a : Gemini.RepoAccess) (path ref : string) : string :=
  repo_path a ++ "/contents/" ++ quote ["/"%char] path ++ "?ref=" ++ quote [] ref.

Section Tools.
Variable W : Type.
(** [urlopen] of a request with its method, URL, body and bearer token. *)
Variable urlopen : string -> string -> option string -> string -> W -> http_resp * W.
(** [token or os.getenv("GITHUB_TOKEN")] and the [api_base] argument. *)
Variable token : option string.
Variable api_base : string.

Definition St : Type := (W * list gevent)%type.
Definition G (A : Type) : Type := M gerr St A.

Definition trace_event (name status : string) (data : list (string * pyval)) : G unit :=
  fun s => (inl tt, (fst s, snd s ++ [{| ge_name := name; ge_status := status; ge_data := data |}])%list).

Definition call (method url : string) (data : option string) (tok : string) : G http_resp :=
  fun s => let '(r, w') := urlopen method url data tok (fst s) in (inl r, (w', snd s)).

Definition liftg {A} (r : A + gerr) : G A :=
  fun s => match r with inl a => (inl a, s) | inr e => (inr e, s) end.

(** [try: m except RuntimeError as exc: h(str(exc))]. *)
Definition catch_runtime {A} (m : G A) (h : string -> G A) : G A :=
  fun s => match m s with
           | (inr (RuntimeErr msg), s') => h msg s'
           | r => r
           end.

Definition as_str (v : json) : G string :=
  match v with JStr s => ret s | _ => raise GTypeErr end.

Definition api_root : string := Gemini.rstrip_chars ["/"%char] api_base.

(** [_request]. *)
Definition request (method path : string) (payload : option json) : G json :=
  let missing :=
    trace_event "github.auth.error" "error" [("reason", PStr "missing_token")] ;;;
    raise (RuntimeErr MISSING_TOKEN_MSG) in
  match token with
  | None => missing
  | Some EmptyString => missing
  | Some tok =>
      let data := option_map dumps payload in
      trace_event "github.http.start" "ok" [("method", PStr method); ("path", PStr path)] ;;;
      resp <- call method (api_root ++ path) data tok ;;
      match resp with
      | HOk status raw =>
          if utf8_valid raw then
            trace_event "github.http.success" "ok"
              [("method", PStr method); ("path", PStr path); ("status_code", PInt status)] ;;;
            match raw with
            | EmptyString => ret (JObj [])
            | _ => match loads raw with Some v => ret v | None => raise JSONDecodeErr end
            end
          else raise ValueErr
      | HTTPErr code detail =>
          trace_event "github.http.error" "error"
            [("method", PStr method); ("path", PStr path); ("status_code", PInt code);
             ("detail", PStr detail)] ;;;
          raise (RuntimeErr (http_error_msg method path code detail))
      | URLErr reason =>
          trace_event "github.http.error" "error"
            [("method", PStr method); ("path", PStr path); ("reason", PStr reason)] ;;;
          raise (RuntimeErr ("GitHub network error on " ++ method ++ " " ++ path ++ ": " ++ reason))
      end
  end.

Definition ensure_repo_write_access (a : Gemini.RepoAccess) : G unit :=
  r <- request "GET" (repo_path a) None ;;
  permissions <- liftg (gget r "permissions") ;;
  match permissions with
  | Some (JObj pk) =>
      if gtruthy (match dict_get pk "push" with Some v => v | None => JBool false end)
      then ret tt else raise (RuntimeErr NO_PUSH_MSG)
  | _ => ret tt
  end.

Definition get_default_branch (a : Gemini.RepoAccess) : G json :=
  r <- request "GET" (repo_path a) None ;;
  v <- liftg (gget r "default_branch") ;;
  match v with
  | Some b => if gtruthy b then ret b else ret (JStr (Gemini.branch a))
  | None => ret (JStr (Gemini.branch a))
  end.

(** [from_branch or ...] and [branch or access.branch] on [str | None]. *)
Definition or_str (v : option string) (d : string) : string :=
  match v with Some (String c s) => String c s | _ => d end.

(** The first part of [create_branch]: the source branch ([from_branch]
    when it is truthy, else the default branch), the ref of that branch,
    and the [sha] of the ref's [object]. *)
Definition source_sha (a : Gemini.RepoAccess) (from_branch : option string) : G json :=
  source <- match from_branch with
            | Some (String c s) => ret (JStr (String c s))
            | _ => get_default_branch a
            end ;;
  src <- as_str source ;;
  source_ref <- request "GET" (repo_path a ++ "/git/ref/heads/" ++ quote [] src) None ;;
  obj <- liftg (ggetitem source_ref "object") ;;
  liftg (ggetitem obj "sha").

Definition create_branch (a : Gemini.RepoAccess) (new_branch : string)
  (from_branch : option string) : G string :=
  sha <- source_sha a from_branch ;;
  catch_runtime
    (request "POST" (repo_path a ++ "/git/refs")
       (Some (JObj [("ref", JStr ("refs/heads/" ++ new_branch)); ("sha", sha)])) ;;;
     ret tt)
    (fun msg =>
       if (contains msg "GitHub API error (422)" && contains msg "Reference already exists")%bool
       then ret tt else raise (RuntimeErr msg)) ;;;
  ret new_branch.

(** [_get_tree_with_fallback]. *)
Definition get_tree_with_fallback (a : Gemini.RepoAccess) (ref : string) : G json :=
  catch_runtime (request "GET" (tree_path a ref) None)
    (fun msg =>
       if contains msg "GitHub API error (404)" then
         fallback <- get_default_branch a ;;
         if (match fallback with JStr f => String.eqb f ref | _ => false end)
         then raise (RuntimeErr msg)
         else fb <- as_str fallback ;;
              request "GET" (tree_path a fb) None
       else raise (RuntimeErr msg)).

Fixpoint blob_paths (entries : list json) : list json + gerr :=
  match entries with
  | [] => inl []
  | entry :: rest =>
      match gget entry "type" with
      | inr e => inr e
      | inl t =>
          let keep :=
            match t with
            | Some (JStr "blob") =>
                match gget entry "path" with
                | inl (Some p) => if gtruthy p then inl (Some p) else inl None
                | inl None => inl None
                | inr e => inr e
                end
            | _ => inl None
            end in
          match keep, blob_paths rest with
          | inr e, _ => inr e
          | inl _, inr e => inr e
          | inl (Some p), inl ps => inl (p :: ps)
          | inl None, inl ps => inl ps
          end
      end
  end.

Definition list_files (a : Gemini.RepoAccess) (branch : option string) : G (list json) :=
  let ref := or_str branch (Gemini.branch a) in
  tree <- get_tree_with_fallback a ref ;;
  entries <- liftg (gget tree "tree") ;;
  xs <- liftg (match entries with Some v => giter v | None => inl [] end) ;;
  liftg (blob_paths xs).

Definition read_file (a : Gemini.RepoAccess) (path : string) (branch : option string) : G string :=
  let ref := or_str branch (Gemini.branch a) in
  data <- catch_runtime (request "GET" (contents_path a path ref) None)
            (fun msg =>
               if contains msg "GitHub API error (404)" then
                 fallback <- get_default_branch a ;;
                 fb <- as_str fallback ;;
                 request "GET" (contents_path a path fb) None
               else raise (RuntimeErr msg)) ;;
  liftg (read_content data).

Definition write_file (a : Gemini.RepoAccess) (payload : Gemini.WriteFileInput) : G json :=
  let br := or_str (Gemini.wf_branch payload) (Gemini.branch a) in
  let body := [("message", JStr (Gemini.wf_commit_message payload));
               ("content", JStr (b64encode (Gemini.wf_content payload)));
               ("branch", JStr br)] in
  body <- catch_runtime
            (existing <- request "GET" (contents_path a (Gemini.wf_path payload) br) None ;;
             sha <- liftg (gget existing "sha") ;;
             match sha with
             | Some v => if gtruthy v then ret (body ++ [("sha", v)])%list else ret body
             | None => ret body
             end)
            (fun msg =>
               if contains msg "GitHub API error (404)" then ret body
               else raise (RuntimeErr msg)) ;;
  response <- request "PUT" (repo_path a ++ "/contents/" ++ quote ["/"%char] (Gemini.wf_path payload))
                (Some (JObj body)) ;;
  commit <- liftg (gget response "commit") ;;
  let commit := match commit with Some c => c | None => JObj [] end in
  sha <- liftg (gget commit "sha") ;;
  ret (match sha with Some v => v | None => JStr "" end).

Definition create_pull_request (a : Gemini.RepoAccess) (payload : Gemini.PullRequestInput) : G json :=
  response <- request "POST" (repo_path a ++ "/pulls")
                (Some (JObj [("title", JStr (Gemini.pr_title payload));
                             ("body", JStr (Gemini.pr_body payload));
                             ("head", JStr (Gemini.pr_head_branch payload));
                             ("base", JStr (Gemini.pr_base_branch payload))])) ;;
  url <- liftg (gget response "html_url") ;;
  ret (match url with Some v => v | None => JStr "" end).

End Tools.

(** The paths of the requests a run issued, read off its
    [github.http.start] events. *)
Definition request_paths (evs : list gevent) : list string :=
  flat_map (fun e => if String.eqb (ge_name e) "github.http.start"
                     then match dict_get (ge_data e) "path" with Some (PStr p) => [p] | _ => [] end
                     else []) evs.

End GitHub.


(** A GitHub API stub: reading a ref answers with a commit sha, creating
    one answers that the reference already exists. *)
Module GitHubDemo.
Import Json GitHub.

Definition ref_obj : list (string * json) := [("object", JObj [("sha", JStr "abc")])].

Definition ref_body : string := dumps (JObj ref_obj).

Definition existing_ref_api (m _url : string) (_data : option string) (_tok : string) (w : nat)
  : http_resp * nat :=
  if String.eqb m "GET" then (HOk 200 ref_body, S w)
  else (HTTPErr 422 "Reference already exists", S w).

Definition down_api (_m _url : string) (_data : option string) (_tok : string) (w : nat)
  : http_resp * nat := (URLErr "down", S w).

End GitHubDemo.

(** A plan with one implementation step and one risk. *)
Module PlanDemo.
Import Plan.

Definition demo_plan : PlanSchema :=
  {| objective := "Add a badge"; assumptions := []; files_to_touch := ["README.md"];
     implementation_steps := [{| ps_title := "Edit"; ps_details := "Insert the badge" |}];
     risks := ["None"]; test_plan := []; rollback_plan := [] |}.

End PlanDemo.

(** * Properties *)

Module LoggerFacts.
Import Logger.

(** Claim C7: [finish] is idempotent.  On an unfinished span the first
    call sets the status, the finish time and the duration; a later call,
    whatever its status or extra data, returns the span unchanged. *)
Theorem finish_first_call_wins :
  (forall s st1 x1 t1 m1 st2 x2 t2 m2,
      finish (finish s st1 x1 t1 m1) st2 x2 t2 m2 = finish s st1 x1 t1 m1) /\
  (forall name st0 started mono dur0 data evs ch st1 x1 t1 m1 st2 x2 t2 m2,
      let s1 := finish (MkSpan name st0 started mono None dur0 data evs ch) st1 x1 t1 m1 in
      sp_status s1 = st1 /\
      sp_finished_at s1 = Some t1 /\
      sp_duration_ms s1 = Some (py_int ((m1 - mono) * 1000)) /\
      finish s1 st2 x2 t2 m2 = s1).
Proof.
  split.
  - intros [name st started mono fin dur data evs ch] st1 x1 t1 m1 st2 x2 t2 m2.
    destruct fin; reflexivity.
  - intros. repeat split; reflexivity.
Qed.

End LoggerFacts.

Module RedactFacts.
Import PyStr Logger.

Lemma dict_get_map (f : pyval -> pyval) kvs k :
  dict_get (map (fun kv => (fst kv, f (snd kv))) kvs) k = option_map f (dict_get kvs k).
Proof.
  induction kvs as [|[k' v] rest IH]; simpl; [reflexivity|].
  destruct (String.eqb k k'); [reflexivity|exact IH].
Qed.

Lemma path_get_safe_value p v w :
  path_get p v = Some w -> path_get p (safe_value v) = Some (safe_value w).
Proof.
  revert v; induction p as [|[k|i] p IH]; intros v H; simpl in H |- *.
  - injection H as <-; reflexivity.
  - destruct v; try discriminate; simpl.
    rewrite dict_get_map; destruct (dict_get kvs k) eqn:E; [|discriminate].
    simpl; exact (IH _ H).
  - destruct v; try discriminate; simpl.
    rewrite nth_error_map; destruct (nth_error xs i) eqn:E; [|discriminate].
    simpl; exact (IH _ H).
Qed.

(** C1: in every data mapping of the trace document, a string at any
    position reached through mappings and lists is redacted exactly when
    its own lower-cased text contains a sensitive word; its key plays no
    part, and a short non-sensitive string is kept as it is. *)
Theorem redaction_by_value p d s
  (Hs : path_get p (PDict d) = Some (PStr s)) :
  (forall e, ev_data e = d ->
     path_get (SKey "data" :: p) (event_as_dict e) = Some (safe_value (PStr s))) /\
  (forall sp, sp_data sp = d ->
     path_get (SKey "data" :: p) (span_as_dict sp) = Some (safe_value (PStr s))) /\
  (forall t, rt_metadata t = d ->
     path_get (SKey "metadata" :: p) (request_as_dict t) = Some (safe_value (PStr s))) /\
  (sensitive s = true -> safe_value (PStr s) = PStr REDACTED) /\
  (sensitive s = false -> String.length s <= 2000 -> safe_value (PStr s) = PStr s).
Proof.
  pose proof (path_get_safe_value p (PDict d) (PStr s) Hs) as Hp.
  split; [|split; [|split; [|split]]].
  - intros e <-; exact Hp.
  - intros [name st started mono fin dur data evs ch] Hd; simpl in Hd; subst data.
    exact Hp.
  - intros t <-; exact Hp.
  - intros Hsens; simpl; rewrite Hsens; reflexivity.
  - intros Hsens Hlen; simpl; rewrite Hsens.
    replace (Nat.ltb 2000 (String.length s)) with false
      by (symmetry; apply Nat.ltb_ge; exact Hlen).
    reflexivity.
Qed.

End RedactFacts.

Module RetryFacts.
Import Json Gemini Specs.

(** Claim C8: a call to the generation interface, for every sequence
    [net] of attempt outcomes, behaves as the retry rule says: only
    timeouts and connection errors are retried, at most [MAX_RETRIES = 2]
    times, the last one is then raised; an HTTP error status is raised at
    the attempt that received it, without a retry. *)
Theorem generate_text_retry_policy (net : nat -> http_outcome) (prompt : string)
    (l : list obs) :
  match retry_policy net MAX_RETRIES 0 with
  | Delivered raw k =>
      exists l', generate_text nat (net_open net) no_sleep prompt (0%nat, l)
                 = parse_body nat raw (k, l')
  | Surfaced e k =>
      exists l', generate_text nat (net_open net) no_sleep prompt (0%nat, l)
                 = (inr e, (k, l'))
  end.
Proof.
  cbv beta iota zeta delta [generate_text attempt_loop StateErr.bind StateErr.ret
    StateErr.raise emit open_url world net_open no_sleep backoff MAX_RETRIES retry_policy].
  simpl.
  destruct (net 0%nat); simpl; try (eexists; reflexivity);
  destruct (net 1%nat); simpl; try (eexists; reflexivity);
  destruct (net 2%nat); simpl; try (eexists; reflexivity).
Qed.

End RetryFacts.

(** ** Facts about the string functions *)
Module StrFacts.
Import PyStr.

Lemma sapp_assoc (a b c : string) : ((a ++ b) ++ c = a ++ (b ++ c))%string.
Proof. induction a; simpl; congruence. Qed.

Lemma sapp_nil_r (a : string) : (a ++ "")%string = a.
Proof. induction a; simpl; congruence. Qed.

Lemma slength_app (a b : string) : String.length (a ++ b) = String.length a + String.length b.
Proof. induction a; simpl; auto. Qed.

Lemma sapp_cancel_l (a b c : string) : (a ++ b = a ++ c)%string -> b = c.
Proof. induction a; simpl; intros H; [exact H | inversion H; auto]. Qed.

Lemma sapp_eq_nil (a b : string) : (a ++ b)%string = "" -> a = "" /\ b = "".
Proof. destruct a; simpl; [auto | discriminate]. Qed.

Lemma isspace_lower_char (c : ascii) : isspace (lower_char c) = isspace c.
Proof. destruct c as [[] [] [] [] [] [] [] []]; reflexivity. Qed.

Lemma lower_app (a b : string) : lower (a ++ b) = (lower a ++ lower b)%string.
Proof. induction a; simpl; congruence. Qed.

Lemma lower_lstrip (s : string) : lower (lstrip s) = lstrip (lower s).
Proof.
  induction s as [|c s IH]; simpl; auto.
  rewrite isspace_lower_char. destruct (isspace c); auto.
Qed.

Lemma lower_rstrip (s : string) : lower (rstrip s) = rstrip (lower s).
Proof.
  induction s as [|c s IH]; simpl; auto.
  rewrite <- IH. destruct (rstrip s); simpl; auto.
  rewrite isspace_lower_char. destruct (isspace c); auto.
Qed.

Lemma lower_strip (s : string) : lower (strip s) = strip (lower s).
Proof. unfold strip. rewrite lower_lstrip, lower_rstrip. reflexivity. Qed.

Lemma startswith_spec (s p : string) :
  startswith s p = true <-> exists b, s = (p ++ b)%string.
Proof.
  revert s. induction p as [|a p IH]; intros s; simpl.
  - split; [intros _; exists s; reflexivity | destruct s; reflexivity].
  - destruct s as [|b s].
    + split; [discriminate | intros [x Hx]; discriminate].
    + simpl. destruct (Ascii.eqb a b) eqn:E; simpl.
      * apply Ascii.eqb_eq in E; subst. rewrite IH. split.
        -- intros [x ->]. eauto.
        -- intros [x Hx]. inversion Hx. eauto.
      * split; [discriminate|].
        intros [x Hx]. inversion Hx; subst. now rewrite Ascii.eqb_refl in E.
Qed.

Lemma contains_unfold (s h : string) :
  contains s h = (startswith s h ||
                  match s with EmptyString => false | String _ s' => contains s' h end)%bool.
Proof. destruct s; reflexivity. Qed.

Lemma contains_spec (s h : string) :
  contains s h = true <-> exists a b, s = (a ++ h ++ b)%string.
Proof.
  induction s as [|c s IH]; rewrite contains_unfold, Bool.orb_true_iff, startswith_spec.
  - split.
    + intros [[b Hb] | H]; [exists "", b; exact Hb | discriminate].
    + intros [a [b H]]. destruct a; [left; eauto | discriminate].
  - rewrite IH. split.
    + intros [[b Hb] | [a [b Hab]]].
      * exists "", b. exact Hb.
      * exists (String c a), b. simpl. congruence.
    + intros [a [b H]]. destruct a as [|d a].
      * left. eauto.
      * right. inversion H; subst. eauto.
Qed.

Lemma contains_app_mid (a h b : string) : contains (a ++ h ++ b) h = true.
Proof. apply contains_spec. eauto. Qed.

(** [rstrip] distributes over a concatenation whose right part keeps a
    non-space character. *)
Lemma rstrip_app_ne (x y : string) : rstrip y <> "" -> rstrip (x ++ y) = (x ++ rstrip y)%string.
Proof.
  intros Hy. induction x as [|c x IH]; simpl; auto.
  rewrite IH. destruct (x ++ rstrip y)%string eqn:E; auto.
  apply sapp_eq_nil in E. tauto.
Qed.

Lemma rstrip_fixed_app (x y : string) :
  rstrip x = x -> x <> "" -> rstrip (x ++ y) = (x ++ rstrip y)%string.
Proof.
  induction x as [|c x IH]; intros Hx Hne; [congruence|]. simpl in *.
  destruct x as [|d x'].
  - simpl in Hx. destruct (isspace c); [discriminate|].
    simpl. destruct (rstrip y); reflexivity.
  - destruct (rstrip (String d x')) as [|e r] eqn:E.
    + destruct (isspace c); discriminate.
    + inversion Hx; subst. rewrite IH by (auto; discriminate). reflexivity.
Qed.

Lemma rstrip_cons (c : ascii) (s : string) :
  rstrip (String c s) =
  match rstrip s with
  | EmptyString => if isspace c then EmptyString else String c EmptyString
  | r => String c r
  end.
Proof. reflexivity. Qed.

Lemma rstrip_idem (s : string) : rstrip (rstrip s) = rstrip s.
Proof.
  induction s as [|c s IH]; [reflexivity|]. rewrite (rstrip_cons c s).
  destruct (rstrip s) as [|d r] eqn:E.
  - destruct (isspace c) eqn:Ec; simpl; [reflexivity | now rewrite Ec].
  - rewrite rstrip_cons, IH. reflexivity.
Qed.

Lemma slength_lstrip (s : string) : String.length (lstrip s) <= String.length s.
Proof.
  induction s as [|c s IH]; simpl; auto.
  destruct (isspace c); simpl; [apply le_S | ]; auto.
Qed.

Lemma lstrip_idem (s : string) : lstrip (lstrip s) = lstrip s.
Proof.
  induction s as [|c s IH]; simpl; auto.
  destruct (isspace c) eqn:Ec; auto. simpl. now rewrite Ec.
Qed.

Lemma lstrip_fixed_app (x y : string) :
  lstrip x = x -> x <> "" -> lstrip (x ++ y) = (x ++ y)%string.
Proof.
  destruct x as [|c x]; intros Hx Hne; [congruence|]. simpl in *.
  destruct (isspace c); [|reflexivity].
  exfalso. pose proof (slength_lstrip x) as L. rewrite Hx in L. simpl in L.
  apply (Nat.nle_succ_diag_l _ L).
Qed.

Lemma lstrip_app (x y : string) :
  (lstrip x <> "" -> lstrip (x ++ y) = (lstrip x ++ y)%string) /\
  (lstrip x = "" -> lstrip (x ++ y) = lstrip y).
Proof.
  induction x as [|c x IH]; simpl; [split; [congruence | auto]|].
  destruct (isspace c); [exact IH|]. split; [reflexivity | discriminate].
Qed.

Lemma rstrip_lstrip_fixed (t : string) : rstrip t = t -> rstrip (lstrip t) = lstrip t.
Proof.
  induction t as [|c t IH]; intros H; [reflexivity|].
  change (lstrip (String c t)) with (if isspace c then lstrip t else String c t).
  destruct (isspace c) eqn:Ec; [|exact H].
  apply IH. rewrite rstrip_cons, Ec in H. destruct (rstrip t) eqn:E.
  - discriminate.
  - inversion H as [H1]. rewrite H1. reflexivity.
Qed.

Lemma strip_fixed (s : string) :
  rstrip (strip s) = strip s /\ lstrip (strip s) = strip s.
Proof.
  unfold strip. split.
  - apply rstrip_lstrip_fixed, rstrip_idem.
  - apply lstrip_idem.
Qed.

Lemma strip_rstrip (s : string) : strip (rstrip s) = strip s.
Proof. unfold strip. now rewrite rstrip_idem. Qed.

(** A needle with no outer whitespace survives [strip]. *)
Lemma contains_strip (s h : string) :
  h <> "" -> lstrip h = h -> rstrip h = h ->
  contains s h = true -> contains (strip s) h = true.
Proof.
  intros Hne Hl Hr Hc. apply contains_spec in Hc as [a [b ->]].
  unfold strip.
  assert (Hrb : rstrip (h ++ b) = (h ++ rstrip b)%string) by (apply rstrip_fixed_app; auto).
  rewrite rstrip_app_ne; rewrite Hrb.
  - destruct (lstrip_app a (h ++ rstrip b)) as [L1 L2].
    destruct (lstrip a) eqn:E.
    + rewrite L2 by reflexivity. rewrite lstrip_fixed_app by auto.
      apply (contains_app_mid "").
    + rewrite L1 by discriminate. apply contains_app_mid.
  - intros H. apply sapp_eq_nil in H. tauto.
Qed.

Lemma startswith_single (c ch : ascii) (s : string) :
  startswith (String c s) (String ch "") = Ascii.eqb ch c.
Proof. destruct s; simpl; apply Bool.andb_true_r. Qed.

Lemma find_char_none (s : string) (ch : ascii) :
  find_char s ch = None <-> contains s (String ch "") = false.
Proof.
  induction s as [|c s IH]; [simpl; split; auto|].
  rewrite contains_unfold, startswith_single. simpl find_char.
  rewrite (Ascii.eqb_sym ch c). destruct (Ascii.eqb c ch); simpl.
  - split; discriminate.
  - rewrite <- IH. destruct (find_char s ch); simpl; split; congruence.
Qed.

Lemma find_char_app (pre r : string) (ch : ascii) :
  contains pre (String ch "") = false ->
  find_char (pre ++ String ch r) ch = Some (String.length pre).
Proof.
  induction pre as [|c pre IH]; intros H; simpl.
  - now rewrite Ascii.eqb_refl.
  - rewrite contains_unfold, startswith_single, (Ascii.eqb_sym ch c) in H.
    destruct (Ascii.eqb c ch); [discriminate|].
    simpl in H. now rewrite IH.
Qed.

Lemma drop_app (a b : string) : drop (String.length a) (a ++ b) = b.
Proof. induction a; simpl; auto. Qed.

Lemma take_app (a b : string) : take (String.length a) (a ++ b) = a.
Proof. induction a; simpl; congruence. Qed.

Lemma drop_app_plus (a b : string) (n : nat) :
  drop (String.length a + n) (a ++ b) = drop n b.
Proof. induction a; simpl; auto. Qed.

End StrFacts.
Module LoopFacts.
Import PyStr Json JsonUtils StateErr Gemini Specs StrFacts.

Lemma steps_of_app (a b : list obs) : steps_of (a ++ b) = (steps_of a ++ steps_of b)%list.
Proof. unfold steps_of. apply flat_map_app. Qed.

Lemma bind_step {E S A B} (m : M E S A) (k : A -> M E S B) s a s' :
  m s = (inl a, s') -> bind m k s = k a s'.
Proof. intros H. unfold bind. rewrite H. reflexivity. Qed.

Section Quiet.
Variable W : Type.

Lemma quiet_ret {A} (a : A) : quiet (W:=W) (ret a).
Proof. intros w l r w' l' H. inversion H. exists []. rewrite app_nil_r. auto. Qed.

Lemma quiet_raise {A} (e : err) : quiet (W:=W) (A:=A) (raise e).
Proof. intros w l r w' l' H. inversion H. exists []. rewrite app_nil_r. auto. Qed.

Lemma quiet_lift {A} (x : A + err) : quiet (W:=W) (lift x).
Proof.
  intros w l r w' l' H. destruct x; inversion H; exists []; rewrite app_nil_r; auto.
Qed.

Lemma quiet_lift_opt {A} (x : option A) (e : err) : quiet (W:=W) (lift_opt x e).
Proof.
  intros w l r w' l' H. destruct x; inversion H; exists []; rewrite app_nil_r; auto.
Qed.

Lemma quiet_world {A} (f : W -> (A + err) * W) : quiet (world W f).
Proof.
  intros w l r w' l' H. unfold world in H. simpl in H. destruct (f w).
  inversion H. exists []. rewrite app_nil_r. auto.
Qed.

Lemma quiet_emit_event (n : string) (a : nat) : quiet (emit W (OEvent n a)).
Proof. intros w l r w' l' H. inversion H. eauto. Qed.

Lemma quiet_emit_sleep (q : Q) : quiet (emit W (OSleep q)).
Proof. intros w l r w' l' H. inversion H. eauto. Qed.

Lemma quiet_bind {A B} (m : P W A) (k : A -> P W B) :
  quiet m -> (forall a, quiet (k a)) -> quiet (bind m k).
Proof.
  intros Hm Hk w l r w' l' H. unfold bind in H.
  destruct (m (w, l)) as [[a|e] [w1 l1]] eqn:E;
    apply Hm in E as [x1 [-> Hx1]].
  - apply Hk in H as [x2 [-> Hx2]]. exists (x1 ++ x2)%list.
    rewrite app_assoc, steps_of_app, Hx1, Hx2. auto.
  - inversion H; subst. eauto.
Qed.

Variable urlopen : string -> W -> http_outcome * W.
Variable sleep : Q -> W -> W.

Lemma quiet_open_url (p : string) : quiet (open_url W urlopen p).
Proof.
  intros w l r w' l' H. unfold open_url, world in H. simpl in H.
  destruct (urlopen p w). inversion H. exists []. rewrite app_nil_r. auto.
Qed.

Lemma quiet_backoff (a : nat) : quiet (backoff W sleep a).
Proof.
  unfold backoff. destruct (Nat.ltb a MAX_RETRIES); [|apply quiet_ret].
  apply quiet_bind; [|intros; apply quiet_emit_sleep].
  intros w l r w' l' H. inversion H. exists []. rewrite app_nil_r. auto.
Qed.

End Quiet.

Ltac quiet_tac :=
  repeat first
    [ apply quiet_ret | apply quiet_raise | apply quiet_lift | apply quiet_lift_opt
    | apply quiet_world | apply quiet_emit_event | apply quiet_emit_sleep
    | apply quiet_open_url | apply quiet_backoff
    | apply quiet_bind; intros
    | match goal with |- quiet (match ?x with _ => _ end) => destruct x end
    | match goal with |- quiet (if ?x then _ else _) => destruct x end ].

Section QuietGen.
Variable W : Type.
Variable urlopen : string -> W -> http_outcome * W.
Variable sleep : Q -> W -> W.

Lemma quiet_attempt_loop (p : string) (rem a : nat) (last : option err) :
  quiet (attempt_loop W urlopen sleep p rem a last).
Proof.
  revert a last. induction rem as [|rem IH]; intros a last; simpl; quiet_tac; apply IH.
Qed.

Lemma quiet_parse_body (raw : string) : quiet (parse_body W raw).
Proof. unfold parse_body. quiet_tac. Qed.

Lemma quiet_generate_text (p : string) : quiet (generate_text W urlopen sleep p).
Proof.
  unfold generate_text. apply quiet_bind; [apply quiet_attempt_loop|].
  intros x. destruct x as [raw|[e|]]; [apply quiet_parse_body | apply quiet_raise | apply quiet_parse_body].
Qed.

End QuietGen.

Lemma nth_error_app_last {A} (es : list A) (x : A) :
  nth_error (es ++ [x]) (length es) = Some x.
Proof. rewrite nth_error_app2, Nat.sub_diag by lia. reflexivity. Qed.

Lemma state_at_app_le {T} (s0 : T) es x i :
  i <= length es -> state_at s0 (es ++ [x]) i = state_at s0 es i.
Proof.
  intros Hi. destruct i as [|i]; [reflexivity|]. simpl.
  rewrite nth_error_app1 by lia. reflexivity.
Qed.

Lemma state_at_last {T} (s0 : T) es (e : json) (s : T) :
  state_at s0 (es ++ [(e, s)]) (S (length es)) = s.
Proof. simpl. rewrite nth_error_app_last. reflexivity. Qed.

Lemma tool_steps_app {T} step (s0 : T) es e s :
  tool_steps step s0 (es ++ [(e, s)]) ->
  tool_steps step s0 es /\
  step (length es) (map fst es) (state_at s0 es (length es)) = (inl (ITool e), s).
Proof.
  intros H. split.
  - intros i e' s' Hi.
    assert (Hlt : i < length es) by (apply nth_error_Some; congruence).
    specialize (H i e' s'). rewrite nth_error_app1 in H by lia.
    rewrite firstn_app, (proj2 (Nat.sub_0_le i (length es))) in H by lia.
    rewrite firstn_O, app_nil_r, state_at_app_le in H by lia. auto.
  - specialize (H (length es) e s). rewrite nth_error_app_last in H.
    rewrite firstn_app, Nat.sub_diag, firstn_O, app_nil_r, firstn_all in H.
    rewrite state_at_app_le in H by lia. auto.
Qed.

Lemma unknown_tool_not_str (t : json) (n : string) :
  (forall n, In n TOOL_NAMES -> t <> JStr n) -> In n TOOL_NAMES -> is_str t n = false.
Proof.
  intros H Hn. destruct t; try reflexivity. simpl.
  destruct (String.eqb s n) eqn:E; auto.
  apply String.eqb_eq in E. subst. exfalso. exact (H n Hn eq_refl).
Qed.

Lemma first_hint_some (hs : list string) (h s : string) :
  In h hs -> contains s h = true -> exists h', Modes.first_hint hs s = Some h'.
Proof.
  induction hs as [|h0 hs IH]; simpl; [tauto|]. intros [<-|Hin] Hc.
  - rewrite Hc. eauto.
  - destruct (contains s h0); eauto.
Qed.

Section Loop.
Variable W : Type.
Variable urlopen : string -> W -> http_outcome * W.
Variable sleep : Q -> W -> W.
Variable clock : W -> Z.
Variable plan_schema : string.
Variable gh_repo : RepoAccess -> W -> (json + err) * W.
Variable gh_get_default_branch : RepoAccess -> W -> (json + err) * W.
Variable gh_create_branch : RepoAccess -> json -> option json -> W -> (json + err) * W.
Variable gh_list_files : RepoAccess -> option json -> W -> (list json + err) * W.
Variable gh_read_file : RepoAccess -> json -> option json -> W -> (json + err) * W.
Variable gh_write_file : RepoAccess -> WriteFileInput -> W -> (json + err) * W.
Variable gh_create_pull_request : RepoAccess -> PullRequestInput -> W -> (json + err) * W.

Local Abbreviation gen := (generate_text W urlopen sleep).
Local Abbreviation exec := (execute_tool_inner W gh_get_default_branch gh_create_branch
  gh_list_files gh_read_file gh_write_file gh_create_pull_request).
Local Abbreviation iter := (iteration W urlopen sleep clock gh_get_default_branch
  gh_create_branch gh_list_files gh_read_file gh_write_file gh_create_pull_request).
Local Abbreviation loop := (tool_loop W urlopen sleep clock gh_get_default_branch
  gh_create_branch gh_list_files gh_read_file gh_write_file gh_create_pull_request).

Lemma quiet_exec (access : RepoAccess) (t args : json) : quiet (exec access t args).
Proof. unfold execute_tool_inner. quiet_tac. Qed.

(** An iteration logs its own step number, then nothing else that counts
    as a step. *)
Lemma iteration_log (user : string) (access : RepoAccess) (i : nat) (h : list json)
    (w : W) (l : list obs) r w' l' :
  iter user access i h (w, l) = (r, (w', l')) ->
  exists extra, l' = (l ++ [OStep (S i)] ++ extra)%list /\ steps_of extra = [].
Proof.
  intros H. unfold iteration, bind at 1, now in H. cbv beta iota in H.
  unfold bind at 1, emit in H. simpl in H.
  assert (Q : quiet (
    model_text <- gen (build_tool_prompt user access h (clock w)) ;;
    act <- lift (parse_action model_text) ;;
    match act with
    | Final m => ret (IFinal m)
    | ToolCall tool args =>
        tool_result <- exec access tool args ;;
        ret (ITool (history_entry model_text tool_result))
    end)).
  { apply quiet_bind; [apply quiet_generate_text|]. intros a.
    apply quiet_bind; [apply quiet_lift|]. intros [t args|m].
    - apply quiet_bind; [apply quiet_exec | intros; apply quiet_ret].
    - apply quiet_ret. }
  apply Q in H as [extra [-> He]]. exists extra. rewrite <- app_assoc. auto.
Qed.

Lemma iteration_tool_entry user access i h s e s' :
  iter user access i h s = (inl (ITool e), s') ->
  exists text r, e = history_entry text r.
Proof.
  unfold iteration, bind, now, emit, lift. simpl.
  destruct (gen _ _) as [[text|e0] s2]; [|discriminate].
  destruct (parse_action text) as [[t args|m]|e1]; [|discriminate|discriminate].
  destruct (exec access t args s2) as [[r|e2] s3]; [|discriminate].
  intros H. inversion H. eauto.
Qed.

(** The loop after [length es] tool steps. *)
Lemma loop_prefix user access s0 es :
  tool_steps (iter user access) s0 es ->
  forall k, loop user access (length es + k) 0 [] s0 =
            loop user access k (length es) (map fst es) (state_at s0 es (length es)).
Proof.
  induction es as [|[e s] es IH] using rev_ind; intros Hs k; [reflexivity|].
  apply tool_steps_app in Hs as [Hs Hlast].
  rewrite length_app; simpl (length [_]); rewrite !Nat.add_1_r.
  replace (S (length es) + k) with (length es + S k) by lia.
  rewrite (IH Hs (S k)), state_at_last, map_app.
  cbn [tool_loop]. unfold bind at 1. rewrite Hlast. reflexivity.
Qed.

Lemma steps_prefix user access s0 es :
  tool_steps (iter user access) s0 es ->
  steps_of (snd (state_at s0 es (length es))) = (steps_of (snd s0) ++ seq 1 (length es))%list.
Proof.
  induction es as [|[e s] es IH] using rev_ind; intros Hs.
  - simpl. rewrite app_nil_r. reflexivity.
  - apply tool_steps_app in Hs as [Hs Hlast].
    rewrite length_app, Nat.add_1_r, state_at_last.
    destruct (state_at s0 es (length es)) as [w l] eqn:E. destruct s as [w' l'].
    apply iteration_log in Hlast as [extra [-> Hx]].
    specialize (IH Hs). simpl snd in *.
    rewrite seq_S, steps_of_app, IH. cbn [steps_of flat_map]. fold (steps_of extra). rewrite Hx.
    rewrite <- app_assoc. reflexivity.
Qed.

Local Abbreviation ensure := (ensure_repo_write_access W gh_repo).
Local Abbreviation respond_ := (respond W urlopen sleep clock plan_schema gh_repo
  gh_get_default_branch gh_create_branch gh_list_files gh_read_file gh_write_file
  gh_create_pull_request).
Local Abbreviation handle := (handle_request W urlopen sleep clock plan_schema gh_repo
  gh_get_default_branch gh_create_branch gh_list_files gh_read_file gh_write_file
  gh_create_pull_request).

(** An iteration that raises, after [length es] tool steps, makes the
    loop raise the same error in the same state. *)
Lemma loop_iteration_error user access s0 es e s' :
  length es < 12 ->
  tool_steps (iter user access) s0 es ->
  iter user access (length es) (map fst es) (state_at s0 es (length es)) = (inr e, s') ->
  loop user access 12 0 [] s0 = (inr e, s').
Proof.
  intros Hk Hs Hi.
  replace 12 with (length es + S (11 - length es)) by lia.
  rewrite (loop_prefix user access s0 es Hs). cbn [tool_loop].
  unfold bind at 1. rewrite Hi. reflexivity.
Qed.

(** Claim C2 (as amended): when each of the 12 iterations decodes to a
    tool call that executes, the loop returns the step-limit message as a
    normal result, in the state after the 12th iteration, and the trace
    shows iterations 1 to 12 and no other. When instead, after fewer than
    12 such tool steps, the next iteration raises (in particular when the
    model's reply does not decode to a valid action, or when the decoded
    tool call raises), the loop raises that same error, not the
    step-limit message. *)
Theorem tool_loop_step_limit (user : string) (access : RepoAccess) (s0 : St W) :
  (forall es : list (json * St W),
     length es = 12 ->
     tool_steps (iter user access) s0 es ->
     loop user access 12 0 [] s0 = (inl STEP_LIMIT_MSG, state_at s0 es 12) /\
     steps_of (snd (state_at s0 es 12)) = (steps_of (snd s0) ++ seq 1 12)%list) /\
  (forall (es : list (json * St W)) e s',
     length es < 12 ->
     tool_steps (iter user access) s0 es ->
     iter user access (length es) (map fst es) (state_at s0 es (length es)) = (inr e, s') ->
     loop user access 12 0 [] s0 = (inr e, s')) /\
  (forall (es : list (json * St W)) w l text s1 e,
     length es < 12 ->
     tool_steps (iter user access) s0 es ->
     state_at s0 es (length es) = (w, l) ->
     gen (build_tool_prompt user access (map fst es) (clock w))
         (w, (l ++ [OStep (S (length es))])%list) = (inl text, s1) ->
     parse_action text = inr e ->
     loop user access 12 0 [] s0 = (inr e, s1)) /\
  (forall (es : list (json * St W)) w l text s1 t args e s2,
     length es < 12 ->
     tool_steps (iter user access) s0 es ->
     state_at s0 es (length es) = (w, l) ->
     gen (build_tool_prompt user access (map fst es) (clock w))
         (w, (l ++ [OStep (S (length es))])%list) = (inl text, s1) ->
     parse_action text = inl (ToolCall t args) ->
     exec access t args s1 = (inr e, s2) ->
     loop user access 12 0 [] s0 = (inr e, s2)).
Proof.
  split; [|split; [|split]].
  - intros es Hlen Hsteps. split.
    + pose proof (loop_prefix user access s0 es Hsteps 0) as H.
      rewrite Hlen in H. exact H.
    + pose proof (steps_prefix user access s0 es Hsteps) as H.
      rewrite Hlen in H. exact H.
  - intros es e s' Hk Hs Hi. exact (loop_iteration_error user access s0 es e s' Hk Hs Hi).
  - intros es w l text s1 e Hk Hs E Hgen Hact.
    apply (loop_iteration_error user access s0 es e s1 Hk Hs).
    rewrite E. unfold iteration, bind, now, emit, lift. simpl.
    rewrite Hgen, Hact. reflexivity.
  - intros es w l text s1 t args e s2 Hk Hs E Hgen Hact Hx.
    apply (loop_iteration_error user access s0 es e s2 Hk Hs).
    rewrite E. unfold iteration, bind, now, emit, lift. simpl.
    rewrite Hgen, Hact. simpl. rewrite Hx. reflexivity.
Qed.

(** Claim C5: after [N < 12] tool steps and a final action carrying the
    message [v], the loop returns what [response_text] makes of [v] (the
    text when [v] is a string, the validation error otherwise) in the
    state after that iteration; the history it passed on has exactly [N]
    entries, the one of each tool step in step order, each a model text
    with its tool result; the trace shows iterations 1 to [N + 1]. *)
Theorem tool_loop_history (user : string) (access : RepoAccess) (s0 s' : St W)
    (es : list (json * St W)) (N : nat) (v : json)
    (HN : N < 12) (Hlen : length es = N)
    (Hsteps : tool_steps (iter user access) s0 es)
    (Hfin : iter user access N (map fst es) (state_at s0 es N) = (inl (IFinal v), s')) :
  loop user access 12 0 [] s0 = lift (response_text v) s' /\
  length (map fst es) = N /\
  (forall i e s, nth_error es i = Some (e, s) ->
     nth_error (map fst es) i = Some e /\
     iter user access i (map fst (firstn i es)) (state_at s0 es i) = (inl (ITool e), s) /\
     exists text r, e = history_entry text r) /\
  steps_of (snd s') = (steps_of (snd s0) ++ seq 1 (S N))%list.
Proof.
  subst N. split; [|split; [|split]].
  - replace 12 with (length es + S (11 - length es)) by lia.
    rewrite (loop_prefix user access s0 es Hsteps). cbn [tool_loop].
    unfold bind at 1. rewrite Hfin. reflexivity.
  - apply length_map.
  - intros i e s Hi. pose proof (Hsteps i e s Hi) as Hs. split; [|split; [exact Hs|]].
    + rewrite nth_error_map, Hi. reflexivity.
    + eapply iteration_tool_entry. exact Hs.
  - destruct s' as [w' l'].
    destruct (state_at s0 es (length es)) as [w l] eqn:E.
    pose proof (steps_prefix user access s0 es Hsteps) as HP. rewrite E in HP.
    apply iteration_log in Hfin as [extra [-> Hx]].
    cbn [snd] in *. rewrite seq_S, steps_of_app, HP. cbn [steps_of flat_map].
    rewrite steps_of_app, Hx, app_nil_r, <- app_assoc. reflexivity.
Qed.


(** Claim C6: a decoded tool call whose tool is outside the six tool
    names makes dispatch raise the unknown-tool error; the loop raises it
    in the state right after the model call, with no further iteration. *)
Theorem unknown_tool_aborts (user : string) (access : RepoAccess) (f idx : nat)
    (hist : list json) (w : W) (l : list obs) (text : string) (s1 : St W) (t args : json)
    (Hgen : gen (build_tool_prompt user access hist (clock w))
                (w, (l ++ [OStep (S idx)])%list) = (inl text, s1))
    (Hact : parse_action text = inl (ToolCall t args))
    (Hunk : forall n, In n TOOL_NAMES -> t <> JStr n) :
  exec access t args s1 = (inr (UnknownTool t), s1) /\
  loop user access (S f) idx hist (w, l) = (inr (UnknownTool t), s1).
Proof.
  assert (Hx : exec access t args s1 = (inr (UnknownTool t), s1)).
  { unfold execute_tool_inner.
    rewrite (unknown_tool_not_str t "get_default_branch"),
      (unknown_tool_not_str t "create_branch"), (unknown_tool_not_str t "list_files"),
      (unknown_tool_not_str t "read_file"), (unknown_tool_not_str t "write_file"),
      (unknown_tool_not_str t "create_pull_request")
      by (exact Hunk || (simpl; repeat first [left; reflexivity | right])).
    reflexivity. }
  split; [exact Hx|].
  cbn [tool_loop]. unfold iteration, bind, now, emit, lift. simpl.
  rewrite Hgen, Hact, Hx. reflexivity.
Qed.

(** Claim C9 (as amended): for a repository reply that is a JSON object,
    the access check raises exactly when [permissions] is a mapping whose
    [push] is absent or falsy, and succeeds otherwise; when [permissions]
    is missing or not a mapping, the check succeeds and a chat request
    naming that repository goes on to the 12-step tool loop. *)
Theorem write_access_check (prompt : string) (access : RepoAccess) (w w' : W)
    (l : list obs) (kvs : list (string * json))
    (Hx : extract_repo_access prompt = inl (Some access))
    (Hr : gh_repo access w = (inl (JObj kvs), w')) :
  (ensure access (w, l) = (inr NoPushAccess, (w', l)) <->
   exists pk, Logger.dict_get kvs "permissions" = Some (JObj pk) /\
     (Logger.dict_get pk "push" = None \/
      exists v, Logger.dict_get pk "push" = Some v /\ truthy v = false)) /\
  (ensure access (w, l) = (inl tt, (w', l)) <->
   ~ exists pk, Logger.dict_get kvs "permissions" = Some (JObj pk) /\
     (Logger.dict_get pk "push" = None \/
      exists v, Logger.dict_get pk "push" = Some v /\ truthy v = false)) /\
  ((forall pk, Logger.dict_get kvs "permissions" <> Some (JObj pk)) ->
   ensure access (w, l) = (inl tt, (w', l)) /\
   respond_ "chat" prompt (w, l) = loop prompt access 12 0 [] (w', l)).
Proof.
  assert (He : ensure access (w, l) =
    (match Logger.dict_get kvs "permissions" with
     | Some (JObj pk) => if truthy (get_or pk "push" (JBool false)) then inl tt else inr NoPushAccess
     | _ => inl tt
     end, (w', l))).
  { unfold ensure_repo_write_access, bind, world, lift, py_get. simpl. rewrite Hr.
    destruct (Logger.dict_get kvs "permissions") as [[]|]; try reflexivity.
    destruct (truthy _); reflexivity. }
  rewrite He.
  assert (Hd : forall pk, truthy (get_or pk "push" (JBool false)) = false <->
      (Logger.dict_get pk "push" = None \/
       exists v, Logger.dict_get pk "push" = Some v /\ truthy v = false)).
  { intros pk. unfold get_or. destruct (Logger.dict_get pk "push") as [v|]; simpl.
    - split; [intros H; right; eauto | intros [H|[v' [H1 H2]]]; [discriminate | congruence]].
    - split; auto. }
  split; [|split].
  - destruct (Logger.dict_get kvs "permissions") as [[| b | z | fl | t | xs | pk]|]; split;
      try (intros H; inversion H; fail); try (intros [pk' [H _]]; discriminate).
    + intros H. exists pk. split; [reflexivity|]. apply Hd.
      destruct (truthy _); [discriminate | reflexivity].
    + intros [pk' [H1 H2]]. inversion H1; subst. apply Hd in H2. rewrite H2. reflexivity.
  - destruct (Logger.dict_get kvs "permissions") as [[| b | z | fl | t | xs | pk]|]; split;
      try (intros _ [pk' [H _]]; discriminate); try (intros _; reflexivity).
    + intros H [pk' [H1 H2]]. inversion H1; subst. apply Hd in H2. rewrite H2 in H. discriminate.
    + intros H. destruct (truthy (get_or pk "push" (JBool false))) eqn:T; [reflexivity|].
      exfalso. apply H. exists pk. split; [reflexivity|]. apply Hd. exact T.
  - intros Hp.
    assert (Hok : match Logger.dict_get kvs "permissions" with
                  | Some (JObj pk) => if truthy (get_or pk "push" (JBool false)) then inl tt else inr NoPushAccess
                  | _ => inl tt
                  end = inl tt).
    { destruct (Logger.dict_get kvs "permissions") as [[| b | z | fl | t | xs | pk]|]; try reflexivity.
      exfalso. exact (Hp pk eq_refl). }
    rewrite Hok. split; [reflexivity|].
    assert (He' : ensure access (w, l) = (inl tt, (w', l))) by (rewrite He, Hok; reflexivity).
    unfold respond. change (String.eqb "chat" "plan") with false. cbv beta iota.
    rewrite (bind_step _ _ _ (Some access) (w, l)) by (unfold lift; rewrite Hx; reflexivity).
    rewrite (bind_step _ _ _ _ _ He'). reflexivity.
Qed.


(** Claim C10: a prompt whose lower-cased text contains a code hint gets
    mode ["plan"], and the request is answered by one model call on the
    plan prompt: no repository detection, access check or tool loop. *)
Theorem code_hint_routes_to_plan (text h : string)
    (Hh : In h Modes.CODE_HINTS)
    (Hc : contains (lower text) h = true) :
  Modes.dm_mode (Modes.detect_mode text) = "plan" /\
  forall s, handle text s = gen (build_plan_prompt plan_schema text) s.
Proof.
  assert (Hs : contains (lower (strip text)) h = true).
  { rewrite lower_strip. apply contains_strip; auto;
    simpl in Hh; repeat destruct Hh as [<-|Hh]; try reflexivity; try discriminate; contradiction. }
  assert (Hm : Modes.dm_mode (Modes.detect_mode text) = "plan").
  { unfold Modes.detect_mode.
    destruct (Modes.first_hint Modes.PLAN_HINTS (lower (strip text))); [reflexivity|].
    destruct (first_hint_some _ _ _ Hh Hs) as [h' ->]. reflexivity. }
  split; [exact Hm|]. intros s.
  destruct text as [|c text].
  - exfalso. simpl in Hh. repeat destruct Hh as [<-|Hh]; try discriminate; contradiction.
  - unfold handle_request. rewrite Hm. reflexivity.
Qed.

End Loop.
End LoopFacts.

Module ExtractFacts.
Import PyStr Json JsonUtils StrFacts.

(** The scan's result moves with its starting index. *)
Lemma scan_shift (s : string) (k i : nat) (d : Z) (ins esc : bool) :
  scan s (k + i) d ins esc = option_map (Nat.add k) (scan s i d ins esc).
Proof.
  revert i d ins esc; induction s as [|c s IH]; intros i d ins esc; [reflexivity|].
  simpl scan. rewrite <- Nat.add_succ_r.
  destruct ins, esc, (Nat.eqb (ord c) 92), (Nat.eqb (ord c) 34),
    (Nat.eqb (ord c) 123), (Nat.eqb (ord c) 125), (d - 1 =? 0)%Z;
    first [apply IH | reflexivity].
Qed.

(** The candidate text carries no trailing whitespace. *)
Lemma strip_code_fences_rstrip (text : string) :
  rstrip (strip_code_fences text) = strip_code_fences text.
Proof.
  unfold strip_code_fences.
  destruct (negb (startswith (strip text) FENCE)); apply strip_fixed.
Qed.

Lemma strip_code_fences_brace (pre rest : string) :
  rstrip (pre ++ String "{" rest) = (pre ++ String "{" rest)%string ->
  strip_code_fences (String "{" rest) = String "{" rest.
Proof.
  intros H.
  assert (Hne : rstrip (String "{" rest) <> "").
  { rewrite rstrip_cons. destruct (rstrip rest); discriminate. }
  rewrite (rstrip_app_ne pre _ Hne) in H.
  apply sapp_cancel_l in H.
  unfold strip_code_fences, strip. rewrite H. reflexivity.
Qed.

(** C4: the candidate object begins at the first [{] character of the
    fence-stripped text, whatever quotes come before it: the result is
    that of the text cut just before that brace.  [NoObjectFound] is
    raised exactly when the fence-stripped text has no [{] at all. *)
Theorem extract_starts_at_first_brace (text : string) :
  (extract_first_json_object text = inr NoObjectFound <->
   contains (strip_code_fences text) "{" = false) /\
  (forall pre rest,
     strip_code_fences text = (pre ++ String "{" rest)%string ->
     contains pre "{" = false ->
     extract_first_json_object text = extract_first_json_object (String "{" rest)).
Proof.
  split.
  - rewrite <- find_char_none. unfold extract_first_json_object.
    destruct (find_char (strip_code_fences text) "{") as [start|]; [|split; reflexivity].
    split; [|discriminate].
    destruct (scan _ _ _ _ _) as [e|]; [|discriminate].
    destruct (loads _) as [[]|]; discriminate.
  - intros pre rest Hc Hpre.
    pose proof (strip_code_fences_rstrip text) as Hr. rewrite Hc in Hr.
    unfold extract_first_json_object at 2.
    rewrite (strip_code_fences_brace pre rest Hr).
    unfold extract_first_json_object. rewrite Hc.
    rewrite (find_char_app pre rest "{" Hpre).
    simpl find_char. cbv beta iota zeta. change (drop 0 (String "{" rest)) with (String "{" rest).
    rewrite drop_app.
    assert (Hs : forall X, scan X (String.length pre) 0 false false =
                 option_map (Nat.add (String.length pre)) (scan X 0 0 false false))
      by (intros X; rewrite <- scan_shift, Nat.add_0_r; reflexivity).
    rewrite Hs.
    destruct (scan (String "{" rest) 0 0 false false) as [e|]; [|reflexivity].
    cbv beta iota delta [option_map].
    replace (S (String.length pre + e) - String.length pre) with (S e - 0) by lia.
    replace (S (String.length pre + e)) with (String.length pre + S e) by lia.
    rewrite drop_app_plus. reflexivity.
Qed.

End ExtractFacts.

Module JsonFacts.
Import PyStr Json JsonUtils StrFacts JsonSpecs.

Section JsonInd.
Variable P : json -> Prop.
Hypothesis HNull : P JNull.
Hypothesis HBool : forall b, P (JBool b).
Hypothesis HInt : forall z, P (JInt z).
Hypothesis HFloat : forall f, P (JFloat f).
Hypothesis HStr : forall s, P (JStr s).
Hypothesis HArr : forall xs, Forall P xs -> P (JArr xs).
Hypothesis HObj : forall kvs, Forall (fun kv => P (snd kv)) kvs -> P (JObj kvs).

Lemma json_ind' : forall v, P v.
Proof.
  fix IH 1. intros [| b | z | fl | s | xs | kvs].
  - exact HNull.
  - apply HBool.
  - apply HInt.
  - apply HFloat.
  - apply HStr.
  - apply HArr.
    exact ((fix go (l : list json) : Forall P l :=
              match l with
              | [] => Forall_nil _
              | x :: l' => Forall_cons _ (IH x) (go l')
              end) xs).
  - apply HObj.
    exact ((fix go (l : list (string * json)) : Forall (fun kv => P (snd kv)) l :=
              match l with
              | [] => Forall_nil _
              | kv :: l' => Forall_cons _ (IH (snd kv)) (go l')
              end) kvs).
Qed.
End JsonInd.

(** *** The brace scanner over a serialization *)

Lemma transparent_app d u w :
  scan_transparent d u -> scan_transparent d w -> scan_transparent d (u ++ w).
Proof.
  intros Hu Hw t i. rewrite sapp_assoc, Hu, Hw, slength_app.
  f_equal. lia.
Qed.

Lemma transparent_plain d u :
  all_chars (fun c => negb (scan_special c)) u = true -> scan_transparent d u.
Proof.
  induction u as [|c u IH]; intros H t i; [reflexivity|].
  simpl in H. apply andb_prop in H as [Hc Hu].
  unfold scan_special in Hc.
  destruct (Nat.eqb (ord c) 34) eqn:E1; [discriminate|].
  destruct (Nat.eqb (ord c) 123) eqn:E2; [discriminate|].
  destruct (Nat.eqb (ord c) 125) eqn:E3; [discriminate|].
  simpl. rewrite E1, E2, E3, (IH Hu). f_equal. lia.
Qed.

Lemma transparent_concat d sep l :
  scan_transparent d sep -> Forall (scan_transparent d) l ->
  scan_transparent d (String.concat sep l).
Proof.
  intros Hs Hl. induction Hl as [|u l Hu Hl IH]; [intros t i; reflexivity|].
  destruct l as [|w l]; [exact Hu|].
  change (String.concat sep (u :: w :: l)) with (u ++ sep ++ String.concat sep (w :: l)).
  apply transparent_app; [exact Hu|]. apply transparent_app; assumption.
Qed.

Lemma scan_escape_char c t i d :
  scan (escape_char c ++ t) i d true false =
  scan t (String.length (escape_char c) + i) d true false.
Proof. destruct c as [[] [] [] [] [] [] [] []]; reflexivity. Qed.

Lemma scan_escape s t i d :
  scan (escape s ++ t) i d true false = scan t (String.length (escape s) + i) d true false.
Proof.
  revert i; induction s as [|c s IH]; intros i; [reflexivity|].
  simpl escape. rewrite sapp_assoc, scan_escape_char, IH, slength_app.
  f_equal. lia.
Qed.

Lemma transparent_dump_str d s : scan_transparent d (dump_str s).
Proof.
  intros t i. unfold dump_str. rewrite !sapp_assoc.
  change (str1 (chr 34) ++ ?x) with (String (chr 34) x).
  simpl scan at 1. rewrite scan_escape. simpl.
  rewrite slength_app. simpl. f_equal. lia.
Qed.


Lemma digit_char m : m < 10 -> is_digit (chr (48 + m)) = true /\ ord (chr (48 + m)) = 48 + m.
Proof.
  intros H. do 10 (destruct m as [|m]; [split; reflexivity|]). lia.
Qed.

Lemma all_chars_app p u w : all_chars p (u ++ w) = (all_chars p u && all_chars p w)%bool.
Proof. induction u as [|c u IH]; simpl; [reflexivity|]. rewrite IH, andb_assoc. reflexivity. Qed.

Lemma all_chars_str1 p c : all_chars p (str1 c) = p c.
Proof. unfold str1; simpl. apply andb_true_r. Qed.

Lemma digits_rev_S f n :
  digits_rev (S f) n =
  if (n <? 10)%N then str1 (chr (48 + N.to_nat (n mod 10)))
  else digits_rev f (n / 10) ++ str1 (chr (48 + N.to_nat (n mod 10))).
Proof. reflexivity. Qed.

Lemma digits_rev_digits f n : all_chars is_digit (digits_rev f n) = true.
Proof.
  revert n; induction f as [|f IH]; intros n; [reflexivity|].
  assert (Hd : all_chars is_digit (str1 (chr (48 + N.to_nat (n mod 10)))) = true).
  { rewrite all_chars_str1. apply digit_char.
    pose proof (N.mod_lt n 10 ltac:(lia)). lia. }
  rewrite digits_rev_S. destruct (n <? 10)%N; [exact Hd|].
  rewrite all_chars_app, IH, Hd. reflexivity.
Qed.

Lemma digits_rev_head f n :
  exists c u, digits_rev (S f) n = String c u /\ is_digit c = true /\
              ((1 <= n)%N -> N.to_nat n < S f -> ord c <> 48).
Proof.
  revert n; induction f as [|f IH]; intros n;
    pose proof (N.mod_lt n 10 ltac:(lia)) as Hm;
    destruct (digit_char (N.to_nat (n mod 10)) ltac:(lia)) as [Hd Ho];
    rewrite digits_rev_S; destruct (N.ltb_spec n 10).
  - eexists _, _. split; [reflexivity|]. split; [exact Hd|].
    intros H1 _. rewrite Ho, N.mod_small by lia. lia.
  - eexists _, _. split; [reflexivity|]. split; [exact Hd|].
    intros _ H2. lia.
  - eexists _, _. split; [reflexivity|]. split; [exact Hd|].
    intros H1 _. rewrite Ho, N.mod_small by lia. lia.
  - destruct (IH (n / 10)%N) as (c & u & E & Hc & Hne).
    rewrite E. eexists _, _. split; [reflexivity|]. split; [exact Hc|].
    intros H1 H2. apply Hne.
    + apply N.div_le_lower_bound; lia.
    + pose proof (N.div_lt n 10 ltac:(lia) ltac:(lia)). lia.
Qed.

Lemma transparent_digits d u : all_chars is_digit u = true -> scan_transparent d u.
Proof.
  intros H. apply transparent_plain. induction u as [|c u IH]; [reflexivity|].
  simpl in H |- *. apply andb_prop in H as [Hc Hu]. rewrite (IH Hu), andb_true_r.
  unfold is_digit in Hc. apply andb_prop in Hc as [H1 H2].
  apply Nat.leb_le in H1, H2. unfold scan_special.
  destruct (Nat.eqb_spec (ord c) 34); [lia|].
  destruct (Nat.eqb_spec (ord c) 123); [lia|].
  destruct (Nat.eqb_spec (ord c) 125); [lia|]. reflexivity.
Qed.

Lemma digits_plain u :
  all_chars is_digit u = true -> all_chars (fun c => negb (scan_special c)) u = true.
Proof.
  induction u as [|c u IH]; [reflexivity|].
  simpl. intros H. apply andb_prop in H as [Hc Hu]. rewrite (IH Hu), andb_true_r.
  unfold is_digit in Hc. apply andb_prop in Hc as [H1 H2].
  apply Nat.leb_le in H1, H2. unfold scan_special.
  destruct (Nat.eqb_spec (ord c) 34); [lia|].
  destruct (Nat.eqb_spec (ord c) 123); [lia|].
  destruct (Nat.eqb_spec (ord c) 125); [lia|]. reflexivity.
Qed.

Lemma all_chars_substring p n m u :
  all_chars p u = true -> all_chars p (substring n m u) = true.
Proof.
  revert n m; induction u as [|c u IH]; intros n m H; destruct n, m; simpl in *; try reflexivity.
  - apply andb_prop in H as [Hc Hu]. rewrite Hc. apply IH, Hu.
  - apply andb_prop in H as [Hc Hu]. apply IH, Hu.
  - apply andb_prop in H as [Hc Hu]. apply IH, Hu.
Qed.

Lemma zeros_digits k : all_chars is_digit (zeros k) = true.
Proof. induction k as [|k IH]; [reflexivity|]. exact IH. Qed.

(** The text of a float holds digits, [.], [e], signs and letters only. *)
Lemma float_repr_plain f : all_chars (fun c => negb (scan_special c)) (float_repr f) = true.
Proof.
  destruct f as [[] | [] | | sg m e]; try reflexivity.
  unfold float_repr.
  destruct (shortest _ _ _ _ _ _) as [c p].
  destruct (strip_zeros _ c p) as [c' p'].
  assert (Hds : all_chars is_digit (dec_digits c') = true) by apply digits_rev_digits.
  rewrite all_chars_app. apply andb_true_intro. split; [destruct sg; reflexivity|].
  unfold format_short.
  repeat match goal with |- context [if ?b then _ else _] => destruct b end;
    rewrite ?all_chars_app; repeat (apply andb_true_intro; split);
    first [ reflexivity | apply digits_plain, Hds | apply digits_plain, zeros_digits
          | apply digits_plain, all_chars_substring, Hds
          | apply digits_plain, digits_rev_digits ].
Qed.

Lemma transparent_dump_int d z : scan_transparent d (dump_int z).
Proof.
  unfold dump_int, dump_nat. destruct (z <? 0)%Z.
  - apply transparent_app; [apply transparent_plain; reflexivity|].
    apply transparent_digits, digits_rev_digits.
  - apply transparent_digits, digits_rev_digits.
Qed.

Lemma transparent_dumps v : forall d, (0 < d)%Z -> scan_transparent d (dumps v).
Proof.
  induction v as [| b | z | fl | s | xs IH | kvs IH] using json_ind'; intros d Hd.
  - apply transparent_plain; reflexivity.
  - destruct b; apply transparent_plain; reflexivity.
  - apply transparent_dump_int.
  - apply transparent_plain, float_repr_plain.
  - apply transparent_dump_str.
  - change (dumps (JArr xs)) with ("[" ++ (String.concat ", " (map dumps xs) ++ "]")).
    apply transparent_app; [apply transparent_plain; reflexivity|].
    apply transparent_app; [|apply transparent_plain; reflexivity].
    apply transparent_concat; [apply transparent_plain; reflexivity|].
    apply Forall_map. eapply Forall_impl; [|exact IH]. intros x Hx. exact (Hx d Hd).
  - intros t i.
    change (dumps (JObj kvs)) with
      (String "{" (String.concat ", " (map member kvs) ++ "}")).
    change (String "{" ?x ++ ?y) with (String "{" (x ++ y)).
    rewrite sapp_assoc.
    simpl scan at 1.
    rewrite (transparent_concat (d + 1)).
    + simpl scan.
      replace (d + 1 - 1 =? 0)%Z with false by (symmetry; apply Z.eqb_neq; lia).
      replace (d + 1 - 1)%Z with d by lia.
      simpl String.length. rewrite slength_app. simpl. f_equal. lia.
    + apply transparent_plain; reflexivity.
    + apply Forall_map. eapply Forall_impl; [|exact IH]. intros [k x] Hx.
      simpl in Hx |- *. unfold member; cbn [fst snd]. apply transparent_app; [apply transparent_dump_str|].
      apply transparent_app; [apply transparent_plain; reflexivity|].
      apply Hx. lia.
Qed.

(** The scanner closes the object [dumps (JObj kvs)] at its last brace. *)
Lemma scan_dumps_obj kvs t i :
  scan (dumps (JObj kvs) ++ t) i 0 false false =
  Some (String.length (dumps (JObj kvs)) - 1 + i).
Proof.
  change (dumps (JObj kvs)) with
    (String "{" (String.concat ", " (map member kvs) ++ "}")).
  change (String "{" ?x ++ ?y) with (String "{" (x ++ y)).
  rewrite sapp_assoc. simpl scan at 1.
  rewrite (transparent_concat (0 + 1)).
  - simpl scan. simpl String.length. rewrite slength_app. simpl. f_equal. lia.
  - apply transparent_plain; reflexivity.
  - apply Forall_forall. intros u Hu. apply in_map_iff in Hu as ([k x] & <- & _).
    unfold member; cbn [fst snd]. apply transparent_app; [apply transparent_dump_str|].
    apply transparent_app; [apply transparent_plain; reflexivity|].
    apply transparent_dumps. lia.
Qed.

(** *** The decoder over a serialization *)

Lemma pstring_escape_char c t :
  pstring (escape_char c ++ t) =
  match pstring t with Some (r, rest) => Some (String c r, rest) | None => None end.
Proof. destruct c as [[] [] [] [] [] [] [] []]; reflexivity. Qed.

Lemma pstring_escape s t : pstring (escape s ++ str1 (chr 34) ++ t) = Some (s, t).
Proof.
  induction s as [|c s IH]; [reflexivity|].
  simpl escape. rewrite sapp_assoc, pstring_escape_char, IH. reflexivity.
Qed.

Lemma value_end_cases t :
  value_end t = true ->
  t = EmptyString \/ exists c r, t = String c r /\
    (ord c = 44 \/ ord c = 93 \/ ord c = 125).
Proof.
  destruct t as [|c r]; [left; reflexivity|]. intros H. right. exists c, r.
  split; [reflexivity|]. simpl in H.
  apply orb_true_iff in H as [H|H]; [apply orb_true_iff in H as [H|H]|];
    apply Nat.eqb_eq in H; tauto.
Qed.

Lemma pdigits_cons c s acc :
  pdigits (String c s) acc =
  if is_digit c then pdigits s (acc * 10 + N.of_nat (ord c - 48))%N else (acc, String c s).
Proof. reflexivity. Qed.

Lemma pdigits_end t acc : value_end t = true -> pdigits t acc = (acc, t).
Proof.
  intros H. destruct (value_end_cases t H) as [->|(c & r & -> & Hc)]; [reflexivity|].
  rewrite pdigits_cons. unfold is_digit.
  destruct Hc as [E|[E|E]]; rewrite E; reflexivity.
Qed.

Lemma float_end t : value_end t = true -> pfrac t = (None, t) /\ pexp t = (None, t).
Proof.
  intros H. destruct (value_end_cases t H) as [->|(c & r & -> & Hc)]; [split; reflexivity|].
  destruct Hc as [E|[E|E]]; unfold pfrac, pexp; destruct r as [|d r]; rewrite E;
    split; reflexivity.
Qed.

Lemma pdigits_digits f n acc t :
  N.to_nat n < f ->
  pdigits (digits_rev f n ++ t) acc =
  pdigits t (acc * 10 ^ N.of_nat (String.length (digits_rev f n)) + n)%N.
Proof.
  revert n acc t; induction f as [|f IH]; intros n acc t Hf; [lia|].
  pose proof (N.mod_lt n 10 ltac:(lia)) as Hm.
  destruct (digit_char (N.to_nat (n mod 10)) ltac:(lia)) as [Hd Ho].
  assert (Hr : N.of_nat (ord (chr (48 + N.to_nat (n mod 10))) - 48) = (n mod 10)%N).
  { rewrite Ho, Nat.add_comm, Nat.add_sub. apply N2Nat.id. }
  rewrite digits_rev_S. destruct (N.ltb_spec n 10).
  - change (str1 ?c ++ t) with (String c t).
    rewrite pdigits_cons, Hd, Hr, N.mod_small by lia.
    change (String.length (str1 _)) with 1. rewrite N.pow_1_r. reflexivity.
  - rewrite sapp_assoc, IH.
    + change (str1 ?c ++ t) with (String c t).
      rewrite pdigits_cons, Hd, Hr, slength_app.
      change (String.length (str1 _)) with 1.
      rewrite Nat2N.inj_add, N.pow_add_r, N.pow_1_r. f_equal.
      set (P := (10 ^ _)%N). pose proof (N.div_mod n 10 ltac:(lia)) as Hn.
      revert Hn. generalize (n / 10)%N (n mod 10)%N. intros q r ->. ring.
    + pose proof (N.div_lt n 10 ltac:(lia) ltac:(lia)). lia.
Qed.

Lemma pnat_cons c s :
  pnat (String c s) =
  if Nat.eqb (ord c) 48 then Some (0%N, s)
  else if is_digit c then Some (pdigits (String c s) 0%N) else None.
Proof. reflexivity. Qed.

Lemma pnat_dump_nat n t : value_end t = true -> pnat (dump_nat n ++ t) = Some (n, t).
Proof.
  intros Ht. destruct (N.eq_dec n 0) as [->|Hn]; [reflexivity|].
  unfold dump_nat.
  destruct (digits_rev_head (N.to_nat n) n) as (c & u & E & Hc & Hne).
  specialize (Hne ltac:(lia) ltac:(lia)).
  rewrite E. change (String c u ++ t) with (String c (u ++ t)).
  apply Nat.eqb_neq in Hne. rewrite pnat_cons, Hne, Hc.
  change (String c (u ++ t)) with (String c u ++ t). rewrite <- E.
  rewrite pdigits_digits by lia. rewrite N.mul_0_l, N.add_0_l.
  rewrite pdigits_end by exact Ht. reflexivity.
Qed.

Lemma dump_nat_head n : exists c u, dump_nat n = String c u /\ is_digit c = true.
Proof.
  unfold dump_nat. destruct (digits_rev_head (N.to_nat n) n) as (c & u & E & Hc & _).
  eauto.
Qed.

Lemma pvalue_num_head c r f :
  is_digit c = true \/
  (Nat.eqb (ord c) 45 = true /\ exists d r', r = String d r' /\ is_digit d = true) ->
  pvalue (S f) (String c r) = pnumber (String c r).
Proof.
  intros [H | (H & d & r' & -> & Hd)].
  - destruct c as [[] [] [] [] [] [] [] []];
      first [vm_compute in H; discriminate H | reflexivity].
  - destruct c as [[] [] [] [] [] [] [] []]; vm_compute in H; try discriminate H.
    destruct d as [[] [] [] [] [] [] [] []];
      first [vm_compute in Hd; discriminate Hd | reflexivity].
Qed.

Lemma dump_int_head z :
  exists c u, dump_int z = String c u /\
    (is_digit c = true \/
     (Nat.eqb (ord c) 45 = true /\ exists d u', u = String d u' /\ is_digit d = true)).
Proof.
  unfold dump_int. destruct (z <? 0)%Z.
  - destruct (dump_nat_head (Z.to_N (- z))) as (c & u & E & Hc).
    eexists _, _. split; [reflexivity|]. right. split; [reflexivity|].
    rewrite E. eauto.
  - destruct (dump_nat_head (Z.to_N z)) as (c & u & E & Hc).
    exists c, u. rewrite E. auto.
Qed.

(** A float's text starts with a digit, [-], [N] or [I]. *)
Lemma float_repr_head f :
  exists c u, float_repr f = String c u /\
    (is_digit c || Nat.eqb (ord c) 45 || Nat.eqb (ord c) 78 || Nat.eqb (ord c) 73)%bool = true.
Proof.
  destruct f as [[] | [] | | sg m e]; try (eexists _, _; split; reflexivity).
  unfold float_repr.
  destruct (shortest _ _ _ _ _ _) as [c p].
  destruct (strip_zeros _ c p) as [c' p'].
  destruct sg; [eexists _, _; split; reflexivity|].
  change ((if false then "-" else EmptyString) ++ ?x) with x.
  destruct (digits_rev_head (Z.to_nat (Z.log2 c')) (Z.to_N c')) as (d & u & E & Hd & _).
  unfold dec_digits. rewrite E. unfold format_short.
  remember (ndigits c' + p')%Z as dp.
  destruct ((dp <=? -4) || (16 <? dp))%Z.
  { simpl. eexists _, _. split; [reflexivity|]. rewrite Hd. reflexivity. }
  destruct (Z.leb_spec dp 0).
  { eexists _, _. split; reflexivity. }
  destruct (_ <=? dp)%Z.
  { simpl. eexists _, _. split; [reflexivity|]. rewrite Hd. reflexivity. }
  destruct (Z.to_nat dp) as [|k] eqn:Ek; [lia|].
  simpl. eexists _, _. split; [reflexivity|]. rewrite Hd. reflexivity.
Qed.

Lemma pnumber_dump_int z t : value_end t = true -> pnumber (dump_int z ++ t) = Some (JInt z, t).
Proof.
  intros Ht. unfold dump_int. destruct (Z.ltb_spec z 0).
  - change (("-" ++ ?x) ++ t) with (String "-" (x ++ t)).
    unfold pnumber. simpl Nat.eqb. cbv iota beta.
    rewrite pnat_dump_nat by exact Ht. destruct (float_end t Ht) as [F1 F2].
    rewrite F1. cbv beta iota. rewrite F2. cbv beta iota.
    rewrite Z2N.id by lia. f_equal. f_equal. f_equal. lia.
  - destruct (dump_nat_head (Z.to_N z)) as (c & u & E & Hc).
    unfold pnumber. rewrite E. change (String c u ++ t) with (String c (u ++ t)).
    assert (Hc' : Nat.eqb (ord c) 45 = false).
    { unfold is_digit in Hc. apply andb_prop in Hc as [H1 H2].
      apply Nat.leb_le in H1. apply Nat.eqb_neq. lia. }
    cbv beta iota. rewrite Hc'. cbv beta iota.
    change (String c (u ++ t)) with (String c u ++ t). rewrite <- E.
    rewrite pnat_dump_nat by exact Ht. destruct (float_end t Ht) as [F1 F2].
    rewrite F1. cbv beta iota. rewrite F2. cbv beta iota.
    rewrite Z2N.id by lia. reflexivity.
Qed.

Lemma skip_ws_head c u : is_ws c = false -> skip_ws (String c u) = String c u.
Proof. intros H. simpl. rewrite H. reflexivity. Qed.

Lemma dumps_head v :
  exists c u, dumps v = String c u /\ is_ws c = false /\ Nat.eqb (ord c) 93 = false.
Proof.
  destruct v as [| [] | z | fl | s | xs | kvs].
  1-3, 6-7: eexists _, _; split; [reflexivity | split; reflexivity].
  - destruct (dump_int_head z) as (c & u & E & Hc). exists c, u.
    split; [exact E|].
    assert (Hc' : (is_digit c || Nat.eqb (ord c) 45)%bool = true)
      by (destruct Hc as [Hc | [Hc _]]; rewrite Hc; [reflexivity | apply orb_true_r]).
    destruct c as [[] [] [] [] [] [] [] []]; vm_compute in Hc'; try discriminate Hc';
      split; reflexivity.
  - destruct (float_repr_head fl) as (c & u & E & Hc). exists c, u.
    split; [exact E|].
    destruct c as [[] [] [] [] [] [] [] []]; vm_compute in Hc; try discriminate Hc;
      split; reflexivity.
  - eexists _, _. split; [reflexivity | split; reflexivity].
Qed.

Lemma concat_cons_app (sep a : string) (l : list string) :
  exists w, String.concat sep (a :: l) = (a ++ w)%string.
Proof.
  destruct l as [|b l].
  - exists "". symmetry. apply sapp_nil_r.
  - exists (sep ++ String.concat sep (b :: l))%string. reflexivity.
Qed.

Lemma dict_set_fresh {A} (acc : list (string * A)) k v :
  ~ In k (map fst acc) -> Logger.dict_set acc k v = (acc ++ [(k, v)])%list.
Proof.
  induction acc as [|[k' v'] acc IH]; intros H; [reflexivity|].
  simpl in H |- *. destruct (String.eqb_spec k k') as [->|Hne]; [tauto|].
  rewrite IH by tauto. reflexivity.
Qed.

Lemma keys_distinct_cons k ks :
  keys_distinct (k :: ks) = true -> ~ In k ks /\ keys_distinct ks = true.
Proof.
  simpl. intros H. apply andb_prop in H as [H1 H2]. split; [|exact H2].
  intros Hin.
  assert (E : existsb (String.eqb k) ks = true)
    by (apply existsb_exists; exists k; split; [exact Hin | apply String.eqb_refl]).
  rewrite E in H1. discriminate.
Qed.

Lemma pvalue_S f s :
  pvalue (S f) s =
  match s with
  | String c r =>
      let n := ord c in
      if Nat.eqb n 123 then
        match skip_ws r with
        | String d r' =>
            if Nat.eqb (ord d) 125 then Some (JObj [], r')
            else if Nat.eqb (ord d) 34 then pmembers f r' []
            else None
        | EmptyString => None
        end
      else if Nat.eqb n 91 then
        match skip_ws r with
        | String d r' as r2 =>
            if Nat.eqb (ord d) 93 then Some (JArr [], r') else pelements f r2 []
        | EmptyString => None
        end
      else if Nat.eqb n 34 then
        match pstring r with
        | Some (st, r') => Some (JStr st, r')
        | None => None
        end
      else if startswith s "null" then Some (JNull, drop 4 s)
      else if startswith s "true" then Some (JBool true, drop 4 s)
      else if startswith s "false" then Some (JBool false, drop 5 s)
      else if startswith s "NaN" then Some (JFloat S754_nan, drop 3 s)
      else if startswith s "Infinity" then Some (JFloat (S754_infinity false), drop 8 s)
      else if startswith s "-Infinity" then Some (JFloat (S754_infinity true), drop 9 s)
      else pnumber s
  | EmptyString => None
  end.
Proof. reflexivity. Qed.

Lemma pelements_S f s acc :
  pelements (S f) s acc =
  match pvalue f s with
  | Some (v, s1) =>
      match skip_ws s1 with
      | String d s2 =>
          if Nat.eqb (ord d) 93 then Some (JArr (acc ++ [v])%list, s2)
          else if Nat.eqb (ord d) 44 then pelements f (skip_ws s2) (acc ++ [v])%list
          else None
      | EmptyString => None
      end
  | None => None
  end.
Proof. reflexivity. Qed.

Lemma pmembers_S f s acc :
  pmembers (S f) s acc =
  match pstring s with
  | Some (key, s1) =>
      match skip_ws s1 with
      | String col s2 =>
          if Nat.eqb (ord col) 58 then
            match pvalue f (skip_ws s2) with
            | Some (v, s3) =>
                let acc' := Logger.dict_set acc key v in
                match skip_ws s3 with
                | String d s4 =>
                    if Nat.eqb (ord d) 125 then Some (JObj acc', s4)
                    else if Nat.eqb (ord d) 44 then
                      match skip_ws s4 with
                      | String q s5 =>
                          if Nat.eqb (ord q) 34 then pmembers f s5 acc' else None
                      | EmptyString => None
                      end
                    else None
                | EmptyString => None
                end
            | None => None
            end
          else None
      | EmptyString => None
      end
  | None => None
  end.
Proof. reflexivity. Qed.

Lemma pelements_dumps xs : forall acc f t,
  xs <> [] -> Forall decodes xs -> forallb json_wf xs = true ->
  String.length (String.concat ", " (map dumps xs) ++ "]") < f ->
  pelements f (String.concat ", " (map dumps xs) ++ "]" ++ t) acc = Some (JArr (acc ++ xs)%list, t).
Proof.
  induction xs as [|x xs IH]; intros acc f t Hne Hd Hwf Hlen; [congruence|].
  inversion Hd as [|? ? Hx Hxs]; subst.
  simpl in Hwf. apply andb_prop in Hwf as [Hwx Hwxs].
  destruct f as [|f]; [lia|]. rewrite pelements_S.
  destruct xs as [|y ys].
  - simpl String.concat in Hlen |- *. rewrite slength_app in Hlen. simpl in Hlen.
    rewrite (Hx Hwx f ("]" ++ t)) by (simpl; lia || reflexivity).
    reflexivity.
  - change (String.concat ", " (map dumps (x :: y :: ys)))
      with (dumps x ++ ", " ++ String.concat ", " (map dumps (y :: ys))) in Hlen |- *.
    rewrite !slength_app in Hlen.
    change (String.length ", ") with 2 in Hlen. change (String.length "]") with 1 in Hlen.
    rewrite !sapp_assoc.
    rewrite (Hx Hwx f) by (simpl; lia || reflexivity).
    remember (String.concat ", " (map dumps (y :: ys))) as C eqn:EC.
    destruct (concat_cons_app ", " (dumps y) (map dumps ys)) as [w Ew].
    destruct (dumps_head y) as (c & u & Eu & Hws & _).
    assert (HC : skip_ws (C ++ "]" ++ t) = (C ++ "]" ++ t)%string).
    { rewrite EC. simpl map. rewrite Ew, Eu. simpl append at 1. apply skip_ws_head, Hws. }
    change (skip_ws (", " ++ C ++ "]" ++ t))
      with (String "," (" " ++ C ++ "]" ++ t)).
    cbv beta iota. change (Nat.eqb (ord ",") 93) with false.
    change (Nat.eqb (ord ",") 44) with true. cbv beta iota.
    change (skip_ws (" " ++ C ++ "]" ++ t)) with (skip_ws (C ++ "]" ++ t)).
    rewrite HC, IH.
    + rewrite <- app_assoc. reflexivity.
    + discriminate.
    + exact Hxs.
    + exact Hwxs.
    + rewrite slength_app. simpl. lia.
Qed.

Lemma member_quote kv :
  member kv = String (chr 34) (escape (fst kv) ++ str1 (chr 34) ++ ": " ++ dumps (snd kv)).
Proof. unfold member, dump_str. rewrite !sapp_assoc. reflexivity. Qed.

Lemma string_cons_inj c x y : String c x = String c y -> x = y.
Proof. intros H. injection H. tauto. Qed.

Lemma pmembers_dumps kvs : forall acc f X t,
  kvs <> [] -> Forall (fun kv => decodes (snd kv)) kvs ->
  forallb (fun kv => json_wf (snd kv)) kvs = true ->
  keys_distinct (map fst kvs) = true ->
  Forall (fun kv => ~ In (fst kv) (map fst acc)) kvs ->
  String.concat ", " (map member kvs) = String (chr 34) X ->
  String.length (String.concat ", " (map member kvs) ++ "}") < S f ->
  pmembers f (X ++ "}" ++ t) acc = Some (JObj (acc ++ kvs)%list, t).
Proof.
  induction kvs as [|[k v] kvs IH]; intros acc f X t Hne Hd Hwf Hk Hfr EX Hlen;
    [congruence|].
  inversion Hd as [|? ? Hv Hds]; subst. cbn [snd] in Hv.
  simpl in Hwf. apply andb_prop in Hwf as [Hwv Hws].
  apply keys_distinct_cons in Hk as [Hkn Hks].
  inversion Hfr as [|? ? Hfk Hfrs]; subst. cbn [fst] in Hfk.
  destruct (dumps_head v) as (c & u & Eu & Hwsc & _).
  destruct kvs as [|kv2 kvs2].
  - change (String.concat ", " (map member [(k, v)])) with (member (k, v)) in EX, Hlen.
    rewrite member_quote in EX. apply string_cons_inj in EX. subst X.
    rewrite slength_app, member_quote in Hlen. cbn [fst snd] in Hlen.
    change (String.length (String (chr 34) ?x)) with (S (String.length x)) in Hlen.
    rewrite !slength_app in Hlen.
    change (String.length ": ") with 2 in Hlen.
    change (String.length "}") with 1 in Hlen.
    change (String.length (str1 (chr 34))) with 1 in Hlen.
    destruct f as [|f]; [lia|].
    cbn [fst snd]. rewrite !sapp_assoc, pmembers_S, pstring_escape.
    change (skip_ws (": " ++ ?r)) with (String ":" (" " ++ r)).
    cbv beta iota. change (Nat.eqb (ord ":") 58) with true. cbv beta iota.
    change (skip_ws (" " ++ ?r)) with (skip_ws r).
    assert (Hsk : skip_ws (dumps v ++ "}" ++ t) = (dumps v ++ "}" ++ t)%string)
      by (rewrite Eu; simpl append at 1; apply skip_ws_head, Hwsc).
    rewrite Hsk, (Hv Hwv f) by (lia || reflexivity).
    cbv beta iota zeta. rewrite (dict_set_fresh acc k v Hfk). reflexivity.
  - change (String.concat ", " (map member ((k, v) :: kv2 :: kvs2)))
      with (member (k, v) ++ ", " ++ String.concat ", " (map member (kv2 :: kvs2)))
      in EX, Hlen.
    rewrite member_quote in EX. cbn [fst snd] in EX.
    change (String (chr 34) ?x ++ ?y) with (String (chr 34) (x ++ y)) in EX.
    apply string_cons_inj in EX. subst X.
    rewrite !slength_app, member_quote in Hlen. cbn [fst snd] in Hlen.
    change (String.length (String (chr 34) ?x)) with (S (String.length x)) in Hlen.
    rewrite !slength_app in Hlen.
    change (String.length ": ") with 2 in Hlen.
    change (String.length ", ") with 2 in Hlen.
    change (String.length "}") with 1 in Hlen.
    change (String.length (str1 (chr 34))) with 1 in Hlen.
    destruct f as [|f]; [lia|].
    destruct (concat_cons_app ", " (member kv2) (map member kvs2)) as [w Ew].
    set (C2 := String.concat ", " (map member (kv2 :: kvs2))) in *.
    set (X2 := ((escape (fst kv2) ++ str1 (chr 34) ++ ": " ++ dumps (snd kv2)) ++ w)%string).
    assert (EX2 : C2 = String (chr 34) X2).
    { unfold C2, X2. change (map member (kv2 :: kvs2)) with (member kv2 :: map member kvs2).
      rewrite Ew, member_quote. reflexivity. }
    rewrite !sapp_assoc, pmembers_S, pstring_escape.
    change (skip_ws (": " ++ ?r)) with (String ":" (" " ++ r)).
    cbv beta iota. change (Nat.eqb (ord ":") 58) with true. cbv beta iota.
    change (skip_ws (" " ++ ?r)) with (skip_ws r).
    assert (Hsk : skip_ws (dumps v ++ ", " ++ C2 ++ "}" ++ t)
                  = (dumps v ++ ", " ++ C2 ++ "}" ++ t)%string)
      by (rewrite Eu; simpl append at 1; apply skip_ws_head, Hwsc).
    rewrite Hsk, (Hv Hwv f) by (lia || reflexivity).
    cbv beta iota zeta. rewrite (dict_set_fresh acc k v Hfk).
    change (skip_ws (", " ++ ?r)) with (String "," (" " ++ r)).
    cbv beta iota. change (Nat.eqb (ord ",") 125) with false.
    change (Nat.eqb (ord ",") 44) with true. cbv beta iota.
    change (skip_ws (" " ++ ?r)) with (skip_ws r).
    rewrite EX2.
    change (skip_ws (String (chr 34) X2 ++ "}" ++ t)) with (String (chr 34) (X2 ++ "}" ++ t)).
    cbv beta iota. change (Nat.eqb (ord (chr 34)) 34) with true. cbv beta iota.
    rewrite (IH (acc ++ [(k, v)])%list f X2 t).
    + rewrite <- app_assoc. reflexivity.
    + discriminate.
    + exact Hds.
    + exact Hws.
    + exact Hks.
    + apply Forall_forall. intros kv Hin. rewrite map_app, in_app_iff. simpl.
      rewrite Forall_forall in Hfrs. intros [Hin'|[Heq|[]]].
      * exact (Hfrs kv Hin Hin').
      * apply Hkn. cbn [fst]. rewrite Heq. exact (in_map fst _ _ Hin).
    + exact EX2.
    + rewrite slength_app. fold C2. change (String.length "}") with 1. lia.
Qed.

Lemma pvalue_dumps v : decodes v.
Proof.
  induction v as [| b | z | fl | s | xs IH | kvs IH] using json_ind';
    intros Hwf f t Hlen Ht; (destruct f as [|f]; [lia|]).
  - simpl. destruct t; reflexivity.
  - destruct b; simpl; destruct t; reflexivity.
  - destruct (dump_int_head z) as (c & u & E & Hc).
    change (dumps (JInt z)) with (dump_int z).
    rewrite E. change (String c u ++ t) with (String c (u ++ t)).
    rewrite pvalue_num_head
      by (destruct Hc as [Hc | (Hc & d & u' & -> & Hd)];
          [left; exact Hc | right; split; [exact Hc | exists d, (u' ++ t); split; [reflexivity | exact Hd]]]).
    change (String c (u ++ t)) with (String c u ++ t). rewrite <- E.
    apply pnumber_dump_int, Ht.
  - discriminate Hwf.
  - change (dumps (JStr s)) with (String (chr 34) (escape s ++ str1 (chr 34))).
    change (String (chr 34) ?x ++ ?y) with (String (chr 34) (x ++ y)).
    rewrite sapp_assoc, pvalue_S. cbv beta iota zeta.
    change (Nat.eqb (ord (chr 34)) 123) with false.
    change (Nat.eqb (ord (chr 34)) 91) with false.
    change (Nat.eqb (ord (chr 34)) 34) with true. cbv beta iota.
    rewrite pstring_escape. reflexivity.
  - simpl in Hwf.
    change (dumps (JArr xs)) with (String "[" (String.concat ", " (map dumps xs) ++ "]"))
      in Hlen |- *.
    change (String "[" ?x ++ ?y) with (String "[" (x ++ y)).
    change (String.length (String "[" ?x)) with (S (String.length x)) in Hlen.
    rewrite sapp_assoc, pvalue_S. cbv beta iota zeta.
    change (Nat.eqb (ord "[") 123) with false.
    change (Nat.eqb (ord "[") 91) with true. cbv beta iota.
    destruct xs as [|x xs']; [reflexivity|].
    destruct (concat_cons_app ", " (dumps x) (map dumps xs')) as [w Ew].
    destruct (dumps_head x) as (c & u & Eu & Hwsc & H93).
    assert (Hsk : skip_ws (String.concat ", " (map dumps (x :: xs')) ++ "]" ++ t)
                  = (String c (u ++ w) ++ "]" ++ t)%string).
    { change (map dumps (x :: xs')) with (dumps x :: map dumps xs').
      rewrite Ew, Eu. simpl append. apply skip_ws_head, Hwsc. }
    rewrite Hsk. change (String c (u ++ w) ++ "]" ++ t) with (String c ((u ++ w) ++ "]" ++ t)).
    cbv beta iota. rewrite H93.
    change (String c ((u ++ w) ++ "]" ++ t)) with (String c (u ++ w) ++ "]" ++ t).
    replace (String c (u ++ w)) with (String.concat ", " (map dumps (x :: xs')))
      by (change (map dumps (x :: xs')) with (dumps x :: map dumps xs');
          rewrite Ew, Eu; reflexivity).
    apply (pelements_dumps (x :: xs') [] f t); [discriminate | exact IH | exact Hwf | lia].
  - simpl in Hwf. apply andb_prop in Hwf as [Hk Hwf].
    change (dumps (JObj kvs)) with (String "{" (String.concat ", " (map member kvs) ++ "}"))
      in Hlen |- *.
    change (String "{" ?x ++ ?y) with (String "{" (x ++ y)).
    change (String.length (String "{" ?x)) with (S (String.length x)) in Hlen.
    rewrite sapp_assoc, pvalue_S. cbv beta iota zeta.
    change (Nat.eqb (ord "{") 123) with true. cbv beta iota.
    destruct kvs as [|kv kvs']; [reflexivity|].
    destruct (concat_cons_app ", " (member kv) (map member kvs')) as [w Ew].
    set (X := ((escape (fst kv) ++ str1 (chr 34) ++ ": " ++ dumps (snd kv)) ++ w)%string).
    assert (EX : String.concat ", " (map member (kv :: kvs')) = String (chr 34) X).
    { unfold X. change (map member (kv :: kvs')) with (member kv :: map member kvs').
      rewrite Ew, member_quote. reflexivity. }
    rewrite EX.
    change (skip_ws (String (chr 34) X ++ "}" ++ t)) with (String (chr 34) (X ++ "}" ++ t)).
    cbv beta iota. change (Nat.eqb (ord (chr 34)) 125) with false.
    change (Nat.eqb (ord (chr 34)) 34) with true. cbv beta iota.
    apply (pmembers_dumps (kv :: kvs') [] f X t); try assumption.
    + discriminate.
    + apply Forall_forall. intros ? _ [].
    + lia.
Qed.

Lemma loads_dumps_obj kvs :
  json_wf (JObj kvs) = true -> loads (dumps (JObj kvs)) = Some (JObj kvs).
Proof.
  intros Hwf. unfold loads.
  change (skip_ws (dumps (JObj kvs))) with (dumps (JObj kvs)).
  pose proof (pvalue_dumps (JObj kvs) Hwf (S (String.length (dumps (JObj kvs)))) ""
                (Nat.lt_succ_diag_r _) eq_refl) as H.
  rewrite sapp_nil_r in H. rewrite H. reflexivity.
Qed.

(** *** The brace scanner over any object text the decoder accepts *)

Lemma ord_chr c n : ord c = n -> c = chr n.
Proof. intros <-. symmetry. apply Ascii.ascii_nat_embedding. Qed.

Lemma ws_plain c : is_ws c = true -> negb (scan_special c) = true.
Proof. intros H. destruct c as [[] [] [] [] [] [] [] []]; vm_compute in H |- *; congruence. Qed.

Lemma hex_plain h : hex_val h <> None ->
  Nat.eqb (ord h) 92 = false /\ Nat.eqb (ord h) 34 = false.
Proof.
  intros H. destruct h as [[] [] [] [] [] [] [] []]; vm_compute in H |- *;
    first [split; reflexivity | exfalso; congruence].
Qed.

Lemma skip_ws_split s :
  exists w, s = (w ++ skip_ws s)%string /\
            all_chars (fun c => negb (scan_special c)) w = true.
Proof.
  induction s as [|c s IH]; [exists ""; split; reflexivity|].
  simpl skip_ws. destruct (is_ws c) eqn:E.
  - destruct IH as [w [Hw Hp]]. exists (String c w). simpl. split; [congruence|].
    rewrite Hp, (ws_plain c E). reflexivity.
  - exists "". split; reflexivity.
Qed.

(** A string literal read by [scanstring] is crossed by the scanner
    inside the string. *)
Lemma pstring_tail n : forall s r t, String.length s <= n -> pstring s = Some (r, t) ->
  exists u, s = (u ++ t)%string /\ forall d, string_tail d u.
Proof.
  induction n as [|n IH]; intros s r t Hn H.
  - destruct s; [discriminate | simpl in Hn; lia].
  - destruct s as [|c s']; [discriminate|]. simpl in H, Hn.
    destruct (Nat.eqb (ord c) 34) eqn:E34.
    + injection H as <- <-. exists (String c ""). split; [reflexivity|].
      intros d t' i. apply Nat.eqb_eq in E34. simpl. rewrite E34. reflexivity.
    + destruct (Nat.eqb (ord c) 92) eqn:E92.
      * destruct s' as [|e s'']; [discriminate|].
        destruct (Nat.eqb (ord e) 117) eqn:E117.
        -- destruct s'' as [|h1 [|h2 [|h3 [|h4 t0]]]]; try discriminate.
           destruct (decode_u h1 h2 h3 h4) eqn:Ed; [|discriminate].
           destruct (pstring t0) as [[r0 rest0]|] eqn:Ep; [|discriminate].
           injection H as <- <-.
           destruct (IH t0 r0 rest0) as [u0 [Hu0 Hs0]]; [simpl in Hn; lia | exact Ep|].
           assert (Hx : hex_val h1 <> None /\ hex_val h2 <> None /\
                        hex_val h3 <> None /\ hex_val h4 <> None).
           { unfold decode_u in Ed.
             destruct (hex_val h1), (hex_val h2), (hex_val h3), (hex_val h4);
               try discriminate; repeat split; discriminate. }
           destruct Hx as (X1 & X2 & X3 & X4).
           destruct (hex_plain h1 X1) as [A1 B1], (hex_plain h2 X2) as [A2 B2],
             (hex_plain h3 X3) as [A3 B3], (hex_plain h4 X4) as [A4 B4].
           exists (String c (String e (String h1 (String h2 (String h3 (String h4 u0)))))).
           split; [simpl; congruence|].
           intros d t' i. simpl. rewrite E92, A1, B1, A2, B2, A3, B3, A4, B4, Hs0.
           f_equal. lia.
        -- destruct (simple_escape e) eqn:Es; [|discriminate].
           destruct (pstring s'') as [[r0 rest0]|] eqn:Ep; [|discriminate].
           injection H as <- <-.
           destruct (IH s'' r0 rest0) as [u0 [Hu0 Hs0]]; [simpl in Hn; lia | exact Ep|].
           exists (String c (String e u0)). split; [simpl; congruence|].
           intros d t' i. simpl. rewrite E92, Hs0. f_equal. lia.
      * destruct (Nat.ltb (ord c) 32); [discriminate|].
        destruct (pstring s') as [[r0 rest0]|] eqn:Ep; [|discriminate].
        injection H as <- <-.
        destruct (IH s' r0 rest0) as [u0 [Hu0 Hs0]]; [lia | exact Ep|].
        exists (String c u0). split; [simpl; congruence|].
        intros d t' i. simpl. rewrite E92, E34, Hs0. f_equal. lia.
Qed.

Lemma plain_ord c : ord c <> 34 -> ord c <> 123 -> ord c <> 125 -> negb (scan_special c) = true.
Proof.
  intros H1 H2 H3. unfold scan_special.
  destruct (Nat.eqb_spec (ord c) 34); [lia|].
  destruct (Nat.eqb_spec (ord c) 123); [lia|].
  destruct (Nat.eqb_spec (ord c) 125); [lia|]. reflexivity.
Qed.

Lemma pdigits_split s acc :
  exists u, s = (u ++ snd (pdigits s acc))%string /\ all_chars is_digit u = true.
Proof.
  revert acc; induction s as [|c s IH]; intros acc; [exists ""; split; reflexivity|].
  simpl. destruct (is_digit c) eqn:E.
  - destruct (IH (acc * 10 + N.of_nat (ord c - 48))%N) as [u [Hu Hd]].
    exists (String c u). simpl. rewrite E, Hd. split; [congruence|reflexivity].
  - exists "". split; reflexivity.
Qed.

Lemma pdigits_k_split s acc k :
  exists u, s = (u ++ snd (pdigits_k s acc k))%string /\ all_chars is_digit u = true.
Proof.
  revert acc k; induction s as [|c s IH]; intros acc k; [exists ""; split; reflexivity|].
  simpl. destruct (is_digit c) eqn:E.
  - destruct (IH (acc * 10 + N.of_nat (ord c - 48))%N (S k)) as [u [Hu Hd]].
    exists (String c u). simpl. rewrite E, Hd. split; [congruence|reflexivity].
  - exists "". split; reflexivity.
Qed.

Lemma pnat_split s n r : pnat s = Some (n, r) ->
  exists u, s = (u ++ r)%string /\ all_chars (fun c => negb (scan_special c)) u = true.
Proof.
  unfold pnat. destruct s as [|c s']; [discriminate|].
  destruct (Nat.eqb (ord c) 48) eqn:E0.
  - intros H; injection H as <- <-. exists (String c "").
    apply Nat.eqb_eq in E0. split; [reflexivity|]. simpl. rewrite andb_true_r.
    apply plain_ord; lia.
  - destruct (is_digit c); [|discriminate]. intros H.
    destruct (pdigits_split (String c s') 0%N) as [u [Hu Hd]].
    assert (E : pdigits (String c s') 0%N = (n, r)) by congruence.
    rewrite E in Hu. exists u. split; [exact Hu|]. apply digits_plain, Hd.
Qed.

Lemma pfrac_split s : exists u, s = (u ++ snd (pfrac s))%string /\ all_chars (fun c => negb (scan_special c)) u = true.
Proof.
  unfold pfrac. destruct s as [|c [|d s0]]; try (exists ""; split; reflexivity).
  destruct (Nat.eqb (ord c) 46 && is_digit d)%bool eqn:E; [|exists ""; split; reflexivity].
  apply andb_prop in E as [E _]. apply Nat.eqb_eq in E.
  destruct (pdigits_k_split (String d s0) 0%N O) as [u [Hu Hd]].
  destruct (pdigits_k (String d s0) 0%N O) as [[f k] r]. simpl in Hu |- *.
  exists (String c u). simpl. rewrite <- Hu. split; [reflexivity|].
  rewrite (digits_plain _ Hd), andb_true_r. apply plain_ord; lia.
Qed.

Lemma pexp_split s : exists u, s = (u ++ snd (pexp s))%string /\ all_chars (fun c => negb (scan_special c)) u = true.
Proof.
  unfold pexp. destruct s as [|c r]; [exists ""; split; reflexivity|].
  destruct (Nat.eqb (ord c) 101 || Nat.eqb (ord c) 69)%bool eqn:E;
    [|exists ""; split; reflexivity].
  assert (Pc : negb (scan_special c) = true).
  { apply orb_true_iff in E as [E|E]; apply Nat.eqb_eq in E; apply plain_ord; lia. }
  assert (Hs : exists sg, r = (sg ++ snd (match r with
          | String d r' =>
              if Nat.eqb (ord d) 45 then (true, r')
              else if Nat.eqb (ord d) 43 then (false, r')
              else (false, r)
          | EmptyString => (false, r)
          end))%string /\ all_chars (fun c => negb (scan_special c)) sg = true).
  { destruct r as [|d r']; [exists ""; split; reflexivity|].
    destruct (Nat.eqb (ord d) 45) eqn:E1; [|destruct (Nat.eqb (ord d) 43) eqn:E2].
    - exists (String d ""). apply Nat.eqb_eq in E1. split; [reflexivity|].
      simpl. rewrite andb_true_r. apply plain_ord; lia.
    - exists (String d ""). apply Nat.eqb_eq in E2. split; [reflexivity|].
      simpl. rewrite andb_true_r. apply plain_ord; lia.
    - exists ""; split; reflexivity. }
  destruct Hs as [sg [Hsg Psg]].
  destruct (match r with
          | String d r' =>
              if Nat.eqb (ord d) 45 then (true, r')
              else if Nat.eqb (ord d) 43 then (false, r')
              else (false, r)
          | EmptyString => (false, r)
          end) as [neg r1]. simpl in Hsg.
  destruct r1 as [|d r2]; [exists ""; split; reflexivity|].
  destruct (is_digit d); [|exists ""; split; reflexivity].
  destruct (pdigits_split (String d r2) 0%N) as [u [Hu Hd]].
  destruct (pdigits (String d r2) 0%N) as [x r3]. simpl in Hu |- *.
  exists (String c (sg ++ u)). simpl. split; [rewrite sapp_assoc; congruence|].
  rewrite Pc, all_chars_app, Psg, (digits_plain _ Hd). reflexivity.
Qed.

(** A number holds no quote and no brace. *)
Lemma pnumber_split s v t : pnumber s = Some (v, t) ->
  exists u, s = (u ++ t)%string /\ all_chars (fun c => negb (scan_special c)) u = true.
Proof.
  unfold pnumber. intros H.
  assert (Hs : exists sg, s = (sg ++ snd (match s with
    | String c s' => if Nat.eqb (ord c) 45 then (true, s') else (false, s)
    | EmptyString => (false, s) end))%string /\ all_chars (fun c => negb (scan_special c)) sg = true).
  { destruct s as [|c s']; [exists ""; split; reflexivity|].
    destruct (Nat.eqb (ord c) 45) eqn:E1; [|exists ""; split; reflexivity].
    exists (String c ""). apply Nat.eqb_eq in E1. split; [reflexivity|].
    simpl. rewrite andb_true_r. apply plain_ord; lia. }
  destruct Hs as [sg [Hsg Psg]].
  destruct (match s with
    | String c s' => if Nat.eqb (ord c) 45 then (true, s') else (false, s)
    | EmptyString => (false, s) end) as [neg body]. simpl in Hsg.
  destruct (pnat body) as [[n rest]|] eqn:En; [|discriminate].
  destruct (pnat_split _ _ _ En) as [u1 [Hu1 P1]].
  destruct (pfrac_split rest) as [u2 [Hu2 P2]].
  destruct (pfrac rest) as [fr rest1]. simpl in Hu2.
  destruct (pexp_split rest1) as [u3 [Hu3 P3]].
  destruct (pexp rest1) as [ex rest2]. simpl in Hu3.
  assert (Hfl : exists u, s = (u ++ rest2)%string /\ all_chars (fun c => negb (scan_special c)) u = true).
  { exists (sg ++ u1 ++ u2 ++ u3). rewrite !all_chars_app, Psg, P1, P2, P3.
    split; [|reflexivity]. rewrite Hsg, Hu1, Hu2, Hu3, !sapp_assoc. reflexivity. }
  destruct fr, ex.
  - destruct p. injection H as <- <-. exact Hfl.
  - destruct p. injection H as <- <-. exact Hfl.
  - injection H as <- <-. exact Hfl.
  - injection H as <- <-. exists (sg ++ u1). rewrite all_chars_app, Psg, P1.
    split; [|reflexivity]. rewrite Hsg, Hu1, sapp_assoc. reflexivity.
Qed.

Lemma startswith_drop s p : startswith s p = true -> s = (p ++ drop (String.length p) s)%string.
Proof. intros H. apply startswith_spec in H as [b ->]. rewrite drop_app. reflexivity. Qed.

Lemma transparent_quote d u : string_tail d u -> scan_transparent d (String "034" u).
Proof. intros Hu t i. simpl. rewrite Hu. f_equal. lia. Qed.

Lemma string_tail_app d u w :
  string_tail d u -> scan_transparent d w -> string_tail d (u ++ w).
Proof.
  intros Hu Hw t i. rewrite sapp_assoc, Hu, Hw, slength_app. f_equal. lia.
Qed.

Lemma transparent_braces d u : (0 < d)%Z ->
  scan_transparent (d + 1) u -> scan_transparent d (String "{" (u ++ "}")).
Proof.
  intros Hd Hu t i. change (String "{" ?x ++ ?y) with (String "{" (x ++ y)).
  rewrite sapp_assoc. simpl scan at 1. rewrite Hu. simpl scan.
  replace (d + 1 - 1 =? 0)%Z with false by (symmetry; apply Z.eqb_neq; lia).
  replace (d + 1 - 1)%Z with d by lia.
  simpl String.length. rewrite slength_app. simpl. f_equal. lia.
Qed.

(** The members of an object, up to its closing brace, are crossed by
    the scanner at any positive depth. *)
Lemma obj_body_split f r v t
  (Hm : forall s acc v t, pmembers f s acc = Some (v, t) ->
        exists u, s = (u ++ String "}" t)%string /\ forall d, (0 < d)%Z -> string_tail d u) :
  pvalue (S f) (String "{" r) = Some (v, t) ->
  exists u, r = (u ++ String "}" t)%string /\ forall d, (0 < d)%Z -> scan_transparent d u.
Proof.
  intros H. rewrite pvalue_S in H. cbv zeta in H.
  change (Nat.eqb (ord "{") 123) with true in H. cbv iota in H.
  destruct (skip_ws_split r) as [w [Hw Pw]].
  destruct (skip_ws r) as [|d r'] eqn:Es; [discriminate|].
  destruct (Nat.eqb (ord d) 125) eqn:E1.
  - injection H as <- <-. apply Nat.eqb_eq, ord_chr in E1. subst d.
    exists w. split; [exact Hw|]. intros d0 _. apply transparent_plain, Pw.
  - destruct (Nat.eqb (ord d) 34) eqn:E2; [|discriminate].
    apply Nat.eqb_eq, ord_chr in E2. subst d.
    destruct (Hm _ _ _ _ H) as [u [Hu Tu]].
    exists (w ++ String "034" u). split.
    + rewrite Hw, Hu, !sapp_assoc. reflexivity.
    + intros d0 Hd0. apply transparent_app; [apply transparent_plain, Pw|].
      apply transparent_quote, Tu, Hd0.
Qed.

(** What the decoder consumes leaves the scanner's depth unchanged. *)
Lemma parse_transparent f :
  (forall s v t, pvalue f s = Some (v, t) ->
     exists u, s = (u ++ t)%string /\ forall d, (0 < d)%Z -> scan_transparent d u) /\
  (forall s acc v t, pmembers f s acc = Some (v, t) ->
     exists u, s = (u ++ String "}" t)%string /\ forall d, (0 < d)%Z -> string_tail d u) /\
  (forall s acc v t, pelements f s acc = Some (v, t) ->
     exists u, s = (u ++ t)%string /\ forall d, (0 < d)%Z -> scan_transparent d u).
Proof.
  induction f as [|f IH]; [split; [|split]; intros; discriminate|].
  destruct IH as (IHv & IHm & IHe). split; [|split].
  - intros s v t H. destruct s as [|c r]; [discriminate|].
    destruct (Nat.eqb (ord c) 123) eqn:E1.
    { apply Nat.eqb_eq, ord_chr in E1. subst c.
      destruct (obj_body_split f r v t IHm H) as [u [Hu Tu]].
      exists (String "{" (u ++ "}")). split.
      - rewrite Hu. simpl. rewrite sapp_assoc. reflexivity.
      - intros d Hd. apply transparent_braces; [exact Hd|]. apply Tu. lia. }
    rewrite pvalue_S in H. cbv zeta in H. rewrite E1 in H.
    destruct (Nat.eqb (ord c) 91) eqn:E2.
    { apply Nat.eqb_eq in E2.
      destruct (skip_ws_split r) as [w [Hw Pw]].
      destruct (skip_ws r) as [|d r'] eqn:Es; [discriminate|].
      destruct (Nat.eqb (ord d) 93) eqn:E3.
      - injection H as <- <-. apply Nat.eqb_eq in E3.
        exists (String c (w ++ String d "")). split.
        + rewrite Hw at 1. simpl. rewrite sapp_assoc. reflexivity.
        + intros d0 _. apply transparent_plain. simpl.
          rewrite all_chars_app, Pw. simpl.
          rewrite (plain_ord c), (plain_ord d) by lia. reflexivity.
      - destruct (IHe _ _ _ _ H) as [u [Hu Tu]].
        exists (String c (w ++ u)). split.
        + rewrite Hw at 1. rewrite Hu. simpl. rewrite sapp_assoc. reflexivity.
        + intros d0 Hd0. change (String c (w ++ u)) with (String c "" ++ (w ++ u)).
          apply transparent_app; [apply transparent_plain; simpl;
            rewrite (plain_ord c) by lia; reflexivity|].
          apply transparent_app; [apply transparent_plain, Pw | apply Tu, Hd0]. }
    destruct (Nat.eqb (ord c) 34) eqn:E3.
    { apply Nat.eqb_eq, ord_chr in E3. subst c.
      destruct (pstring r) as [[st r']|] eqn:Ep; [|discriminate].
      injection H as <- <-.
      destruct (pstring_tail _ r st r' (le_n _) Ep) as [u [Hu Tu]].
      exists (String "034" u). split; [rewrite Hu; reflexivity|].
      intros d _. apply transparent_quote, Tu. }
    assert (Lit : forall p, startswith (String c r) p = true ->
                  all_chars (fun c => negb (scan_special c)) p = true ->
                  exists u, String c r = (u ++ drop (String.length p) (String c r))%string /\
                            forall d, (0 < d)%Z -> scan_transparent d u).
    { intros p Hs Hp. exists p. split; [apply startswith_drop, Hs|].
      intros d _. apply transparent_plain, Hp. }
    destruct (startswith (String c r) "null") eqn:L1;
      [injection H as <- <-; exact (Lit _ L1 eq_refl)|].
    destruct (startswith (String c r) "true") eqn:L2;
      [injection H as <- <-; exact (Lit _ L2 eq_refl)|].
    destruct (startswith (String c r) "false") eqn:L3;
      [injection H as <- <-; exact (Lit _ L3 eq_refl)|].
    destruct (startswith (String c r) "NaN") eqn:L4;
      [injection H as <- <-; exact (Lit _ L4 eq_refl)|].
    destruct (startswith (String c r) "Infinity") eqn:L5;
      [injection H as <- <-; exact (Lit _ L5 eq_refl)|].
    destruct (startswith (String c r) "-Infinity") eqn:L6;
      [injection H as <- <-; exact (Lit _ L6 eq_refl)|].
    destruct (pnumber_split _ _ _ H) as [u [Hu Pu]].
    exists u. split; [exact Hu|]. intros d _. apply transparent_plain, Pu.
  - intros s acc v t H. rewrite pmembers_S in H.
    destruct (pstring s) as [[key s1]|] eqn:Ep; [|discriminate].
    destruct (pstring_tail _ s key s1 (le_n _) Ep) as [u1 [Hu1 T1]].
    destruct (skip_ws_split s1) as [w1 [Hw1 P1]].
    destruct (skip_ws s1) as [|col s2] eqn:Es1; [discriminate|].
    destruct (Nat.eqb (ord col) 58) eqn:Ec; [|discriminate].
    apply Nat.eqb_eq in Ec.
    destruct (skip_ws_split s2) as [w2 [Hw2 P2]].
    destruct (pvalue f (skip_ws s2)) as [[v0 s3]|] eqn:Ev; [|discriminate].
    destruct (IHv _ _ _ Ev) as [u3 [Hu3 T3]].
    destruct (skip_ws_split s3) as [w3 [Hw3 P3]].
    destruct (skip_ws s3) as [|dd s4] eqn:Es3; [discriminate|].
    assert (Pcol : all_chars (fun c => negb (scan_special c)) (String col "") = true)
      by (simpl; rewrite (plain_ord col) by lia; reflexivity).
    destruct (Nat.eqb (ord dd) 125) eqn:Eb.
    + injection H as <- <-. apply Nat.eqb_eq, ord_chr in Eb. subst dd.
      exists (u1 ++ w1 ++ String col "" ++ w2 ++ u3 ++ w3). split.
      * rewrite Hu1, Hw1, Hw2, Hu3, Hw3, !sapp_assoc. reflexivity.
      * intros d Hd. apply string_tail_app; [apply T1|].
        repeat apply transparent_app; first [apply transparent_plain; assumption | apply T3, Hd].
    + destruct (Nat.eqb (ord dd) 44) eqn:Ecm; [|discriminate].
      apply Nat.eqb_eq in Ecm.
      destruct (skip_ws_split s4) as [w4 [Hw4 P4]].
      destruct (skip_ws s4) as [|q s5] eqn:Es4; [discriminate|].
      destruct (Nat.eqb (ord q) 34) eqn:Eq; [|discriminate].
      apply Nat.eqb_eq, ord_chr in Eq. subst q.
      destruct (IHm _ _ _ _ H) as [u5 [Hu5 T5]].
      assert (Pdd : all_chars (fun c => negb (scan_special c)) (String dd "") = true)
        by (simpl; rewrite (plain_ord dd) by lia; reflexivity).
      exists (u1 ++ w1 ++ String col "" ++ w2 ++ u3 ++ w3 ++ String dd "" ++ w4
                 ++ String "034" u5).
      split.
      * rewrite Hu1, Hw1, Hw2, Hu3, Hw3, Hw4, Hu5, !sapp_assoc. reflexivity.
      * intros d Hd. apply string_tail_app; [apply T1|].
        repeat apply transparent_app;
          first [apply transparent_plain; assumption | apply T3, Hd
                | apply transparent_quote, T5, Hd].
  - intros s acc v t H. rewrite pelements_S in H.
    destruct (pvalue f s) as [[v0 s1]|] eqn:Ev; [|discriminate].
    destruct (IHv _ _ _ Ev) as [u1 [Hu1 T1]].
    destruct (skip_ws_split s1) as [w1 [Hw1 P1]].
    destruct (skip_ws s1) as [|dd s2] eqn:Es1; [discriminate|].
    destruct (Nat.eqb (ord dd) 93) eqn:Eb.
    + injection H as <- <-. apply Nat.eqb_eq in Eb.
      exists (u1 ++ w1 ++ String dd ""). split.
      * rewrite Hu1, Hw1, !sapp_assoc. reflexivity.
      * intros d Hd. apply transparent_app; [apply T1, Hd|].
        apply transparent_app; apply transparent_plain; [exact P1|].
        simpl. rewrite (plain_ord dd) by lia. reflexivity.
    + destruct (Nat.eqb (ord dd) 44) eqn:Ecm; [|discriminate].
      apply Nat.eqb_eq in Ecm.
      destruct (skip_ws_split s2) as [w2 [Hw2 P2]].
      destruct (IHe _ _ _ _ H) as [u4 [Hu4 T4]].
      exists (u1 ++ w1 ++ String dd "" ++ w2 ++ u4). split.
      * rewrite Hu1, Hw1, Hw2, Hu4, !sapp_assoc. reflexivity.
      * intros d Hd. apply transparent_app; [apply T1, Hd|].
        apply transparent_app; [apply transparent_plain, P1|].
        apply transparent_app; [apply transparent_plain; simpl;
          rewrite (plain_ord dd) by lia; reflexivity|].
        apply transparent_app; [apply transparent_plain, P2 | apply T4, Hd].
Qed.

Lemma skip_ws_brace_end a : skip_ws (a ++ "}") <> "".
Proof.
  induction a as [|c a IH]; [discriminate|]. simpl. destruct (is_ws c); [exact IH|discriminate].
Qed.

Lemma brace_end_suffix x y t : (x ++ "}")%string = (y ++ t)%string ->
  t = "" \/ exists t0, t = (t0 ++ "}")%string.
Proof.
  revert x; induction y as [|c y IH]; intros x H.
  - right. exists x. symmetry. exact H.
  - destruct x as [|c' x].
    + simpl in H. injection H as _ H. destruct y; [left; symmetry; exact H | discriminate].
    + simpl in H. injection H as _ H. exact (IH x H).
Qed.

(** C3: when the fence-stripped text is [pre], then the text of an
    object [{...}] that [json.loads] decodes (compact or indented, with
    floats, and with braces and quotes inside string values), then [rest],
    with no [{] in [pre], the extractor returns that object and [rest]
    stripped of surrounding whitespace. *)
Theorem extract_roundtrip text pre body kvs rest
  (Hc : strip_code_fences text = (pre ++ String "{" (body ++ "}") ++ rest)%string)
  (Hpre : contains pre "{" = false)
  (Hl : loads (String "{" (body ++ "}")) = Some (JObj kvs)) :
  extract_first_json_object text = inl (kvs, strip rest).
Proof.
  set (cand := String "{" (body ++ "}")) in *.
  assert (Hl' := Hl). unfold loads in Hl'.
  change (skip_ws cand) with cand in Hl'.
  destruct (pvalue (S (String.length cand)) cand) as [[v t]|] eqn:Ep; [|discriminate].
  destruct (skip_ws t) eqn:Et; [|discriminate].
  destruct (obj_body_split _ _ _ _ (proj1 (proj2 (parse_transparent _))) Ep)
    as [u [Hu Tu]].
  assert (Ht : t = "").
  { destruct (brace_end_suffix body (u ++ "}") t) as [->|[t0 ->]];
      [rewrite Hu, sapp_assoc; reflexivity | reflexivity |].
    exfalso. exact (skip_ws_brace_end t0 Et). }
  subst t.
  assert (Hcand : cand = String "{" (u ++ "}")) by (unfold cand; rewrite Hu; reflexivity).
  clearbody cand. subst cand.
  unfold extract_first_json_object. rewrite Hc.
  change (String "{" (u ++ "}") ++ rest)%string with (String "{" ((u ++ "}") ++ rest)).
  rewrite (find_char_app pre _ "{" Hpre), drop_app, sapp_assoc. simpl scan at 1. rewrite (Tu 1%Z ltac:(lia)). simpl scan.
  cbv beta iota zeta.
  replace (S (String.length u + S (String.length pre)) - String.length pre)
    with (String.length (String "{" (u ++ "}"))) by (cbn [String.length]; rewrite slength_app; cbn [String.length]; lia).
  replace (S (String.length u + S (String.length pre)))
    with (String.length pre + String.length (String "{" (u ++ "}")))
    by (cbn [String.length]; rewrite slength_app; cbn [String.length]; lia).
  rewrite <- sapp_assoc.
  change (String "{" ((u ++ "}") ++ rest)) with (String "{" (u ++ "}") ++ rest)%string.
  rewrite take_app, drop_app_plus, drop_app, Hl. reflexivity.
Qed.

End JsonFacts.


Module ExtraStr.
Import PyStr StrFacts JsonSpecs.

Lemma lower_char_idem (c : ascii) : lower_char (lower_char c) = lower_char c.
Proof. destruct c as [[] [] [] [] [] [] [] []]; reflexivity. Qed.

Lemma lower_idem (s : string) : lower (lower s) = lower s.
Proof. induction s as [|c s IH]; simpl; [reflexivity|]. now rewrite lower_char_idem, IH. Qed.

Lemma strip_idem (s : string) : strip (strip s) = strip s.
Proof.
  destruct (strip_fixed s) as [Hr Hl].
  unfold strip at 1. rewrite Hr. exact Hl.
Qed.

(** Leading whitespace does not survive [strip]. *)
Lemma strip_space_l (a y : string) :
  all_chars isspace a = true -> strip (a ++ y) = strip y.
Proof.
  unfold strip. induction a as [|c a IH]; intros H; [reflexivity|].
  simpl in H. apply andb_prop in H as [Hc Ha].
  change (String c a ++ y)%string with (String c (a ++ y)).
  rewrite rstrip_cons. destruct (rstrip (a ++ y)) as [|d r] eqn:E.
  - rewrite Hc. exact (IH Ha).
  - change (lstrip (String c (String d r))) with (if isspace c then lstrip (String d r) else String c (String d r)).
    rewrite Hc. exact (IH Ha).
Qed.

Lemma rstrip_space_r (x b : string) :
  all_chars isspace b = true -> rstrip (x ++ b) = rstrip x.
Proof.
  intros Hb.
  assert (Eb : rstrip b = "").
  { clear x. induction b as [|c b IH]; [reflexivity|]. simpl in Hb.
    apply andb_prop in Hb as [Hc Hb]. rewrite rstrip_cons, IH by exact Hb.
    now rewrite Hc. }
  induction x as [|c x IH]; [exact Eb|].
  simpl. rewrite IH. reflexivity.
Qed.

Lemma strip_space (a s b : string) :
  all_chars isspace a = true -> all_chars isspace b = true ->
  strip (a ++ s ++ b) = strip s.
Proof.
  intros Ha Hb. rewrite strip_space_l by exact Ha.
  unfold strip. rewrite rstrip_space_r by exact Hb. reflexivity.
Qed.

(** [startswith] past a character that the needle does not hold. *)
Lemma startswith_app_sep (x y t : string) (d : ascii) :
  all_chars (fun c => negb (Ascii.eqb c d)) t = true ->
  startswith (x ++ String d y) t = startswith x t.
Proof.
  revert x. induction t as [|a t IH]; intros x Ht; [destruct (x ++ String d y)%string, x; reflexivity|].
  simpl in Ht. apply andb_prop in Ht as [Ha Ht].
  destruct x as [|c x]; simpl.
  - destruct (Ascii.eqb a d); [discriminate | reflexivity].
  - rewrite IH by exact Ht. reflexivity.
Qed.

Lemma contains_app_sep (x y t : string) (d : ascii) :
  t <> "" -> all_chars (fun c => negb (Ascii.eqb c d)) t = true ->
  contains (x ++ String d y) t = (contains x t || contains (String d y) t)%bool.
Proof.
  intros Hne Ht. induction x as [|c x IH].
  - simpl (contains "" t). destruct t; [congruence|]. reflexivity.
  - change ((String c x ++ String d y)%string) with (String c (x ++ String d y)).
    rewrite contains_unfold, (contains_unfold (String c x)).
    change (String c (x ++ String d y)) with ((String c x ++ String d y)%string).
    rewrite startswith_app_sep by exact Ht. rewrite IH.
    destruct (startswith (String c x) t); reflexivity.
Qed.

Lemma contains_app_l (x y t : string) :
  contains x t = true -> contains (x ++ y) t = true.
Proof.
  rewrite !contains_spec. intros [a [b ->]]. exists a, (b ++ y)%string.
  now rewrite !sapp_assoc.
Qed.

Lemma substring_prefix (n : nat) (s : string) :
  exists r, s = (substring 0 n s ++ r)%string.
Proof.
  revert s; induction n as [|n IH]; intros s.
  - exists s. destruct s; reflexivity.
  - destruct s as [|c s]; [exists ""; reflexivity|].
    destruct (IH s) as [r Hr]. exists r. simpl. congruence.
Qed.

Lemma substring_length (n : nat) (s : string) :
  n <= String.length s -> String.length (substring 0 n s) = n.
Proof.
  revert s; induction n as [|n IH]; intros s H; [destruct s; reflexivity|].
  destruct s as [|c s]; simpl in H; [lia|]. simpl. rewrite IH; lia.
Qed.

Lemma substring_app (a b : string) :
  substring 0 (String.length a) (a ++ b) = a.
Proof.
  induction a as [|c a IH]; [destruct b; reflexivity|].
  simpl. rewrite IH. reflexivity.
Qed.

End ExtraStr.

Module ExtraRedact.
Import PyStr Logger StrFacts JsonSpecs ExtraStr RedactFacts.

Section PyvalInd.
Variable P : pyval -> Prop.
Hypothesis HNone : P PNone.
Hypothesis HBool : forall b, P (PBool b).
Hypothesis HInt : forall z, P (PInt z).
Hypothesis HStr : forall s, P (PStr s).
Hypothesis HList : forall xs, Forall P xs -> P (PList xs).
Hypothesis HTuple : forall xs, P (PTuple xs).
Hypothesis HDict : forall kvs, Forall (fun kv => P (snd kv)) kvs -> P (PDict kvs).

Lemma pyval_ind' : forall v, P v.
Proof.
  fix IH 1. intros [| b | z | s | xs | xs | kvs].
  - exact HNone.
  - apply HBool.
  - apply HInt.
  - apply HStr.
  - apply HList.
    exact ((fix go (l : list pyval) : Forall P l :=
              match l with
              | [] => Forall_nil _
              | x :: l' => Forall_cons _ (IH x) (go l')
              end) xs).
  - apply HTuple.
  - apply HDict.
    exact ((fix go (l : list (string * pyval)) : Forall (fun kv => P (snd kv)) l :=
              match l with
              | [] => Forall_nil _
              | kv :: l' => Forall_cons _ (IH (snd kv)) (go l')
              end) kvs).
Qed.
End PyvalInd.

Lemma sensitive_truncated (s : string) :
  sensitive s = false -> sensitive (substring 0 2000 s ++ TRUNCATED) = false.
Proof.
  unfold sensitive. intros H.
  destruct (substring_prefix 2000 s) as [r Hr].
  rewrite Hr, lower_app in H. rewrite lower_app.
  change (lower TRUNCATED) with (String "." "..[truncated]").
  simpl in H |- *.
  repeat rewrite orb_false_iff in H. repeat rewrite orb_false_iff.
  destruct H as (H1 & H2 & H3 & H4 & _).
  repeat rewrite contains_app_sep by (discriminate || reflexivity).
  repeat split;
    match goal with
    | |- (contains ?x ?t || _)%bool = false =>
        destruct (contains x t) eqn:E;
        [ match goal with
          | H : contains (x ++ _) t = false |- _ =>
              rewrite (contains_app_l _ _ _ E) in H; discriminate
          end
        | reflexivity ]
    end.
Qed.

Lemma safe_str_cases (s : string) :
  safe_value (PStr s) = PStr REDACTED \/
  (sensitive s = false /\ 2000 < String.length s /\
   safe_value (PStr s) = PStr (substring 0 2000 s ++ TRUNCATED)) \/
  (sensitive s = false /\ String.length s <= 2000 /\ safe_value (PStr s) = PStr s).
Proof.
  simpl. destruct (sensitive s) eqn:Es; [left; reflexivity|right].
  destruct (Nat.ltb_spec 2000 (String.length s)); [left | right]; auto.
Qed.

(** Every string the sanitizer lets through at a position reached by
    mapping keys and list indices is the redaction marker or a string of
    at most 2014 characters with no sensitive word in it. A tuple is not
    one of the types [_safe_value] walks into: it comes back unchanged,
    strings inside it included. *)
Theorem safe_value_strings :
  (forall p v s, path_get p (safe_value v) = Some (PStr s) ->
     s = REDACTED \/ (sensitive s = false /\ String.length s <= 2014)) /\
  (forall xs, safe_value (PTuple xs) = PTuple xs).
Proof.
  split; [|intros; reflexivity]. intros p.
  induction p as [|[k|i] p IH]; intros v s H.
  - cbn [path_get] in H. injection H as H. destruct v; try discriminate.
    destruct (safe_str_cases s0) as [E | [(Hs & Hl & E) | (Hs & Hl & E)]];
      rewrite E in H; injection H as <-.
    + left; reflexivity.
    + right. split; [apply sensitive_truncated, Hs|].
      rewrite slength_app, substring_length by lia. simpl. lia.
    + right. split; [exact Hs | lia].
  - destruct v; simpl in H; try discriminate.
    + destruct (sensitive s0); [discriminate|].
      destruct (Nat.ltb 2000 (String.length s0)); discriminate.
    + rewrite dict_get_map in H. destruct (dict_get kvs k); [|discriminate].
      exact (IH _ _ H).
  - destruct v; simpl in H; try discriminate.
    + destruct (sensitive s0); [discriminate|].
      destruct (Nat.ltb 2000 (String.length s0)); discriminate.
    + rewrite nth_error_map in H. destruct (nth_error xs i); [|discriminate].
      exact (IH _ _ H).
Qed.

(** Sanitizing twice is sanitizing once. *)
Theorem safe_value_idem v : safe_value (safe_value v) = safe_value v.
Proof.
  induction v as [| b | z | s | xs IH | xs | kvs IH] using pyval_ind'; try reflexivity.
  - destruct (safe_str_cases s) as [E | [(Hs & Hl & E) | (Hs & Hl & E)]]; rewrite E.
    + reflexivity.
    + simpl. rewrite sensitive_truncated by exact Hs.
      rewrite slength_app, substring_length by lia.
      change (String.length TRUNCATED) with 14.
      replace (Nat.ltb 2000 (2000 + 14)) with true by reflexivity.
      pose proof (substring_app (substring 0 2000 s) TRUNCATED) as Hsub.
      rewrite substring_length in Hsub by lia. rewrite Hsub. reflexivity.
    + exact E.
  - simpl. rewrite map_map. f_equal. induction IH as [|x xs Hx _ IH']; simpl; congruence.
  - simpl. rewrite map_map. f_equal. induction IH as [|[k x] kvs Hx _ IH']; simpl in *; congruence.
Qed.

End ExtraRedact.


Module ExtraModes.
Import PyStr StrFacts JsonSpecs ExtraStr Modes.

Lemma first_hint_spec (hs : list string) (s h : string) :
  first_hint hs s = Some h -> In h hs /\ contains s h = true.
Proof.
  induction hs as [|h0 hs IH]; simpl; [discriminate|].
  destruct (contains s h0) eqn:E.
  - intros [= <-]. auto.
  - intros H. destruct (IH H). auto.
Qed.

Lemma first_hint_none (hs : list string) (s : string) :
  first_hint hs s = None <-> forall h, In h hs -> contains s h = false.
Proof.
  induction hs as [|h0 hs IH]; simpl; [split; [contradiction | reflexivity]|].
  destruct (contains s h0) eqn:E; split.
  - discriminate.
  - intros H. rewrite H in E by auto. discriminate.
  - intros H h [<-|Hin]; [exact E | apply IH; auto].
  - intros H. apply IH. auto.
Qed.

Lemma first_hint_first (hs : list string) (s h : string) :
  first_hint hs s = Some h ->
  exists pre post, hs = (pre ++ h :: post)%list /\ contains s h = true /\
    forall h', In h' pre -> contains s h' = false.
Proof.
  induction hs as [|h0 hs IH]; simpl; [discriminate|].
  destruct (contains s h0) eqn:E.
  - intros [= <-]. exists [], hs. split; [reflexivity|]. split; [exact E|].
    intros _ [].
  - intros H. destruct (IH H) as (pre & post & -> & Hc & Hpre).
    exists (h0 :: pre), post. split; [reflexivity|]. split; [exact Hc|].
    intros h' [<-|Hin]; auto.
Qed.

(** [detect_mode] answers ["chat"] with reason ["default"] exactly when
    no plan hint and no code hint occurs in the stripped, lower-cased
    prompt; otherwise it answers ["plan"] naming the first hint found in
    list order: the first plan hint that occurs, or, when no plan hint
    occurs, the first code hint that occurs. *)
Theorem detect_mode_decision (s : string) :
  let n := lower (strip s) in
  (dm_mode (detect_mode s) = "chat" /\ dm_reason (detect_mode s) = "default" /\
   forall h, In h (PLAN_HINTS ++ CODE_HINTS) -> contains n h = false) \/
  (dm_mode (detect_mode s) = "plan" /\
   exists h pre post,
     (contains n h = true /\ forall h', In h' pre -> contains n h' = false) /\
     ((PLAN_HINTS = (pre ++ h :: post)%list /\
       dm_reason (detect_mode s) = "matched_hint:" ++ h) \/
      (CODE_HINTS = (pre ++ h :: post)%list /\
       dm_reason (detect_mode s) = "matched_code_hint:" ++ h /\
       forall h', In h' PLAN_HINTS -> contains n h' = false))).
Proof.
  intros n. unfold detect_mode. fold n.
  destruct (first_hint PLAN_HINTS n) as [h|] eqn:E1.
  - right. destruct (first_hint_first _ _ _ E1) as (pre & post & Hl & Hc & Hpre).
    split; [reflexivity|]. exists h, pre, post. split; [split; assumption|].
    left. split; [exact Hl | reflexivity].
  - destruct (first_hint CODE_HINTS n) as [h|] eqn:E2.
    + right. destruct (first_hint_first _ _ _ E2) as (pre & post & Hl & Hc & Hpre).
      split; [reflexivity|]. exists h, pre, post. split; [split; assumption|].
      right. split; [exact Hl|]. split; [reflexivity|].
      apply first_hint_none, E1.
    + left. split; [reflexivity|]. split; [reflexivity|].
      intros h Hin. apply in_app_or in Hin as [Hin|Hin].
      * apply (proj1 (first_hint_none _ _) E1), Hin.
      * apply (proj1 (first_hint_none _ _) E2), Hin.
Qed.

(** [detect_mode] ignores letter case and surrounding whitespace. *)
Theorem detect_mode_case_space (s t a b : string) :
  lower s = lower t ->
  all_chars isspace a = true -> all_chars isspace b = true ->
  detect_mode s = detect_mode t /\ detect_mode (a ++ s ++ b) = detect_mode s.
Proof.
  intros Hst Ha Hb. split.
  - unfold detect_mode. rewrite !lower_strip, Hst. reflexivity.
  - unfold detect_mode. rewrite strip_space by assumption. reflexivity.
Qed.

End ExtraModes.

Module ExtraLogger.
Import Logger.

Lemma dict_get_set {A} (d : list (string * A)) k v k' :
  dict_get (dict_set d k v) k' = if String.eqb k' k then Some v else dict_get d k'.
Proof.
  induction d as [|[k0 v0] d IH]; simpl; [reflexivity|].
  destruct (String.eqb_spec k k0) as [<-|Hne]; simpl.
  - destruct (String.eqb k' k); reflexivity.
  - rewrite IH. destruct (String.eqb_spec k' k0) as [->|]; [|reflexivity].
    destruct (String.eqb_spec k0 k); [congruence | reflexivity].
Qed.

Lemma dict_get_notin {A} (d : list (string * A)) k :
  ~ In k (map fst d) -> dict_get d k = None.
Proof.
  induction d as [|[k0 v0] d IH]; simpl; [reflexivity|]. intros H.
  destruct (String.eqb_spec k k0); [subst; tauto | apply IH; tauto].
Qed.

Lemma dict_get_update {A} (upd d : list (string * A)) k :
  NoDup (map fst upd) ->
  dict_get (dict_update d upd) k =
  match dict_get upd k with Some v => Some v | None => dict_get d k end.
Proof.
  unfold dict_update. revert d. induction upd as [|[k1 v1] upd IH]; intros d Hnd;
    [reflexivity|].
  simpl in Hnd |- *. inversion Hnd as [|? ? Hk1 Hnd']; subst.
  rewrite IH by exact Hnd'. rewrite dict_get_set.
  destruct (String.eqb_spec k k1) as [->|Hne].
  - rewrite dict_get_notin by exact Hk1. reflexivity.
  - destruct (dict_get upd k); reflexivity.
Qed.

(** The first [finish] merges its extra data into the span's data: a key
    of the extra data gets its new value, any other key keeps its old one. *)
Theorem finish_merges_data name st0 started mono dur0 data evs ch st x t m k
  (Hx : NoDup (map fst x)) :
  dict_get (sp_data (finish (MkSpan name st0 started mono None dur0 data evs ch) st x t m)) k =
  match dict_get x k with Some v => Some v | None => dict_get data k end.
Proof.
  simpl. destruct x as [|kv x]; [reflexivity|].
  apply dict_get_update, Hx.
Qed.

End ExtraLogger.

Module ExtraJson.
Import PyStr Json JsonUtils StrFacts JsonSpecs JsonFacts Gemini.

Lemma pmembers_obj f : forall s acc v t,
  pmembers f s acc = Some (v, t) -> exists kvs, v = JObj kvs.
Proof.
  induction f as [|f IH]; intros s acc v t H; [discriminate|].
  rewrite pmembers_S in H.
  destruct (pstring s) as [[key s1]|]; [|discriminate].
  destruct (skip_ws s1) as [|col s2]; [discriminate|].
  destruct (Nat.eqb (ord col) 58); [|discriminate].
  destruct (pvalue f (skip_ws s2)) as [[v' s3]|]; [|discriminate].
  cbv zeta in H.
  destruct (skip_ws s3) as [|d s4]; [discriminate|].
  destruct (Nat.eqb (ord d) 125); [injection H as <- _; eauto|].
  destruct (Nat.eqb (ord d) 44); [|discriminate].
  destruct (skip_ws s4) as [|q s5]; [discriminate|].
  destruct (Nat.eqb (ord q) 34); [exact (IH _ _ _ _ H) | discriminate].
Qed.

Lemma loads_brace (u : string) (v : json) :
  loads (String "{" u) = Some v -> exists kvs, v = JObj kvs.
Proof.
  unfold loads. change (skip_ws (String "{" u)) with (String "{" u).
  destruct (pvalue _ (String "{" u)) as [[v' rest]|] eqn:E; [|discriminate].
  destruct (skip_ws rest); [|discriminate]. intros [= <-].
  revert E. generalize (S (String.length (String "{" u))) as f. intros [|f] E; [discriminate|].
  rewrite pvalue_S in E. cbv zeta in E. change (Nat.eqb (ord "{") 123) with true in E.
  cbv iota in E.
  destruct (skip_ws u) as [|d r']; [discriminate|].
  destruct (Nat.eqb (ord d) 125); [injection E as <- _; eauto|].
  destruct (Nat.eqb (ord d) 34); [exact (pmembers_obj _ _ _ _ _ E) | discriminate].
Qed.

Lemma find_char_drop (s : string) (ch : ascii) (n : nat) :
  find_char s ch = Some n -> exists r, drop n s = String ch r.
Proof.
  revert n. induction s as [|c s IH]; intros n H; [discriminate|].
  simpl in H. destruct (Ascii.eqb_spec c ch) as [->|].
  - injection H as <-. exists s. reflexivity.
  - destruct (find_char s ch) as [m|]; [|discriminate]. injection H as <-.
    exact (IH m eq_refl).
Qed.

(** The [NotAnObject] error of [extract_first_json_object] never occurs:
    a candidate starts at a brace, so what decodes from it is an object. *)
Theorem extract_never_not_an_object (text : string) :
  extract_first_json_object text <> inr NotAnObject.
Proof.
  unfold extract_first_json_object.
  destruct (find_char (strip_code_fences text) "{") as [start|] eqn:Ef; [|discriminate].
  destruct (find_char_drop _ _ _ Ef) as [r Er]. rewrite Er.
  destruct (scan _ _ _ _ _) as [e|]; [|discriminate].
  destruct (S e - start) as [|k].
  - discriminate.
  - change (take (S k) (String "{" r)) with (String "{" (take k r)).
    destruct (loads (String "{" (take k r))) as [v|] eqn:El; [|discriminate].
    destruct (loads_brace _ _ El) as [kvs ->]. discriminate.
Qed.


End ExtraJson.

Module ExtraGen.
Import PyStr Json StateErr Gemini StrFacts ExtraStr.

Section Gen.
Variable W : Type.
Variable urlopen : string -> W -> http_outcome * W.
Variable sleep : Q -> W -> W.

Lemma parse_body_text (raw : string) s t s' :
  parse_body W raw s = (inl t, s') -> t <> "" /\ strip t = t.
Proof.
  unfold parse_body.
  destruct (loads raw) as [body|]; [|discriminate].
  destruct (gemini_texts body) as [texts|]; [|discriminate].
  destruct (strip (String.concat NL texts)) as [|c u] eqn:E.
  - unfold bind, emit, raise. discriminate.
  - intros [= <- _]. split; [discriminate|]. rewrite <- E. apply strip_idem.
Qed.

(** A successful [_generate_text] returns a non-empty text with no
    surrounding whitespace. *)
Theorem generate_text_nonempty (p : string) s t s' :
  generate_text W urlopen sleep p s = (inl t, s') -> t <> "" /\ strip t = t.
Proof.
  unfold generate_text, bind.
  destruct (attempt_loop W urlopen sleep p (S MAX_RETRIES) 0 None s) as [[x|e] s1].
  - destruct x as [raw|[e|]]; [apply parse_body_text | discriminate | apply parse_body_text].
  - discriminate.
Qed.

End Gen.
End ExtraGen.

(* ================================================================== *)

Module ExtraApp.
Import Logger App.

(** Slack events from a bot or with a subtype reach neither handler;
    a message is handled only when it is a direct message ([im]) that the
    mention handler would also accept. *)
Theorem bot_events_ignored (event : list (string * pyval)) :
  ((py_truthy (event_get event "bot_id") = true \/ py_truthy (event_get event "subtype") = true) ->
   on_app_mention event = false /\ on_message event = false) /\
  (on_message event = true ->
   event_get event "channel_type" = PStr "im" /\ on_app_mention event = true).
Proof.
  unfold on_app_mention, on_message, should_ignore_event. split.
  - intros [H|H]; rewrite H; [|rewrite orb_true_r]; split; reflexivity.
  - destruct (py_truthy (event_get event "bot_id") || py_truthy (event_get event "subtype"))%bool;
      [discriminate|].
    destruct (event_get event "channel_type"); try discriminate.
    intros H. apply String.eqb_eq in H. subst. split; reflexivity.
Qed.

End ExtraApp.

Module ExtraStore.
Import Logger Store.

(** [persist] prints a document whose root span is finished, with the
    root's status unchanged; a trace already finished is not modified. *)
Theorem persist_finishes_root (trace : RequestTrace) (now_iso : string) (now_mono : Q) :
  let '(trace', doc) := persist trace now_iso now_mono in
  (exists fin, path_get [SKey "trace"; SKey "finished_at"] doc = Some (PStr fin)) /\
  path_get [SKey "trace"; SKey "status"] doc = Some (PStr (sp_status (rt_root trace))) /\
  doc = request_as_dict trace' /\
  (sp_finished_at (rt_root trace) <> None -> trace' = trace).
Proof.
  destruct trace as [id md started [name st st_at mono fin dur data evs ch]].
  unfold persist. simpl rt_root. cbn [sp_finished_at sp_status].
  destruct fin as [f|].
  - split; [exists f; reflexivity|]. split; [reflexivity|]. split; [reflexivity|].
    intros _. reflexivity.
  - split; [exists now_iso; reflexivity|]. split; [reflexivity|]. split; [reflexivity|].
    intros H. exfalso. apply H. reflexivity.
Qed.

End ExtraStore.


Module ExtraPlan.
Import PyStr Json JsonUtils StrFacts JsonSpecs JsonFacts Gemini Plan.

(** The extractor on a serialized object after a brace-free preamble. *)
Lemma extract_dumps_obj text pre kvs rest :
  json_wf (JObj kvs) = true ->
  strip_code_fences text = (pre ++ dumps (JObj kvs) ++ rest)%string ->
  contains pre "{" = false ->
  extract_first_json_object text = inl (kvs, strip rest).
Proof.
  intros Hwf Hc Hpre.
  unfold extract_first_json_object. rewrite Hc.
  assert (Er : exists r, (dumps (JObj kvs) ++ rest)%string = String "{" r)
    by (eexists; reflexivity).
  destruct Er as [r Er]. rewrite Er, (find_char_app pre r "{" Hpre), drop_app, <- Er.
  rewrite scan_dumps_obj. cbv beta iota zeta.
  assert (Hl : 1 <= String.length (dumps (JObj kvs))) by (simpl; lia).
  replace (S (String.length (dumps (JObj kvs)) - 1 + String.length pre) - String.length pre)
    with (String.length (dumps (JObj kvs))) by lia.
  replace (S (String.length (dumps (JObj kvs)) - 1 + String.length pre))
    with (String.length pre + String.length (dumps (JObj kvs))) by lia.
  rewrite take_app, drop_app_plus, drop_app, loads_dumps_obj by exact Hwf.
  reflexivity.
Qed.

Lemma wf_map_str (l : list string) : forallb json_wf (map JStr l) = true.
Proof. induction l; simpl; auto. Qed.

Lemma wf_map_step (l : list PlanStep) : forallb json_wf (map step_dump l) = true.
Proof. induction l; simpl; auto. Qed.

Lemma str_list_map (l : list string) : str_list (map JStr l) = Some l.
Proof. induction l as [|x l IH]; simpl; [reflexivity|]. rewrite IH. reflexivity. Qed.

Lemma nonempty_str_ok (s : string) :
  Nat.ltb 0 (String.length s) = true -> nonempty_str (Some (JStr s)) = Some s.
Proof. intros H. simpl. rewrite H. reflexivity. Qed.

Lemma step_list_map (l : list PlanStep) :
  forallb (fun st => Nat.ltb 0 (String.length (ps_title st)) &&
                     Nat.ltb 0 (String.length (ps_details st)))%bool l = true ->
  step_list (map step_dump l) = Some l.
Proof.
  induction l as [|[t d] l IH]; simpl; intros H; [reflexivity|].
  apply andb_prop in H as [H1 H2]. apply andb_prop in H1 as [Ht Hd].
  rewrite Ht, Hd, IH by exact H2. reflexivity.
Qed.

(** A valid plan serialized by [model_dump] and [json.dumps], in a reply
    whose text before it holds no brace, is parsed back to the same plan. *)
Theorem parse_plan_roundtrip text pre rest plan
  (Hv : plan_valid plan = true)
  (Hc : strip_code_fences text = (pre ++ dumps (JObj (plan_dump plan)) ++ rest)%string)
  (Hpre : contains pre "{" = false) :
  parse_plan_response text = Some plan.
Proof.
  assert (Hwf : json_wf (JObj (plan_dump plan)) = true).
  { destruct plan; simpl. rewrite !wf_map_str, wf_map_step. reflexivity. }
  unfold parse_plan_response. rewrite (extract_dumps_obj text pre _ rest Hwf Hc Hpre).
  destruct plan as [o a f st r tp rb]. unfold plan_valid in Hv. cbn [objective implementation_steps] in Hv.
  apply andb_prop in Hv as [Hv Hst]. apply andb_prop in Hv as [Ho Hne].
  unfold validate_plan, plan_dump. cbn [objective assumptions files_to_touch
    implementation_steps risks test_plan rollback_plan].
  simpl only_keys. cbv iota.
  simpl Logger.dict_get. cbv iota beta zeta.
  unfold validate_str_list. rewrite nonempty_str_ok by exact Ho.
  rewrite !str_list_map, step_list_map by exact Hst.
  destruct st; [discriminate | reflexivity].
Qed.

Lemma step_lines_digit (i : nat) (ss : list PlanStep) (l : string) :
  In l (step_lines i ss) -> exists c u, l = String c u /\ is_digit c = true.
Proof.
  revert i. induction ss as [|s ss IH]; simpl; intros i H; [contradiction|].
  destruct H as [<-|H]; [|exact (IH _ H)].
  unfold str_nat. destruct (dump_nat_head (N.of_nat i)) as (c & u & -> & Hc).
  eexists _, _. split; [reflexivity | exact Hc].
Qed.

Lemma step_lines_nth (i k : nat) (ss : list PlanStep) (st : PlanStep) :
  nth_error ss k = Some st ->
  In (str_nat (i + k) ++ ". " ++ ps_title st ++ ": " ++ ps_details st) (step_lines i ss).
Proof.
  revert i k. induction ss as [|s ss IH]; intros i k H; [destruct k; discriminate|].
  destruct k as [|k]; simpl in H.
  - injection H as ->. left. rewrite Nat.add_0_r. reflexivity.
  - right. replace (i + S k) with (S i + k) by lia. apply IH, H.
Qed.

Ltac find_in :=
  match goal with
  | |- In ?x (?x :: _) => apply in_eq
  | |- In ?x (_ :: _) => apply in_cons; find_in
  | |- In ?x (_ ++ _) => apply in_or_app; first [left; find_in | right; find_in]
  | H : In ?x ?l |- In ?x ?l => exact H
  end.

Ltac not_in :=
  repeat match goal with
  | H : In _ (_ ++ _) |- _ => apply in_app_or in H as [H|H]
  | H : In _ [] |- _ => destruct H
  | H : In _ (_ :: _) |- _ => destruct H as [H|H]
  | H : In _ (map _ _) |- _ => apply in_map_iff in H as [? [H ?]]
  | H : In _ (step_lines _ _) |- _ =>
      apply step_lines_digit in H as (? & ? & H & ?)
  | H : In _ (match ?l with [] => _ | _ :: _ => _ end) |- _ => destruct l
  end;
  try discriminate;
  match goal with
  | H : String ?c _ = String _ _, Hd : is_digit ?c = true |- _ =>
      injection H as -> _; discriminate Hd
  | H : String _ _ = String ?c _, Hd : is_digit ?c = true |- _ =>
      injection H as <- _; discriminate Hd
  | _ => idtac
  end.

(** The Slack rendering of a plan has a heading for each optional section
    exactly when that section is non-empty, and one numbered line for each
    implementation step. *)
Theorem plan_lines_sections plan :
  (In "*Assumptions*" (plan_lines plan) <-> assumptions plan <> []) /\
  (In "*Files To Touch*" (plan_lines plan) <-> files_to_touch plan <> []) /\
  (In "*Risks*" (plan_lines plan) <-> risks plan <> []) /\
  (In "*Test Plan*" (plan_lines plan) <-> test_plan plan <> []) /\
  (In "*Rollback Plan*" (plan_lines plan) <-> rollback_plan plan <> []) /\
  (forall k st, nth_error (implementation_steps plan) k = Some st ->
     In (str_nat (S k) ++ ". " ++ ps_title st ++ ": " ++ ps_details st) (plan_lines plan)).
Proof.
  destruct plan as [o a f st r tp rb]. unfold plan_lines.
  cbn [objective assumptions files_to_touch implementation_steps risks test_plan rollback_plan].
  repeat split.
  - intros H Hnil. subst a. cbn -[In] in H. not_in.
  - intros Hne. destruct a as [|x a]; [congruence|]. cbn -[In]. find_in.
  - intros H Hnil. subst f. cbn -[In] in H. not_in.
  - intros Hne. destruct f as [|x f]; [congruence|]. cbn -[In]. find_in.
  - intros H Hnil. subst r. cbn -[In] in H. not_in.
  - intros Hne. destruct r as [|x r]; [congruence|]. cbn -[In]. find_in.
  - intros H Hnil. subst tp. cbn -[In] in H. not_in.
  - intros Hne. destruct tp as [|x tp]; [congruence|]. cbn -[In]. find_in.
  - intros H Hnil. subst rb. cbn -[In] in H. not_in.
  - intros Hne. destruct rb as [|x rb]; [congruence|]. cbn -[In]. find_in.
  - intros k s Hk. pose proof (step_lines_nth 1 k st s Hk) as Hin. cbn -[In]. find_in.
Qed.

End ExtraPlan.


Module ExtraTools.
Import Json StateErr Gemini.

Section ToolArgs.
Variable W : Type.
Variable gh_get_default_branch : RepoAccess -> W -> (json + err) * W.
Variable gh_create_branch : RepoAccess -> json -> option json -> W -> (json + err) * W.
Variable gh_list_files : RepoAccess -> option json -> W -> (list json + err) * W.
Variable gh_read_file : RepoAccess -> json -> option json -> W -> (json + err) * W.
Variable gh_write_file : RepoAccess -> WriteFileInput -> W -> (json + err) * W.
Variable gh_create_pull_request : RepoAccess -> PullRequestInput -> W -> (json + err) * W.

Local Abbreviation exec := (execute_tool_inner W gh_get_default_branch gh_create_branch
  gh_list_files gh_read_file gh_write_file gh_create_pull_request).

(** The arguments of a tool call are read and validated before the GitHub
    tool is called: when they are missing or invalid, the call fails with
    the error of the lookup or of the validation, and the state (the world
    and the trace) is left as it was. *)
Theorem tool_args_checked_first (access : RepoAccess) (args : json) (s : St W) :
  (validate_write_file args = None ->
   exec access (JStr "write_file") args s = (inr ValidationErr, s)) /\
  (validate_pull_request args = None ->
   exec access (JStr "create_pull_request") args s = (inr ValidationErr, s)) /\
  (forall e, py_getitem args "new_branch" = inr e ->
   exec access (JStr "create_branch") args s = (inr e, s)) /\
  (forall e, py_getitem args "path" = inr e ->
   exec access (JStr "read_file") args s = (inr e, s)) /\
  (forall e, py_get args "branch" = inr e ->
   exec access (JStr "list_files") args s = (inr e, s)).
Proof.
  unfold execute_tool_inner. cbn [is_str String.eqb Ascii.eqb Bool.eqb]. repeat split.
  - intros H. unfold bind, lift_opt. rewrite H. reflexivity.
  - intros H. unfold bind, lift_opt. rewrite H. reflexivity.
  - intros e H. unfold bind at 1, lift. rewrite H. reflexivity.
  - intros e H. unfold bind at 1, lift. rewrite H. reflexivity.
  - intros e H. unfold bind at 1, lift. rewrite H. reflexivity.
Qed.

End ToolArgs.
End ExtraTools.

Module ExtraRespond.
Import Json StateErr Gemini.

Section Respond.
Variable W : Type.
Variable urlopen : string -> W -> http_outcome * W.
Variable sleep : Q -> W -> W.
Variable clock : W -> Z.
Variable plan_schema : string.
Variable gh_repo gh_repo' : RepoAccess -> W -> (json + err) * W.
Variable gh_get_default_branch gh_get_default_branch' : RepoAccess -> W -> (json + err) * W.
Variable gh_create_branch gh_create_branch' :
  RepoAccess -> json -> option json -> W -> (json + err) * W.
Variable gh_list_files gh_list_files' : RepoAccess -> option json -> W -> (list json + err) * W.
Variable gh_read_file gh_read_file' : RepoAccess -> json -> option json -> W -> (json + err) * W.
Variable gh_write_file gh_write_file' : RepoAccess -> WriteFileInput -> W -> (json + err) * W.
Variable gh_create_pull_request gh_create_pull_request' :
  RepoAccess -> PullRequestInput -> W -> (json + err) * W.

Local Abbreviation respond1 := (respond W urlopen sleep clock plan_schema gh_repo
  gh_get_default_branch gh_create_branch gh_list_files gh_read_file gh_write_file
  gh_create_pull_request).
Local Abbreviation respond2 := (respond W urlopen sleep clock plan_schema gh_repo'
  gh_get_default_branch' gh_create_branch' gh_list_files' gh_read_file' gh_write_file'
  gh_create_pull_request').

(** In plan mode, and in any other mode when the prompt holds no GitHub
    repository URL, the reply and the final state do not depend on the
    GitHub tools: none of them is called. *)
Theorem respond_no_github (mode prompt : string) (s : St W)
  (H : mode = "plan" \/ extract_repo_access prompt = inl None) :
  respond1 mode prompt s = respond2 mode prompt s.
Proof.
  unfold respond. destruct (String.eqb_spec mode "plan") as [_|Hm]; [reflexivity|].
  destruct H as [H|H]; [contradiction|].
  unfold bind at 1 3, lift. rewrite H. reflexivity.
Qed.

(** Outside plan mode, a rejected repository URL fails the request before
    any GitHub call or model call, with the state unchanged. *)
Theorem respond_bad_access (mode prompt : string) (s : St W) (e : err)
  (Hm : mode <> "plan") (H : extract_repo_access prompt = inr e) :
  respond1 mode prompt s = (inr e, s).
Proof.
  unfold respond. destruct (String.eqb_spec mode "plan") as [|_]; [contradiction|].
  unfold bind at 1, lift. rewrite H. reflexivity.
Qed.

End Respond.
End ExtraRespond.

Module ExtraAccess.
Import PyStr Json Gemini JsonSpecs StrFacts.

Lemma all_chars_impl (p q : ascii -> bool) (s : string) :
  (forall c, p c = true -> q c = true) -> all_chars p s = true -> all_chars q s = true.
Proof.
  intros Hpq. induction s as [|c s IH]; simpl; [reflexivity|].
  intros H. apply andb_prop in H as [Hc Hs]. rewrite (Hpq c Hc), (IH Hs). reflexivity.
Qed.

Lemma all_chars_take (p : ascii -> bool) (n : nat) (s : string) :
  all_chars p s = true -> all_chars p (take n s) = true.
Proof.
  revert s; induction n as [|n IH]; intros [|c s] H; try reflexivity.
  simpl in H |- *. apply andb_prop in H as [Hc Hs]. rewrite Hc, (IH s Hs). reflexivity.
Qed.

Lemma all_chars_removesuffix (p : ascii -> bool) (x s : string) :
  all_chars p s = true -> all_chars p (removesuffix x s) = true.
Proof.
  intros H. unfold removesuffix. destruct (_ && _)%bool; [apply all_chars_take|]; exact H.
Qed.

Lemma all_chars_startswith (p : ascii -> bool) (s t : string) :
  startswith s t = true -> all_chars p s = true -> all_chars p t = true.
Proof.
  revert s. induction t as [|a t IH]; intros [|c s] H Hs; try reflexivity; [discriminate|].
  simpl in H, Hs |- *. apply andb_prop in H as [Ha H]. apply andb_prop in Hs as [Hc Hs].
  apply Ascii.eqb_eq in Ha. subst. rewrite Hc. exact (IH s H Hs).
Qed.

Lemma slug_run_slug (s a r : string) : slug_run s = (a, r) -> all_chars slug_char a = true.
Proof.
  revert a r. induction s as [|c s IH]; intros a r H; simpl in H.
  - injection H as <- _. reflexivity.
  - destruct (slug_char c) eqn:Ec.
    + destruct (slug_run s) as [a' r'] eqn:E. injection H as <- _. simpl.
      rewrite Ec. exact (IH _ _ eq_refl).
    + injection H as <- _. reflexivity.
Qed.

Lemma match_at_slug (s g1 g2 : string) :
  match_at s = Some (g1, g2) -> all_chars slug_char g1 = true /\ all_chars slug_char g2 = true.
Proof.
  unfold match_at. destruct (startswith s GITHUB_PREFIX); [|discriminate].
  destruct (slug_run (drop _ s)) as [a r] eqn:E1.
  destruct a as [|c a]; [discriminate|]. destruct r as [|sl r2]; [discriminate|].
  destruct (Nat.eqb (ord sl) 47); [|discriminate].
  destruct (slug_run r2) as [b r3] eqn:E2. simpl fst.
  destruct b as [|d b]; [discriminate|]. intros [= <- <-].
  split; [exact (slug_run_slug _ _ _ E1) | exact (slug_run_slug _ _ _ E2)].
Qed.

Lemma re_search_slug (s g1 g2 : string) :
  re_search s = Some (g1, g2) -> all_chars slug_char g1 = true /\ all_chars slug_char g2 = true.
Proof.
  induction s as [|c s IH]; cbn [re_search];
    destruct (match_at _) as [m|] eqn:E;
    try (intros [= ->]; exact (match_at_slug _ _ _ E)); try discriminate; exact IH.
Qed.

(** The slug characters are not whitespace and not ['<'], ['>'], ['|'],
    ['/']. *)
Lemma slug_char_plain (c : ascii) :
  slug_char c = true ->
  isspace c = false /\ existsb (Ascii.eqb c) ["<"%char; ">"%char] = false /\
  Ascii.eqb c "|"%char = false /\ Ascii.eqb c "/"%char = false.
Proof. destruct c as [[] [] [] [] [] [] [] []]; cbv; intros H; try discriminate; auto. Qed.

Lemma rstrip_plain (s : string) :
  all_chars (fun c => negb (isspace c)) s = true -> rstrip s = s.
Proof.
  induction s as [|c s IH]; simpl; [reflexivity|]. intros H.
  apply andb_prop in H as [Hc Hs]. rewrite (IH Hs).
  destruct (isspace c); [discriminate|]. destruct s; reflexivity.
Qed.

Lemma strip_plain (s : string) :
  all_chars (fun c => negb (isspace c)) s = true -> strip s = s.
Proof.
  intros H. unfold strip. rewrite (rstrip_plain _ H).
  destruct s as [|c s]; [reflexivity|]. simpl in H |- *.
  destruct (isspace c); [discriminate | reflexivity].
Qed.

Lemma strip_chars_plain (cs : list ascii) (s : string) :
  all_chars (fun c => negb (existsb (Ascii.eqb c) cs)) s = true -> strip_chars cs s = s.
Proof.
  intros H. unfold strip_chars.
  assert (Hr : rstrip_chars cs s = s).
  { induction s as [|c s IH]; simpl in *; [reflexivity|].
    apply andb_prop in H as [Hc Hs]. rewrite (IH Hs).
    destruct (existsb (Ascii.eqb c) cs); [discriminate|]. destruct s; reflexivity. }
  rewrite Hr. destruct s as [|c s]; [reflexivity|]. simpl in H |- *.
  destruct (existsb (Ascii.eqb c) cs); [discriminate | reflexivity].
Qed.

Lemma before_char_plain (sep : ascii) (s : string) :
  all_chars (fun c => negb (Ascii.eqb c sep)) s = true -> before_char sep s = s.
Proof.
  induction s as [|c s IH]; simpl; [reflexivity|]. intros H.
  apply andb_prop in H as [Hc Hs]. destruct (Ascii.eqb c sep); [discriminate|].
  rewrite (IH Hs). reflexivity.
Qed.

Lemma after_sub_slug (s : string) :
  all_chars slug_char s = true -> after_sub "github.com/" s = None.
Proof.
  induction s as [|c s IH]; intros H; [reflexivity|].
  assert (Hn : startswith (String c s) "github.com/" = false).
  { destruct (startswith (String c s) "github.com/") eqn:E; [|reflexivity].
    pose proof (all_chars_startswith _ _ _ E H) as Hg. discriminate Hg. }
  simpl in H. apply andb_prop in H as [_ Hs].
  unfold after_sub. rewrite Hn. fold after_sub. exact (IH Hs).
Qed.

(** On a string of slug characters the validator only removes a [".git"]
    suffix. *)
Lemma sanitize_slug_plain (b : bool) (s : string) :
  all_chars slug_char s = true -> sanitize_slug b s = removesuffix ".git" s.
Proof.
  intros H.
  assert (Hsp : all_chars (fun c => negb (isspace c)) s = true).
  { apply (all_chars_impl slug_char); [|exact H].
    intros c Hc. destruct (slug_char_plain c Hc) as [-> _]. reflexivity. }
  unfold sanitize_slug.
  rewrite (strip_plain s Hsp).
  rewrite strip_chars_plain
    by (apply (all_chars_impl slug_char); [|exact H];
        intros c Hc; destruct (slug_char_plain c Hc) as [_ [-> _]]; reflexivity).
  rewrite (strip_plain s Hsp).
  rewrite before_char_plain
    by (apply (all_chars_impl slug_char); [|exact H];
        intros c Hc; destruct (slug_char_plain c Hc) as [_ [_ [-> _]]]; reflexivity).
  rewrite (after_sub_slug s H). reflexivity.
Qed.

Lemma ltb_0_length (s : string) : Nat.ltb 0 (String.length s) = negb (String.eqb s "").
Proof. destruct s; reflexivity. Qed.

(** [_extract_repo_access] on a prompt with a GitHub URL: both groups of
    the match are slug strings, the validators only strip [".git"] (once
    from the owner, and once more from the repository, which the function
    already stripped once), and the access is rejected with a validation
    error exactly when this leaves the owner or the repository empty. *)
Theorem extract_repo_access_spec (prompt : string) :
  match re_search (blank_angles prompt) with
  | None => extract_repo_access prompt = inl None
  | Some (g1, g2) =>
      let o := removesuffix ".git" g1 in
      let r := removesuffix ".git" (removesuffix ".git" g2) in
      all_chars slug_char o = true /\ all_chars slug_char r = true /\
      extract_repo_access prompt =
        if (String.eqb o "" || String.eqb r "")%bool then inr ValidationErr
        else inl (Some {| owner := o; repo := r; branch := "main" |})
  end.
Proof.
  unfold extract_repo_access.
  destruct (re_search (blank_angles prompt)) as [[g1 g2]|] eqn:E; [|reflexivity].
  destruct (re_search_slug _ _ _ E) as [H1 H2].
  cbv zeta. split; [apply all_chars_removesuffix, H1|].
  split; [apply all_chars_removesuffix, all_chars_removesuffix, H2|].
  unfold make_access.
  rewrite (sanitize_slug_plain true g1 H1).
  rewrite (sanitize_slug_plain false _ (all_chars_removesuffix _ _ _ H2)).
  rewrite !ltb_0_length.
  destruct (String.eqb (removesuffix ".git" g1) ""), (String.eqb (removesuffix ".git" (removesuffix ".git" g2)) "");
    reflexivity.
Qed.

End ExtraAccess.


Module ExtraGitHub.
Import PyStr Logger Json StateErr StrFacts JsonSpecs GitHub.

Ltac divmod a b :=
  pose proof (Nat.div_mod_eq a b); pose proof (Nat.mod_upper_bound a b ltac:(lia)).

(** *** Base64 *)

Lemma b64_char_spec (v : nat) :
  v < 64 ->
  Nat.eqb (ord (b64_char v)) 61 = false /\ b64_index (b64_char v) = Some v /\
  Nat.ltb (ord (b64_char v)) 128 = true.
Proof. intros H. do 64 (destruct v as [|v]; [split; [|split]; reflexivity|]). lia. Qed.

Lemma chr_ord (c : ascii) (n : nat) : n = ord c -> chr n = c.
Proof. intros ->. apply ascii_nat_embedding. Qed.

Lemma ord_lt (c : ascii) : ord c < 256.
Proof. apply nat_ascii_bounded. Qed.

Lemma b64encode_ascii (s : string) :
  all_chars (fun c => Nat.ltb (ord c) 128) (b64encode s) = true.
Proof.
  assert (Hc : forall v, v < 64 -> Nat.ltb (ord (b64_char v)) 128 = true)
    by (intros v Hv; apply (b64_char_spec v Hv)).
  induction s as [n IH] using (induction_ltof1 _ String.length).
  destruct n as [|a [|b [|c rest]]]; [reflexivity| | |].
  - pose proof (ord_lt a). divmod (ord a) 4.
    cbn [b64encode all_chars]. rewrite !Hc by lia. reflexivity.
  - pose proof (ord_lt a). pose proof (ord_lt b). divmod (ord a) 4. divmod (ord b) 16.
    cbn [b64encode all_chars]. rewrite !Hc by lia. reflexivity.
  - pose proof (ord_lt a). pose proof (ord_lt b). pose proof (ord_lt c).
    divmod (ord a) 4. divmod (ord b) 16. divmod (ord c) 64.
    cbn [b64encode all_chars]. rewrite !Hc by lia.
    apply IH. unfold ltof. simpl. lia.
Qed.

Lemma a2b_b64encode (s : string) : a2b (b64encode s) 0 0 0 = Some s.
Proof.
  induction s as [n IH] using (induction_ltof1 _ String.length).
  destruct n as [|a [|b [|c rest]]]; [reflexivity| | |].
  - pose proof (ord_lt a). divmod (ord a) 4.
    destruct (b64_char_spec (ord a / 4)) as (P1 & I1 & _); [lia|].
    destruct (b64_char_spec ((ord a mod 4) * 16)) as (P2 & I2 & _); [lia|].
    cbn [b64encode a2b]. rewrite P1, I1, P2, I2. cbn -[Nat.div Nat.modulo chr ord]; change (ord "="%char) with 61; cbn -[Nat.div Nat.modulo chr ord].
    do 2 f_equal. apply chr_ord.
    divmod ((ord a mod 4) * 16) 16. lia.
  - pose proof (ord_lt a). pose proof (ord_lt b). divmod (ord a) 4. divmod (ord b) 16.
    destruct (b64_char_spec (ord a / 4)) as (P1 & I1 & _); [lia|].
    destruct (b64_char_spec ((ord a mod 4) * 16 + ord b / 16)) as (P2 & I2 & _); [lia|].
    destruct (b64_char_spec ((ord b mod 16) * 4)) as (P3 & I3 & _); [lia|].
    cbn [b64encode a2b]. rewrite P1, I1, P2, I2, P3, I3. cbn -[Nat.div Nat.modulo chr ord]; change (ord "="%char) with 61; cbn -[Nat.div Nat.modulo chr ord].
    divmod ((ord a mod 4) * 16 + ord b / 16) 16. divmod ((ord b mod 16) * 4) 4.
    do 2 f_equal; [apply chr_ord; lia|]. f_equal. apply chr_ord. lia.
  - pose proof (ord_lt a). pose proof (ord_lt b). pose proof (ord_lt c).
    divmod (ord a) 4. divmod (ord b) 16. divmod (ord c) 64.
    destruct (b64_char_spec (ord a / 4)) as (P1 & I1 & _); [lia|].
    destruct (b64_char_spec ((ord a mod 4) * 16 + ord b / 16)) as (P2 & I2 & _); [lia|].
    destruct (b64_char_spec ((ord b mod 16) * 4 + ord c / 64)) as (P3 & I3 & _); [lia|].
    destruct (b64_char_spec (ord c mod 64)) as (P4 & I4 & _); [lia|].
    cbn [b64encode a2b]. rewrite P1, I1, P2, I2, P3, I3, P4, I4.
    rewrite (IH rest) by (unfold ltof; simpl; lia). cbn -[Nat.div Nat.modulo chr ord]; change (ord "="%char) with 61; cbn -[Nat.div Nat.modulo chr ord].
    divmod ((ord a mod 4) * 16 + ord b / 16) 16. divmod ((ord b mod 16) * 4 + ord c / 64) 4.
    f_equal. f_equal; [apply chr_ord; lia|]. f_equal; [apply chr_ord; lia|].
    f_equal. apply chr_ord. lia.
Qed.

(** The content a [write_file] call sends (base64 of the UTF-8 bytes)
    comes back unchanged through [read_file]'s decoding, whatever line
    breaks GitHub inserts into the base64 text. *)
Theorem b64_content_roundtrip (c t : string) (kvs : list (string * json))
  (Hc : utf8_valid c = true)
  (Hk : dict_get kvs "content" = Some (JStr t))
  (Ht : remove_newlines t = b64encode c) :
  read_content (JObj kvs) = inl c.
Proof.
  unfold read_content. rewrite Hk, Ht.
  destruct (b64encode c) as [|x y] eqn:E.
  - destruct c as [|a [|b [|d r]]]; try discriminate; reflexivity.
  - rewrite <- E. unfold b64decode. rewrite b64encode_ascii, a2b_b64encode, Hc. reflexivity.
Qed.

(** *** Requests without a token *)

Section NoToken.
Variable W : Type.
Variable urlopen : string -> string -> option string -> string -> W -> http_resp * W.
Variable api_base : string.

(** Without a GitHub token every tool fails with the missing-token error
    before any HTTP request: the world is left as it was and the trace
    gets the one [github.auth.error] event. *)
Theorem no_token_no_request (token : option string)
  (Htok : token = None \/ token = Some "")
  (a : Gemini.RepoAccess) (w : W) (evs : list gevent)
  (new_branch path : string) (from_branch branch : option string)
  (wf : Gemini.WriteFileInput) (pr : Gemini.PullRequestInput) :
  let s' := (w, evs ++ [{| ge_name := "github.auth.error"; ge_status := "error";
                           ge_data := [("reason", PStr "missing_token")] |}])%list in
  ensure_repo_write_access W urlopen token api_base a (w, evs)
    = (inr (RuntimeErr MISSING_TOKEN_MSG), s') /\
  get_default_branch W urlopen token api_base a (w, evs)
    = (inr (RuntimeErr MISSING_TOKEN_MSG), s') /\
  create_branch W urlopen token api_base a new_branch from_branch (w, evs)
    = (inr (RuntimeErr MISSING_TOKEN_MSG), s') /\
  list_files W urlopen token api_base a branch (w, evs)
    = (inr (RuntimeErr MISSING_TOKEN_MSG), s') /\
  read_file W urlopen token api_base a path branch (w, evs)
    = (inr (RuntimeErr MISSING_TOKEN_MSG), s') /\
  write_file W urlopen token api_base a wf (w, evs)
    = (inr (RuntimeErr MISSING_TOKEN_MSG), s') /\
  create_pull_request W urlopen token api_base a pr (w, evs)
    = (inr (RuntimeErr MISSING_TOKEN_MSG), s').
Proof.
  intros s'. destruct Htok as [-> | ->];
    repeat split; try destruct from_branch as [[|c0 f]|]; reflexivity.
Qed.

End NoToken.

(** *** One request *)

Section Request.
Variable W : Type.
Variable urlopen : string -> string -> option string -> string -> W -> http_resp * W.
Variable api_base : string.

Lemma request_ok (tok m p : string) (pl : option json) (s : St W) (w' : W)
  (st : Z) (raw : string) (v : json) :
  tok <> "" ->
  urlopen m (api_root api_base ++ p) (option_map dumps pl) tok (fst s) = (HOk st raw, w') ->
  utf8_valid raw = true -> loads raw = Some v ->
  exists evs', request W urlopen (Some tok) api_base m p pl s = (inl v, (w', evs')).
Proof.
  intros Htok Hu Hr Hl. destruct tok as [|c t]; [contradiction|].
  destruct s as [w evs]. simpl fst in Hu.
  unfold request, bind, trace_event, call. cbv beta iota zeta. simpl fst. rewrite Hu.
  rewrite Hr. destruct raw as [|r0 raw]; [discriminate|]. rewrite Hl.
  eexists. reflexivity.
Qed.

Lemma request_http_err (tok m p : string) (pl : option json) (s : St W) (w' : W)
  (code : Z) (d : string) :
  tok <> "" ->
  urlopen m (api_root api_base ++ p) (option_map dumps pl) tok (fst s) = (HTTPErr code d, w') ->
  exists evs', request W urlopen (Some tok) api_base m p pl s
               = (inr (RuntimeErr (http_error_msg m p code d)), (w', evs')).
Proof.
  intros Htok Hu. destruct tok as [|c t]; [contradiction|].
  destruct s as [w evs]. simpl fst in Hu.
  unfold request, bind, trace_event, call. cbv beta iota zeta. simpl fst. rewrite Hu.
  eexists. reflexivity.
Qed.

Lemma request_log (tok : option string) (m p : string) (pl : option json) (s : St W) :
  let '(_, (_, evs')) := request W urlopen tok api_base m p pl s in
  exists new, evs' = (snd s ++ new)%list /\
              (request_paths new = [] \/ request_paths new = [p]).
Proof.
  destruct s as [w evs].
  destruct tok as [[|c t]|];
    [eexists; split; [reflexivity | left; reflexivity] | |
     eexists; split; [reflexivity | left; reflexivity]].
  unfold request, bind, trace_event, call, raise, ret. cbv beta iota zeta. simpl fst. simpl snd.
  destruct (urlopen m (api_root api_base ++ p) (option_map dumps pl) (String c t) w)
    as [[st raw|code d|reason] w'].
  - destruct (utf8_valid raw);
      [destruct raw as [|r0 raw]; [|destruct (loads (String r0 raw))] |];
      (cbn [fst snd]; eexists; split; [rewrite <- ?app_assoc; reflexivity | right; reflexivity]).
  - cbn [fst snd]; eexists; split; [rewrite <- ?app_assoc; reflexivity | right; reflexivity].
  - cbn [fst snd]; eexists; split; [rewrite <- ?app_assoc; reflexivity | right; reflexivity].
Qed.

Lemma get_default_branch_log (tok : option string) (a : Gemini.RepoAccess) (s : St W) :
  let '(_, (_, evs')) := get_default_branch W urlopen tok api_base a s in
  exists new, evs' = (snd s ++ new)%list /\
              (request_paths new = [] \/ request_paths new = [repo_path a]).
Proof.
  pose proof (request_log tok "GET" (repo_path a) None s) as H.
  unfold get_default_branch, bind at 1.
  destruct (request W urlopen tok api_base "GET" (repo_path a) None s) as [[r|e] [w1 evs1]].
  - unfold bind, liftg, ret. destruct (gget r "default_branch") as [[v|]|e];
      [destruct (gtruthy v)| |]; exact H.
  - exact H.
Qed.

End Request.

(** *** Distinct tree requests *)

Lemma quote_char_cases (c : ascii) :
  (always_safe c = true /\ quote_char [] c = String c "") \/
  (always_safe c = false /\
   quote_char [] c = String "%" (String (hex_upper (ord c / 16)) (String (hex_upper (ord c mod 16)) ""))).
Proof.
  unfold quote_char. simpl existsb. rewrite orb_false_r.
  destruct (always_safe c); [left | right]; split; reflexivity.
Qed.

Lemma hex_upper_ord (n : nat) :
  n < 16 -> ord (hex_upper n) = if Nat.ltb n 10 then 48 + n else 55 + n.
Proof.
  intros H. unfold hex_upper, ord, chr.
  destruct (Nat.ltb n 10); apply nat_ascii_embedding; lia.
Qed.

Lemma hex_upper_inj (n m : nat) : n < 16 -> m < 16 -> hex_upper n = hex_upper m -> n = m.
Proof.
  intros Hn Hm H. apply (f_equal ord) in H. rewrite !hex_upper_ord in H by assumption.
  destruct (Nat.ltb_spec n 10), (Nat.ltb_spec m 10); lia.
Qed.

Lemma ord_inj (c d : ascii) : ord c = ord d -> c = d.
Proof.
  intros H. rewrite <- (ascii_nat_embedding c), <- (ascii_nat_embedding d).
  unfold ord in H. rewrite H. reflexivity.
Qed.

(** [quote(x, safe="")] followed by a ['?'] determines [x]. *)
Lemma quote_inj_sfx (x : string) :
  forall y u v, (quote [] x ++ String "?" u = quote [] y ++ String "?" v)%string -> x = y.
Proof.
  induction x as [|c x IH]; intros [|d y] u v H; cbn [quote] in H.
  - reflexivity.
  - rewrite sapp_assoc in H.
    destruct (quote_char_cases d) as [[Hs Hq]|[Hs Hq]]; rewrite Hq in H; simpl in H;
      injection H as Hc _; [subst d; discriminate Hs | discriminate Hc].
  - rewrite sapp_assoc in H.
    destruct (quote_char_cases c) as [[Hs Hq]|[Hs Hq]]; rewrite Hq in H; simpl in H;
      injection H as Hc _; [subst c; discriminate Hs | discriminate Hc].
  - rewrite !sapp_assoc in H.
    pose proof (ord_lt c). pose proof (ord_lt d). divmod (ord c) 16. divmod (ord d) 16.
    destruct (quote_char_cases c) as [[Hs Hq]|[Hs Hq]], (quote_char_cases d) as [[Hs' Hq']|[Hs' Hq']];
      rewrite Hq, Hq' in H; cbn [String.append] in H.
    + injection H as -> H. f_equal. exact (IH _ _ _ H).
    + injection H as -> _. discriminate Hs.
    + injection H as <- _. discriminate Hs'.
    + remember (ord c / 16) as hc eqn:Ehc in H. remember (ord c mod 16) as lc eqn:Elc in H.
      remember (ord d / 16) as hd eqn:Ehd in H. remember (ord d mod 16) as ld eqn:Eld in H.
      injection H as Q1 Q2 H. apply hex_upper_inj in Q1; [|lia|lia]. apply hex_upper_inj in Q2; [|lia|lia].
      assert (c = d) as -> by (apply ord_inj; lia). f_equal. exact (IH _ _ _ H).
Qed.

Lemma tree_path_inj (a : Gemini.RepoAccess) (r1 r2 : string) :
  tree_path a r1 = tree_path a r2 -> r1 = r2.
Proof.
  unfold tree_path. intros H. apply sapp_cancel_l in H.
  apply (sapp_cancel_l "/git/trees/") in H. exact (quote_inj_sfx _ _ _ _ H).
Qed.

Lemma tree_path_repo (a : Gemini.RepoAccess) (r : string) : tree_path a r <> repo_path a.
Proof.
  unfold tree_path. intros H. apply (f_equal String.length) in H.
  rewrite slength_app in H. simpl in H. lia.
Qed.

Lemma request_paths_app (x y : list gevent) :
  request_paths (x ++ y) = (request_paths x ++ request_paths y)%list.
Proof. unfold request_paths. apply flat_map_app. Qed.

Lemma paths_nodup3 (x1 x2 x3 : string) (p1 p2 p3 : list string) :
  x1 <> x2 -> x1 <> x3 -> x2 <> x3 ->
  (p1 = [] \/ p1 = [x1]) -> (p2 = [] \/ p2 = [x2]) -> (p3 = [] \/ p3 = [x3]) ->
  NoDup (p1 ++ p2 ++ p3) /\ length (p1 ++ p2 ++ p3) <= 3.
Proof.
  intros H12 H13 H23 [->| ->] [->| ->] [->| ->]; simpl;
    (split; [repeat constructor; simpl; intuition congruence | lia]).
Qed.

Section Tree.
Variable W : Type.
Variable urlopen : string -> string -> option string -> string -> W -> http_resp * W.
Variable api_base : string.

(** [_get_tree_with_fallback] never requests the same path twice: after a
    404 on the tree of [ref] it asks for the repository and then, only when
    the default branch is another branch, for that branch's tree. *)
Theorem tree_requests_distinct (tok : option string) (a : Gemini.RepoAccess) (ref : string)
  (s : St W) :
  let '(_, (_, evs')) := get_tree_with_fallback W urlopen tok api_base a ref s in
  exists new, evs' = (snd s ++ new)%list /\
    NoDup (request_paths new) /\ length (request_paths new) <= 3.
Proof.
  assert (D1 := tree_path_repo a ref).
  pose proof (request_log W urlopen api_base tok "GET" (tree_path a ref) None s) as H1.
  unfold get_tree_with_fallback, catch_runtime.
  destruct (request W urlopen tok api_base "GET" (tree_path a ref) None s)
    as [r1 [w1 evs1]] eqn:E1.
  destruct H1 as [n1 [Hn1 P1]].
  (* the outcomes that end after the first request *)
  assert (End1 : exists new, evs1 = (snd s ++ new)%list /\
                   NoDup (request_paths new) /\ length (request_paths new) <= 3).
  { exists n1. split; [exact Hn1|].
    destruct (paths_nodup3 (tree_path a ref) (repo_path a) (repo_path a ++ "?")
                (request_paths n1) [] [])
      as [Hd Hl]; auto.
    - unfold tree_path. intros H. apply sapp_cancel_l in H. discriminate H.
    - intros H. apply (f_equal String.length) in H. rewrite slength_app in H. simpl in H. lia.
    - rewrite !app_nil_r in Hd, Hl. auto. }
  destruct r1 as [v|[msg| | | | |]]; try exact End1.
  destruct (contains msg "GitHub API error (404)"); [|exact End1].
  pose proof (get_default_branch_log W urlopen api_base tok a (w1, evs1)) as H2.
  unfold bind at 1.
  destruct (get_default_branch W urlopen tok api_base a (w1, evs1)) as [r2 [w2 evs2]] eqn:E2.
  destruct H2 as [n2 [Hn2 P2]]. simpl snd in Hn2.
  assert (End2 : exists new, evs2 = (snd s ++ new)%list /\
                   NoDup (request_paths new) /\ length (request_paths new) <= 3).
  { exists (n1 ++ n2)%list. split; [rewrite Hn2, Hn1, app_assoc; reflexivity|].
    rewrite request_paths_app.
    destruct (paths_nodup3 (tree_path a ref) (repo_path a) (tree_path a ref ++ "?")
                (request_paths n1) (request_paths n2) [])
      as [Hd Hl]; auto.
    - intros H. apply (f_equal String.length) in H. rewrite slength_app in H. simpl in H. lia.
    - intros H. apply (f_equal String.length) in H. unfold tree_path in H.
      rewrite !slength_app in H. simpl in H. lia.
    - rewrite app_nil_r in Hd, Hl. auto. }
  destruct r2 as [fb|e2]; [|exact End2].
  destruct fb as [| | | |f| |];
    try (unfold as_str, raise; exact End2).
  destruct (String.eqb_spec f ref) as [->|Hne]; [exact End2|].
  unfold as_str, bind, ret. cbv beta iota.
  pose proof (request_log W urlopen api_base tok "GET" (tree_path a f) None (w2, evs2)) as H3.
  destruct (request W urlopen tok api_base "GET" (tree_path a f) None (w2, evs2))
    as [r3 [w3 evs3]].
  destruct H3 as [n3 [Hn3 P3]]. simpl snd in Hn3.
  exists (n1 ++ n2 ++ n3)%list. split; [rewrite Hn3, Hn2, Hn1, !app_assoc; reflexivity|].
  rewrite !request_paths_app.
  apply paths_nodup3 with (x1 := tree_path a ref) (x2 := repo_path a) (x3 := tree_path a f); auto.
  - intros H. apply Hne. symmetry. exact (tree_path_inj _ _ _ H).
  - intros H. exact (tree_path_repo a f (eq_sym H)).
Qed.

End Tree.

(** *** [create_branch] and an existing branch *)

Section Branch.
Variable W : Type.
Variable urlopen : string -> string -> option string -> string -> W -> http_resp * W.
Variable api_base : string.

Lemma http_error_msg_other (m p d : string) (code : Z) :
  (code =? 404)%Z = false -> (code =? 403)%Z = false ->
  http_error_msg m p code d =
  ("GitHub API error (" ++ dump_int code ++ ") on " ++ m ++ " " ++ p ++ ": " ++ d)%string.
Proof. intros H4 H3. unfold http_error_msg. rewrite H4, H3. reflexivity. Qed.

Lemma contains_app_r (x y t : string) : contains y t = true -> contains (x ++ y) t = true.
Proof.
  rewrite !contains_spec. intros [a [b ->]]. exists (x ++ a)%string, b.
  now rewrite sapp_assoc.
Qed.

(** A branch that already exists is not an error: whatever the source
    branch ([from_branch], or the default branch when [from_branch] is
    [None] or empty), once its ref's [sha] is read, a [POST] creating the
    new ref that fails with a 422 whose body says ["Reference already
    exists"] still lets [create_branch] return the new branch's name. *)
Theorem create_branch_exists_ok (tok : string) (a : Gemini.RepoAccess)
  (new_branch : string) (from_branch : option string) (w0 w1 w2 : W)
  (evs evs1 : list gevent) (sha : json) (d : string)
  (Htok : tok <> "")
  (Hsrc : source_sha W urlopen (Some tok) api_base a from_branch (w0, evs) = (inl sha, (w1, evs1)))
  (Hpost : urlopen "POST" (api_root api_base ++ repo_path a ++ "/git/refs")
             (Some (dumps (JObj [("ref", JStr ("refs/heads/" ++ new_branch)); ("sha", sha)])))
             tok w1 = (HTTPErr 422 d, w2))
  (Hd : contains d "Reference already exists" = true) :
  fst (create_branch W urlopen (Some tok) api_base a new_branch from_branch (w0, evs)) = inl new_branch /\
  fst (snd (create_branch W urlopen (Some tok) api_base a new_branch from_branch (w0, evs))) = w2.
Proof.
  destruct (request_http_err W urlopen api_base tok "POST" (repo_path a ++ "/git/refs")
              (Some (JObj [("ref", JStr ("refs/heads/" ++ new_branch)); ("sha", sha)]))
              (w1, evs1) w2 422 d Htok Hpost) as [evs2 E2].
  enough (Hres : exists evs3,
             create_branch W urlopen (Some tok) api_base a new_branch from_branch (w0, evs)
             = (inl new_branch, (w2, evs3)))
    by (destruct Hres as [evs3 ->]; split; reflexivity).
  unfold create_branch, bind at 1. rewrite Hsrc.
  unfold bind at 1, catch_runtime. cbv beta. unfold bind at 1. cbv beta. rewrite E2.
  rewrite http_error_msg_other by reflexivity.
  replace (contains _ "GitHub API error (422)") with true
    by (symmetry; apply contains_spec;
        exists "", (" on POST " ++ (repo_path a ++ "/git/refs") ++ ": " ++ d)%string;
        simpl; reflexivity).
  replace (contains _ "Reference already exists") with true
    by (symmetry; repeat apply contains_app_r; exact Hd).
  eexists. reflexivity.
Qed.

End Branch.

End ExtraGitHub.


Module Witnesses.
Import PyStr Json Gemini Specs Demo.

(** Claim C3, counterexample: the text after the closing brace is not
    returned verbatim; [" x"] comes back as ["x"]. *)
Lemma extract_roundtrip_counterexample :
  JsonUtils.extract_first_json_object ("{}" ++ " x") = inl ([], "x").
Proof. vm_compute. reflexivity. Qed.

(** Claim C3, witness: a compact object that [json.dumps] would not
    write, with a brace inside a string and a float, between a preamble
    and a remark. *)
Lemma extract_roundtrip_witness :
  JsonUtils.strip_code_fences ("Plan: " ++ compact_obj_text ++ " done")
  = ("Plan: " ++ compact_obj_text ++ " done")%string /\
  contains "Plan: " "{" = false /\
  loads compact_obj_text = Some (JObj compact_obj) /\
  JsonUtils.extract_first_json_object ("Plan: " ++ compact_obj_text ++ " done")
  = inl (compact_obj, strip " done").
Proof.
  assert (H1 : JsonUtils.strip_code_fences ("Plan: " ++ compact_obj_text ++ " done")
               = ("Plan: " ++ compact_obj_text ++ " done")%string)
    by (vm_compute; reflexivity).
  assert (H2 : contains "Plan: " "{" = false) by (vm_compute; reflexivity).
  assert (H3 : loads compact_obj_text = Some (JObj compact_obj))
    by (vm_compute; reflexivity).
  split; [exact H1|]. split; [exact H2|]. split; [exact H3|].
  exact (JsonFacts.extract_roundtrip ("Plan: " ++ compact_obj_text ++ " done")
           "Plan: " compact_obj_body compact_obj " done" H1 H2 H3).
Defined.

(** Claim C4, counterexample: in the text ["{"] (a quoted brace) no [{]
    lies outside a quoted string, yet the extractor starts its candidate
    at the quoted brace and fails with [UnterminatedObject] rather than
    [NoObjectFound]. *)
Lemma extract_starts_at_first_brace_counterexample :
  JsonUtils.extract_first_json_object (QT ++ "{" ++ QT) = inr JsonUtils.UnterminatedObject.
Proof. vm_compute. reflexivity. Qed.

(** Claim C4, witness: a quoted word before the object is skipped over as
    plain text; the result is that of the text from the first brace. *)
Lemma extract_starts_at_first_brace_witness :
  JsonUtils.strip_code_fences (QT ++ "x" ++ QT ++ " {} ")
  = ((QT ++ "x" ++ QT ++ " ") ++ String "{" "}")%string /\
  contains (QT ++ "x" ++ QT ++ " ") "{" = false /\
  JsonUtils.extract_first_json_object (QT ++ "x" ++ QT ++ " {} ")
  = JsonUtils.extract_first_json_object (String "{" "}").
Proof.
  assert (H1 : JsonUtils.strip_code_fences (QT ++ "x" ++ QT ++ " {} ")
               = ((QT ++ "x" ++ QT ++ " ") ++ String "{" "}")%string)
    by (vm_compute; reflexivity).
  assert (H2 : contains (QT ++ "x" ++ QT ++ " ") "{" = false)
    by (vm_compute; reflexivity).
  split; [exact H1|]. split; [exact H2|].
  exact (proj2 (ExtractFacts.extract_starts_at_first_brace (QT ++ "x" ++ QT ++ " {} "))
           (QT ++ "x" ++ QT ++ " ") "}" H1 H2).
Defined.

(** Claim C1, counterexample: a span whose data maps the key
    ["api_key"] to a string that has none of the sensitive words keeps
    that string verbatim in its serialized document. *)
Lemma redaction_by_value_counterexample :
  let sp := Logger.MkSpan "request.lifecycle" "ok" "t0" 0 None None
              [("api_key", Logger.PStr "sk-live-123")] [] [] in
  Logger.path_get [Logger.SKey "data"; Logger.SKey "api_key"] (Logger.span_as_dict sp)
  = Some (Logger.PStr "sk-live-123").
Proof. reflexivity. Qed.

(** Claim C1, witness: a string under the harmless key ["note"] whose text
    mentions a token is redacted. *)
Lemma redaction_by_value_witness :
  Logger.path_get [Logger.SKey "note"]
    (Logger.PDict [("note", Logger.PStr "my Token is abc")])
  = Some (Logger.PStr "my Token is abc") /\
  Logger.safe_value (Logger.PStr "my Token is abc") = Logger.PStr Logger.REDACTED.
Proof.
  assert (H : Logger.path_get [Logger.SKey "note"]
                (Logger.PDict [("note", Logger.PStr "my Token is abc")])
              = Some (Logger.PStr "my Token is abc")) by reflexivity.
  split; [exact H|].
  apply (proj1 (proj2 (proj2 (proj2
           (RedactFacts.redaction_by_value [Logger.SKey "note"]
              [("note", Logger.PStr "my Token is abc")] "my Token is abc" H))))).
  vm_compute; reflexivity.
Defined.

(** Claim C2, counterexample: a model whose every reply is the text
    ["hello"] never produces a final action, yet the loop does not reach
    the step limit: the first reply fails to decode and the workflow
    raises after one iteration. *)
Lemma tool_loop_step_limit_counterexample :
  let r := tool_loop nat (fixed_model "hello") demo_sleep demo_clock demo_branch
             demo_create_branch demo_list_files demo_read_file demo_write_file
             demo_pull_request demo_user demo_access 12 0 [] demo_s0 in
  fst r = inr (NotJson "hello") /\ steps_of (snd (snd r)) = [1].
Proof. vm_compute. split; reflexivity. Qed.

(** Claim C9, counterexample: a [push] entry that is present but [null]
    makes the check raise, although it is neither absent nor [false]. *)
Lemma write_access_check_counterexample :
  ensure_repo_write_access nat (demo_repo [("permissions", JObj [("push", JNull)])])
    demo_access (0%nat, []) = (inr NoPushAccess, (0%nat, [])).
Proof. vm_compute. reflexivity. Qed.

Lemma tool_loop_step_limit_witness :
  (length (demo_steps 12) = 12 /\
   tool_steps (iteration nat (model 12 "get_default_branch") demo_sleep demo_clock demo_branch
      demo_create_branch demo_list_files demo_read_file demo_write_file demo_pull_request
      demo_user demo_access) demo_s0 (demo_steps 12) /\
   (tool_loop nat (model 12 "get_default_branch") demo_sleep demo_clock demo_branch
      demo_create_branch demo_list_files demo_read_file demo_write_file demo_pull_request
      demo_user demo_access 12 0 [] demo_s0
    = (inl STEP_LIMIT_MSG, state_at demo_s0 (demo_steps 12) 12) /\
    steps_of (snd (state_at demo_s0 (demo_steps 12) 12)) = (steps_of (snd demo_s0) ++ seq 1 12)%list)) /\
  (let r := generate_text nat (fixed_model "hello") demo_sleep
              (build_tool_prompt demo_user demo_access [] (demo_clock 0%nat))
              (0%nat, [OStep 1]) in
   length (@nil (json * St nat)) < 12 /\
   tool_steps (iteration nat (fixed_model "hello") demo_sleep demo_clock demo_branch
      demo_create_branch demo_list_files demo_read_file demo_write_file demo_pull_request
      demo_user demo_access) demo_s0 [] /\
   state_at demo_s0 [] 0 = (0%nat, []) /\
   r = (inl "hello", snd r) /\
   parse_action "hello" = inr (NotJson "hello") /\
   tool_loop nat (fixed_model "hello") demo_sleep demo_clock demo_branch
      demo_create_branch demo_list_files demo_read_file demo_write_file demo_pull_request
      demo_user demo_access 12 0 [] demo_s0 = (inr (NotJson "hello"), snd r)).
Proof.
  split.
  - assert (H1 : length (demo_steps 12) = 12) by (vm_compute; reflexivity).
    assert (H2 : tool_steps (iteration nat (model 12 "get_default_branch") demo_sleep demo_clock
       demo_branch demo_create_branch demo_list_files demo_read_file demo_write_file
       demo_pull_request demo_user demo_access) demo_s0 (demo_steps 12)).
    { intros i e s' H.
      do 12 (destruct i as [|i]; [vm_compute in H; injection H as <- <-; vm_compute; reflexivity|]).
      destruct i; vm_compute in H; discriminate. }
    split; [exact H1|]. split; [exact H2|].
    exact (proj1 (LoopFacts.tool_loop_step_limit nat (model 12 "get_default_branch") demo_sleep
       demo_clock demo_branch demo_create_branch demo_list_files demo_read_file demo_write_file
       demo_pull_request demo_user demo_access demo_s0) (demo_steps 12) H1 H2).
  - intros r.
    assert (H1 : length (@nil (json * St nat)) < 12) by (simpl; lia).
    assert (H2 : tool_steps (iteration nat (fixed_model "hello") demo_sleep demo_clock demo_branch
      demo_create_branch demo_list_files demo_read_file demo_write_file demo_pull_request
      demo_user demo_access) demo_s0 []).
    { intros i e s' H. destruct i; discriminate. }
    assert (H3 : state_at demo_s0 [] 0 = (0%nat, [])) by reflexivity.
    assert (H4 : r = (inl "hello", snd r)) by (unfold r; vm_compute; reflexivity).
    assert (H5 : parse_action "hello" = inr (NotJson "hello")) by (vm_compute; reflexivity).
    split; [exact H1|]. split; [exact H2|]. split; [exact H3|]. split; [exact H4|].
    split; [exact H5|].
    exact (proj1 (proj2 (proj2 (LoopFacts.tool_loop_step_limit nat (fixed_model "hello") demo_sleep
       demo_clock demo_branch demo_create_branch demo_list_files demo_read_file demo_write_file
       demo_pull_request demo_user demo_access demo_s0))) [] 0%nat [] "hello" (snd r)
       (NotJson "hello") H1 H2 H3 H4 H5).
Defined.

Lemma tool_loop_history_witness :
  2 < 12 /\ length (demo_steps 2) = 2 /\
  tool_steps (iteration nat (model 2 "get_default_branch") demo_sleep demo_clock demo_branch
     demo_create_branch demo_list_files demo_read_file demo_write_file demo_pull_request
     demo_user demo_access) demo_s0 (demo_steps 2) /\
  iteration nat (model 2 "get_default_branch") demo_sleep demo_clock demo_branch
     demo_create_branch demo_list_files demo_read_file demo_write_file demo_pull_request
     demo_user demo_access 2 (map fst (demo_steps 2)) (state_at demo_s0 (demo_steps 2) 2)
   = (inl (IFinal (JStr "done")), demo_final_state) /\
  (tool_loop nat (model 2 "get_default_branch") demo_sleep demo_clock demo_branch
     demo_create_branch demo_list_files demo_read_file demo_write_file demo_pull_request
     demo_user demo_access 12 0 [] demo_s0 = lift (response_text (JStr "done")) demo_final_state /\
   length (map fst (demo_steps 2)) = 2 /\
   (forall i e s, nth_error (demo_steps 2) i = Some (e, s) ->
      nth_error (map fst (demo_steps 2)) i = Some e /\
      iteration nat (model 2 "get_default_branch") demo_sleep demo_clock demo_branch
        demo_create_branch demo_list_files demo_read_file demo_write_file demo_pull_request
        demo_user demo_access i (map fst (firstn i (demo_steps 2)))
        (state_at demo_s0 (demo_steps 2) i) = (inl (ITool e), s) /\
      exists text r, e = history_entry text r) /\
   steps_of (snd demo_final_state) = (steps_of (snd demo_s0) ++ seq 1 3)%list).
Proof.
  assert (H0 : 2 < 12) by lia.
  assert (H1 : length (demo_steps 2) = 2) by (vm_compute; reflexivity).
  assert (H2 : tool_steps (iteration nat (model 2 "get_default_branch") demo_sleep demo_clock
     demo_branch demo_create_branch demo_list_files demo_read_file demo_write_file
     demo_pull_request demo_user demo_access) demo_s0 (demo_steps 2)).
  { intros i e s' H.
    do 2 (destruct i as [|i]; [vm_compute in H; injection H as <- <-; vm_compute; reflexivity|]).
    destruct i; vm_compute in H; discriminate. }
  assert (H3 : iteration nat (model 2 "get_default_branch") demo_sleep demo_clock demo_branch
     demo_create_branch demo_list_files demo_read_file demo_write_file demo_pull_request
     demo_user demo_access 2 (map fst (demo_steps 2)) (state_at demo_s0 (demo_steps 2) 2)
   = (inl (IFinal (JStr "done")), demo_final_state)) by (vm_compute; reflexivity).
  split; [exact H0|]. split; [exact H1|]. split; [exact H2|]. split; [exact H3|].
  exact (LoopFacts.tool_loop_history nat (model 2 "get_default_branch") demo_sleep demo_clock demo_branch
     demo_create_branch demo_list_files demo_read_file demo_write_file demo_pull_request demo_user demo_access demo_s0
           demo_final_state (demo_steps 2) 2 (JStr "done") H0 H1 H2 H3).
Defined.

Lemma unknown_tool_aborts_witness :
  generate_text nat (model 12 "delete_repo") demo_sleep
    (build_tool_prompt demo_user demo_access [] (demo_clock 0)) (0%nat, ([] ++ [OStep 1])%list)
  = (inl (tool_call_text "delete_repo"), bad_tool_state) /\
  parse_action (tool_call_text "delete_repo") = inl (ToolCall (JStr "delete_repo") (JObj [])) /\
  (forall n, In n TOOL_NAMES -> JStr "delete_repo" <> JStr n) /\
  (execute_tool_inner nat demo_branch demo_create_branch demo_list_files demo_read_file
     demo_write_file demo_pull_request demo_access (JStr "delete_repo") (JObj []) bad_tool_state
   = (inr (UnknownTool (JStr "delete_repo")), bad_tool_state) /\
   tool_loop nat (model 12 "delete_repo") demo_sleep demo_clock demo_branch demo_create_branch
     demo_list_files demo_read_file demo_write_file demo_pull_request demo_user demo_access
     12 0 [] (0%nat, []) = (inr (UnknownTool (JStr "delete_repo")), bad_tool_state)).
Proof.
  assert (H1 : generate_text nat (model 12 "delete_repo") demo_sleep
    (build_tool_prompt demo_user demo_access [] (demo_clock 0)) (0%nat, ([] ++ [OStep 1])%list)
    = (inl (tool_call_text "delete_repo"), bad_tool_state)) by (vm_compute; reflexivity).
  assert (H2 : parse_action (tool_call_text "delete_repo")
               = inl (ToolCall (JStr "delete_repo") (JObj []))) by (vm_compute; reflexivity).
  assert (H3 : forall n, In n TOOL_NAMES -> JStr "delete_repo" <> JStr n).
  { intros n Hn Heq. injection Heq as <-. vm_compute in Hn.
    repeat (destruct Hn as [Hn|Hn]; [discriminate|]). exact Hn. }
  split; [exact H1|]. split; [exact H2|]. split; [exact H3|].
  exact (LoopFacts.unknown_tool_aborts nat (model 12 "delete_repo") demo_sleep demo_clock
    demo_branch demo_create_branch demo_list_files demo_read_file demo_write_file
    demo_pull_request demo_user demo_access 11 0 [] 0%nat [] (tool_call_text "delete_repo")
    bad_tool_state (JStr "delete_repo") (JObj []) H1 H2 H3).
Defined.

Lemma write_access_check_witness :
  extract_repo_access demo_user = inl (Some demo_access) /\
  demo_repo [("full_name", JStr "acme/widgets")] demo_access 0%nat
    = (inl (JObj [("full_name", JStr "acme/widgets")]), 0%nat) /\
  ((ensure_repo_write_access nat (demo_repo [("full_name", JStr "acme/widgets")]) demo_access
      (0%nat, []) = (inr NoPushAccess, (0%nat, [])) <->
    exists pk, Logger.dict_get [("full_name", JStr "acme/widgets")] "permissions" = Some (JObj pk) /\
      (Logger.dict_get pk "push" = None \/
       exists v, Logger.dict_get pk "push" = Some v /\ truthy v = false)) /\
   (ensure_repo_write_access nat (demo_repo [("full_name", JStr "acme/widgets")]) demo_access
      (0%nat, []) = (inl tt, (0%nat, [])) <->
    ~ exists pk, Logger.dict_get [("full_name", JStr "acme/widgets")] "permissions" = Some (JObj pk) /\
      (Logger.dict_get pk "push" = None \/
       exists v, Logger.dict_get pk "push" = Some v /\ truthy v = false)) /\
   ((forall pk, Logger.dict_get [("full_name", JStr "acme/widgets")] "permissions" <> Some (JObj pk)) ->
    ensure_repo_write_access nat (demo_repo [("full_name", JStr "acme/widgets")]) demo_access
      (0%nat, []) = (inl tt, (0%nat, [])) /\
    respond nat (model 1 "get_default_branch") demo_sleep demo_clock "{}"
      (demo_repo [("full_name", JStr "acme/widgets")]) demo_branch demo_create_branch
      demo_list_files demo_read_file demo_write_file demo_pull_request "chat" demo_user (0%nat, [])
    = tool_loop nat (model 1 "get_default_branch") demo_sleep demo_clock demo_branch
        demo_create_branch demo_list_files demo_read_file demo_write_file demo_pull_request
        demo_user demo_access 12 0 [] (0%nat, []))).
Proof.
  assert (H1 : extract_repo_access demo_user = inl (Some demo_access)) by (vm_compute; reflexivity).
  assert (H2 : demo_repo [("full_name", JStr "acme/widgets")] demo_access 0%nat
    = (inl (JObj [("full_name", JStr "acme/widgets")]), 0%nat)) by reflexivity.
  split; [exact H1|]. split; [exact H2|].
  exact (LoopFacts.write_access_check nat (model 1 "get_default_branch") demo_sleep demo_clock "{}"
    (demo_repo [("full_name", JStr "acme/widgets")]) demo_branch demo_create_branch
    demo_list_files demo_read_file demo_write_file demo_pull_request demo_user demo_access
    0%nat 0%nat [] [("full_name", JStr "acme/widgets")] H1 H2).
Defined.

Lemma code_hint_routes_to_plan_witness :
  In "fix" Modes.CODE_HINTS /\
  contains (lower "Fix the login bug") "fix" = true /\
  (Modes.dm_mode (Modes.detect_mode "Fix the login bug") = "plan" /\
   forall s, handle_request nat (model 0 "get_default_branch") demo_sleep demo_clock "{}"
               (demo_repo []) demo_branch demo_create_branch demo_list_files demo_read_file
               demo_write_file demo_pull_request "Fix the login bug" s
             = generate_text nat (model 0 "get_default_branch") demo_sleep
                 (build_plan_prompt "{}" "Fix the login bug") s).
Proof.
  assert (H1 : In "fix" Modes.CODE_HINTS) by (simpl; tauto).
  assert (H2 : contains (lower "Fix the login bug") "fix" = true) by reflexivity.
  split; [exact H1|]. split; [exact H2|].
  exact (LoopFacts.code_hint_routes_to_plan nat (model 0 "get_default_branch") demo_sleep
    demo_clock "{}" (demo_repo []) demo_branch demo_create_branch demo_list_files demo_read_file
    demo_write_file demo_pull_request "Fix the login bug" "fix" H1 H2).
Defined.

(** *** Witnesses of the properties of the wider code *)

Lemma safe_value_strings_witness :
  (Logger.path_get [Logger.SKey "note"]
     (Logger.safe_value (Logger.PDict [("note", Logger.PStr "hello")]))
   = Some (Logger.PStr "hello") /\
   ("hello" = Logger.REDACTED \/
    (Logger.sensitive "hello" = false /\ String.length "hello" <= 2014))) /\
  Logger.safe_value (Logger.PTuple [Logger.PStr "token"])
  = Logger.PTuple [Logger.PStr "token"].
Proof.
  assert (H : Logger.path_get [Logger.SKey "note"]
                (Logger.safe_value (Logger.PDict [("note", Logger.PStr "hello")]))
              = Some (Logger.PStr "hello")) by (vm_compute; reflexivity).
  split.
  - split; [exact H|]. exact (proj1 ExtraRedact.safe_value_strings _ _ _ H).
  - exact (proj2 ExtraRedact.safe_value_strings _).
Defined.

Lemma detect_mode_case_space_witness :
  lower "Fix Bug" = lower "fix bug" /\ JsonSpecs.all_chars isspace " " = true /\
  (Modes.detect_mode "Fix Bug" = Modes.detect_mode "fix bug" /\
   Modes.detect_mode (" " ++ "Fix Bug" ++ " ") = Modes.detect_mode "Fix Bug").
Proof.
  assert (H1 : lower "Fix Bug" = lower "fix bug") by (vm_compute; reflexivity).
  assert (H2 : JsonSpecs.all_chars isspace " " = true) by (vm_compute; reflexivity).
  split; [exact H1|]. split; [exact H2|].
  exact (ExtraModes.detect_mode_case_space "Fix Bug" "fix bug" " " " " H1 H2 H2).
Defined.

Lemma finish_merges_data_witness :
  NoDup (map fst [("b", Logger.PInt 1)]) /\
  Logger.dict_get (Logger.sp_data (Logger.finish
    (Logger.MkSpan "s" "in_progress" "t0" 0 None None [("a", Logger.PInt 0)] [] [])
    "ok" [("b", Logger.PInt 1)] "t1" 1)) "a" = Some (Logger.PInt 0).
Proof.
  assert (H : NoDup (map fst [("b", Logger.PInt 1)])) by (repeat constructor; intros []).
  split; [exact H|].
  exact (ExtraLogger.finish_merges_data "s" "in_progress" "t0" 0 None [("a", Logger.PInt 0)] [] []
           "ok" [("b", Logger.PInt 1)] "t1" 1 "a" H).
Defined.


Lemma generate_text_nonempty_witness :
  generate_text nat (fixed_model (final_text "done")) demo_sleep "hello" demo_s0
  = (inl (final_text "done"),
     (1%nat, [OEvent "gemini.http.start" 1; OEvent "gemini.http.success" 1])) /\
  final_text "done" <> "" /\ strip (final_text "done") = final_text "done".
Proof.
  assert (H : generate_text nat (fixed_model (final_text "done")) demo_sleep "hello" demo_s0
              = (inl (final_text "done"),
                 (1%nat, [OEvent "gemini.http.start" 1; OEvent "gemini.http.success" 1])))
    by (vm_compute; reflexivity).
  split; [exact H|]. exact (ExtraGen.generate_text_nonempty nat _ _ _ _ _ _ H).
Defined.

Lemma parse_plan_roundtrip_witness :
  Plan.plan_valid PlanDemo.demo_plan = true /\
  JsonUtils.strip_code_fences ("Plan: " ++ dumps (JObj (Plan.plan_dump PlanDemo.demo_plan)) ++ " ok")
  = ("Plan: " ++ dumps (JObj (Plan.plan_dump PlanDemo.demo_plan)) ++ " ok")%string /\
  contains "Plan: " "{" = false /\
  Plan.parse_plan_response ("Plan: " ++ dumps (JObj (Plan.plan_dump PlanDemo.demo_plan)) ++ " ok")
  = Some PlanDemo.demo_plan.
Proof.
  assert (H1 : Plan.plan_valid PlanDemo.demo_plan = true) by (vm_compute; reflexivity).
  assert (H2 : JsonUtils.strip_code_fences
                 ("Plan: " ++ dumps (JObj (Plan.plan_dump PlanDemo.demo_plan)) ++ " ok")
               = ("Plan: " ++ dumps (JObj (Plan.plan_dump PlanDemo.demo_plan)) ++ " ok")%string)
    by (vm_compute; reflexivity).
  assert (H3 : contains "Plan: " "{" = false) by (vm_compute; reflexivity).
  split; [exact H1|]. split; [exact H2|]. split; [exact H3|].
  exact (ExtraPlan.parse_plan_roundtrip _ "Plan: " " ok" PlanDemo.demo_plan H1 H2 H3).
Defined.

Lemma respond_no_github_witness :
  ("chat" = "plan" \/ extract_repo_access "hello" = inl None) /\
  respond nat (fixed_model (final_text "hi")) demo_sleep demo_clock "schema"
    (demo_repo []) demo_branch demo_create_branch demo_list_files demo_read_file
    demo_write_file demo_pull_request "chat" "hello" demo_s0 =
  respond nat (fixed_model (final_text "hi")) demo_sleep demo_clock "schema"
    (demo_repo [("permissions", JObj [])]) demo_branch demo_create_branch demo_list_files
    demo_read_file demo_write_file demo_pull_request "chat" "hello" demo_s0.
Proof.
  assert (H : "chat" = "plan" \/ extract_repo_access "hello" = inl None)
    by (right; vm_compute; reflexivity).
  split; [exact H|].
  exact (ExtraRespond.respond_no_github nat _ _ _ _ _ _ _ _ _ _ _ _ _ _ _ _ _ _
           "chat" "hello" demo_s0 H).
Defined.

Lemma respond_bad_access_witness :
  "chat" <> "plan" /\
  extract_repo_access "https://github.com/acme/.git" = inr ValidationErr /\
  respond nat (fixed_model (final_text "hi")) demo_sleep demo_clock "schema"
    (demo_repo []) demo_branch demo_create_branch demo_list_files demo_read_file
    demo_write_file demo_pull_request "chat" "https://github.com/acme/.git" demo_s0
  = (inr ValidationErr, demo_s0).
Proof.
  assert (H1 : "chat" <> "plan") by discriminate.
  assert (H2 : extract_repo_access "https://github.com/acme/.git" = inr ValidationErr)
    by (vm_compute; reflexivity).
  split; [exact H1|]. split; [exact H2|].
  exact (ExtraRespond.respond_bad_access nat _ _ _ _ _ _ _ _ _ _ _
           "chat" _ demo_s0 ValidationErr H1 H2).
Defined.

Lemma b64_content_roundtrip_witness :
  GitHub.utf8_valid "hi" = true /\
  Logger.dict_get [("content", JStr ("aG" ++ NL ++ "k="))] "content"
  = Some (JStr ("aG" ++ NL ++ "k=")) /\
  GitHub.remove_newlines ("aG" ++ NL ++ "k=") = GitHub.b64encode "hi" /\
  GitHub.read_content (JObj [("content", JStr ("aG" ++ NL ++ "k="))]) = inl "hi".
Proof.
  assert (H1 : GitHub.utf8_valid "hi" = true) by (vm_compute; reflexivity).
  assert (H2 : Logger.dict_get [("content", JStr ("aG" ++ NL ++ "k="))] "content"
               = Some (JStr ("aG" ++ NL ++ "k="))) by (vm_compute; reflexivity).
  assert (H3 : GitHub.remove_newlines ("aG" ++ NL ++ "k=") = GitHub.b64encode "hi")
    by (vm_compute; reflexivity).
  split; [exact H1|]. split; [exact H2|]. split; [exact H3|].
  exact (ExtraGitHub.b64_content_roundtrip "hi" _ _ H1 H2 H3).
Defined.

Lemma no_token_no_request_witness :
  (@None string = None \/ @None string = Some "") /\
  GitHub.ensure_repo_write_access nat GitHubDemo.down_api None "https://api.github.com"
    demo_access (0%nat, [])
  = (inr (GitHub.RuntimeErr GitHub.MISSING_TOKEN_MSG),
     (0%nat, [{| GitHub.ge_name := "github.auth.error"; GitHub.ge_status := "error";
                GitHub.ge_data := [("reason", Logger.PStr "missing_token")] |}])).
Proof.
  assert (H : @None string = None \/ @None string = Some "") by (left; reflexivity).
  split; [exact H|].
  exact (proj1 (ExtraGitHub.no_token_no_request nat GitHubDemo.down_api "https://api.github.com"
                  None H demo_access 0%nat [] "feature" "README.md" None None
                  {| wf_path := "README.md"; wf_content := "hi"; wf_commit_message := "docs";
                     wf_branch := None |}
                  {| pr_title := "t"; pr_body := "b"; pr_head_branch := "feature";
                     pr_base_branch := "main" |})).
Defined.

Lemma create_branch_exists_ok_witness :
  let r := GitHub.source_sha nat GitHubDemo.existing_ref_api (Some "tok") "https://api.github.com"
             demo_access None (0%nat, []) in
  "tok" <> "" /\
  r = (inl (JStr "abc"), (2%nat, snd (snd r))) /\
  GitHubDemo.existing_ref_api "POST"
    (GitHub.api_root "https://api.github.com" ++ GitHub.repo_path demo_access ++ "/git/refs")
    (Some (dumps (JObj [("ref", JStr ("refs/heads/" ++ "feature")); ("sha", JStr "abc")])))
    "tok" 2 = (GitHub.HTTPErr 422 "Reference already exists", 3%nat) /\
  contains "Reference already exists" "Reference already exists" = true /\
  fst (GitHub.create_branch nat GitHubDemo.existing_ref_api (Some "tok") "https://api.github.com"
         demo_access "feature" None (0%nat, [])) = inl "feature" /\
  fst (snd (GitHub.create_branch nat GitHubDemo.existing_ref_api (Some "tok")
              "https://api.github.com" demo_access "feature" None (0%nat, []))) = 3%nat.
Proof.
  intros r.
  assert (H1 : "tok" <> "") by discriminate.
  assert (H2 : r = (inl (JStr "abc"), (2%nat, snd (snd r)))) by (unfold r; vm_compute; reflexivity).
  assert (H3 : GitHubDemo.existing_ref_api "POST"
    (GitHub.api_root "https://api.github.com" ++ GitHub.repo_path demo_access ++ "/git/refs")
    (Some (dumps (JObj [("ref", JStr ("refs/heads/" ++ "feature")); ("sha", JStr "abc")])))
    "tok" 2 = (GitHub.HTTPErr 422 "Reference already exists", 3%nat)) by (vm_compute; reflexivity).
  assert (H4 : contains "Reference already exists" "Reference already exists" = true)
    by (vm_compute; reflexivity).
  do 4 (split; [assumption|]).
  exact (ExtraGitHub.create_branch_exists_ok nat GitHubDemo.existing_ref_api "https://api.github.com"
           "tok" demo_access "feature" None 0 2 3 [] (snd (snd r)) (JStr "abc")
           "Reference already exists" H1 H2 H3 H4).
Defined.

End Witnesses.
